(** * Customization selection for Amazon Q (customizationUtil.ts)

    A shallow embedding of
    [packages/core/src/codewhisperer/util/customizationUtil.ts]:
    the stateful functions of the module are functions in a small
    state-and-exception monad over a record of the ambient objects the
    TypeScript reads and writes ([AuthUtil.instance], [globals.globalState],
    [vsCodeState]), together with a trace of the effects on collaborators
    (logger, notifications, commands, picker). *)

From stdpp Require Import gmap strings list fin_maps.

Local Open Scope string_scope.
Local Open Scope list_scope.

(** ** Data *)

(** [RegionProfile] of [models/model.ts], with the fields this file reads. *)
Module RegionProfile.
Record t : Type := mk { name : string; region : string; arn : string }.

#[global] Instance eq_dec : EqDecision t.
Proof. solve_decision. Defined.
End RegionProfile.

(** [Customization] of the generated service client: [arn] is required,
    [name] and [description] are optional members ([None] is the JavaScript
    [undefined]).  [getAvailableCustomizationsList] hands out
    [Customization & { profile: RegionProfile }] objects, which are stored
    and passed around where a [Customization] is expected; [profile] is
    therefore an optional property of the one record. *)
Module Customization.
Record t : Type := mk {
  arn : string;
  name : option string;
  description : option string;
  profile : option RegionProfile.t
}.

#[global] Instance eq_dec : EqDecision t.
Proof. solve_decision. Defined.
End Customization.

Abbreviation Customization := Customization.t.
Abbreviation RegionProfile := RegionProfile.t.

(** What a [catch (e)] clause can see of a thrown value: [isAwsError(e)]
    holds for the first form. *)
Inductive JsError : Type :=
  | AwsError (requestId message : string)
  | PlainError (message : string).

#[global] Instance JsError_eq_dec : EqDecision JsError.
Proof. solve_decision. Defined.

Definition error_message (e : JsError) : string :=
  match e with
  | AwsError _ m => m
  | PlainError m => m
  end.

(** The result of an awaited call to a collaborator. *)
Inductive Fallible (A : Type) : Type :=
  | Resolves (a : A)
  | Rejects (e : JsError).
Arguments Resolves {A} a.
Arguments Rejects {A} e.

(** JavaScript truthiness of a string, and of an optional string. *)
Definition truthy (s : string) : bool := bool_decide (s ≠ "").

Definition truthy_opt (o : option string) : bool :=
  match o with
  | Some s => truthy s
  | None => false
  end.

(** [`${x}`] for an optional string. *)
Definition template (o : option string) : string := default "undefined" o.

(** [Array.prototype.toString] of an array of optional strings: elements
    joined by commas, [undefined] printed as the empty string. *)
Fixpoint join_names (l : list (option string)) : string :=
  match l with
  | [] => ""
  | [x] => default "" x
  | x :: rest => default "" x +:+ "," +:+ join_names rest
  end.

(** [parse] of [@aws-sdk/util-arn-parser] returns this record. *)
Record ARN : Type := mkARN {
  partition : string;
  service : string;
  arn_region : string;
  accountId : string;
  resource : string
}.

(** ** Picker items *)

(** The [onClick] closures of the picker items, by what they capture. *)
Inductive ClickAction : Type :=
  | ClickBase
  | ClickCustomization (customization : Customization).

Record PickItem : Type := mkItem {
  label : string;
  onClick : ClickAction;
  detail : option string;
  item_description : string;
  data : option string;
  recentlyUsed : bool
}.

(** ** Effects on collaborators *)

Inductive LogArg : Type :=
  | ArgString (s : string)
  | ArgError (e : JsError).

Inductive Event : Type :=
  | LogError (format : string) (args : list LogArg)
  | LogDebug (format : string)
  | InformationMessage (message : string) (actions : list string)
  | WarningMessage (message : string) (actions : list string)
  | MessageWithUrl (message url urlLabel : string)
  | ExecuteCommand (command : string)
  | QuickPick (items : list PickItem)
  | OpenUrl (uri : string)
  | SwitchRegionProfile (target : RegionProfile) (intent : string).

Definition is_warning (e : Event) : bool :=
  match e with
  | WarningMessage _ _ => true
  | _ => false
  end.

Definition is_notification (e : Event) : bool :=
  match e with
  | InformationMessage _ _ | WarningMessage _ _ | MessageWithUrl _ _ _ => true
  | _ => false
  end.

Definition warnings (tr : list Event) : nat := length (List.filter is_warning tr).
Definition notifications (tr : list Event) : list Event := List.filter is_notification tr.

(** ** The ambient state *)

(** [AuthUtil.instance]: the feature flag, the answer of
    [isValidEnterpriseSsoInUse()], the connection (by its [label]) and the
    region profile manager's active profile. *)
Record AuthUtil : Type := mkAuth {
  isCustomizationFeatureEnabled : bool;
  isValidEnterpriseSsoInUse : bool;
  conn : option string;
  activeRegionProfile : option RegionProfile
}.

(** [globals.globalState], by key:
    ['CODEWHISPERER_SELECTED_CUSTOMIZATION'],
    ['CODEWHISPERER_PERSISTED_CUSTOMIZATIONS'],
    ['aws.amazonq.customization.overrideV2'] and
    ['aws.amazonq.codewhisperer.newCustomizations']. *)
Record GlobalState : Type := mkGlobals {
  selectedCustomization : gmap string Customization;
  persistedCustomizations : gmap string (list Customization);
  overrideV2 : option string;
  newCustomizations : option nat
}.

(** The user's answers, in the order the awaited dialogs are shown: the
    button chosen in a warning ([None]: dismissed), and the index of the
    item chosen in a quick pick ([None]: cancelled).  A dialog shown when no
    answer is left is dismissed. *)
Record World : Type := mkWorld {
  auth : AuthUtil;
  globalState : GlobalState;
  isFreeTierLimitReached : bool;
  trace : list Event;
  warningReplies : list (option string);
  pickReplies : list (option nat)
}.

Definition with_auth (a : AuthUtil) (w : World) : World :=
  mkWorld a (globalState w) (isFreeTierLimitReached w) (trace w)
          (warningReplies w) (pickReplies w).
Definition with_globalState (g : GlobalState) (w : World) : World :=
  mkWorld (auth w) g (isFreeTierLimitReached w) (trace w)
          (warningReplies w) (pickReplies w).
Definition with_isFreeTierLimitReached (b : bool) (w : World) : World :=
  mkWorld (auth w) (globalState w) b (trace w) (warningReplies w) (pickReplies w).
Definition with_trace (tr : list Event) (w : World) : World :=
  mkWorld (auth w) (globalState w) (isFreeTierLimitReached w) tr
          (warningReplies w) (pickReplies w).
Definition with_warningReplies (r : list (option string)) (w : World) : World :=
  mkWorld (auth w) (globalState w) (isFreeTierLimitReached w) (trace w)
          r (pickReplies w).
Definition with_pickReplies (r : list (option nat)) (w : World) : World :=
  mkWorld (auth w) (globalState w) (isFreeTierLimitReached w) (trace w)
          (warningReplies w) r.

(** ** The monad of asynchronous functions

    An [async] function either returns, or rejects with the thrown value;
    [Exhausted] marks a run cut short by the recursion bound of
    [switchToBaseCustomizationAndNotify] below and is never caught. *)
Inductive Outcome (A : Type) : Type :=
  | Returned (a : A)
  | Thrown (e : JsError)
  | Exhausted.
Arguments Returned {A} a.
Arguments Thrown {A} e.
Arguments Exhausted {A}.

Definition M (A : Type) : Type := World → Outcome A * World.

Definition ret {A} (a : A) : M A := λ w, (Returned a, w).
Definition throw {A} (e : JsError) : M A := λ w, (Thrown e, w).
Definition exhausted {A} : M A := λ w, (Exhausted, w).

Definition bind {A B} (m : M A) (k : A → M B) : M B := λ w,
  match m w with
  | (Returned a, w') => k a w'
  | (Thrown e, w') => (Thrown e, w')
  | (Exhausted, w') => (Exhausted, w')
  end.

Definition try_catch {A} (m : M A) (handler : JsError → M A) : M A := λ w,
  match m w with
  | (Thrown e, w') => handler e w'
  | r => r
  end.

Declare Scope js_scope.
Delimit Scope js_scope with js.
Notation "x <- m ;; k" := (bind m (λ x, k))
  (at level 100, m at next level, right associativity) : js_scope.
Notation "m ;; k" := (bind m (λ _, k))
  (at level 100, right associativity) : js_scope.
Local Open Scope js_scope.

Definition gets {A} (f : World → A) : M A := λ w, (Returned (f w), w).
Definition modify (f : World → World) : M unit := λ w, (Returned tt, f w).
Definition emit (e : Event) : M unit := modify (λ w, with_trace (trace w ++ [e]) w).

Definition when (b : bool) (m : M unit) : M unit := if b then m else ret tt.

Fixpoint mapM {A B} (f : A → M B) (l : list A) : M (list B) :=
  match l with
  | [] => ret []
  | x :: rest => y <- f x;; ys <- mapM f rest;; ret (y :: ys)
  end.

Definition set_isCustomizationFeatureEnabled (b : bool) : M unit :=
  modify (λ w, with_auth (mkAuth b (isValidEnterpriseSsoInUse (auth w)) (conn (auth w))
                                 (activeRegionProfile (auth w))) w).

Definition set_activeRegionProfile (p : option RegionProfile) : M unit :=
  modify (λ w, with_auth (mkAuth (isCustomizationFeatureEnabled (auth w))
                                 (isValidEnterpriseSsoInUse (auth w)) (conn (auth w)) p) w).

(** [globals.globalState.update(key, value)], one function per key.  The
    writes are taken to succeed. *)
Definition update_selectedCustomization (obj : gmap string Customization) : M unit :=
  modify (λ w, with_globalState
                 (mkGlobals obj (persistedCustomizations (globalState w))
                            (overrideV2 (globalState w)) (newCustomizations (globalState w))) w).

Definition update_persistedCustomizations (obj : gmap string (list Customization)) : M unit :=
  modify (λ w, with_globalState
                 (mkGlobals (selectedCustomization (globalState w)) obj
                            (overrideV2 (globalState w)) (newCustomizations (globalState w))) w).

Definition update_overrideV2 (v : string) : M unit :=
  modify (λ w, with_globalState
                 (mkGlobals (selectedCustomization (globalState w))
                            (persistedCustomizations (globalState w))
                            (Some v) (newCustomizations (globalState w))) w).

Definition update_newCustomizations (num : nat) : M unit :=
  modify (λ w, with_globalState
                 (mkGlobals (selectedCustomization (globalState w))
                            (persistedCustomizations (globalState w))
                            (overrideV2 (globalState w)) (Some num)) w).

(** [vscode.window.showWarningMessage(message, ...items)], awaited: the
    warning is shown and the user's next answer is its result. *)
Definition showWarningMessage (message : string) (items : list string) : M (option string) :=
  emit (WarningMessage message items);;
  replies <- gets warningReplies;;
  match replies with
  | [] => ret None
  | r :: rest => modify (with_warningReplies rest);; ret r
  end.

(** ** The collaborators the module calls

    What the calls into code outside this file answer: the region profile
    manager, the service client behind [pageableToCollection] (the flattened
    pages of one listing, or the error that ended it), the ARN parser of
    [@aws-sdk/util-arn-parser], the [codicon] template applied to the
    circuit-board icon and a text, and two constants of
    [models/constants]. *)
Record Env : Type := mkEnv {
  listRegionProfile : Fallible (list RegionProfile);
  createQClient : RegionProfile → Fallible unit;
  client_listAvailableCustomizations : RegionProfile → string → Fallible (list Customization);
  parse : string → Fallible ARN;
  codicon : string → string;
  newCustomizationMessage : string;
  customLearnMoreUri : string
}.

(** ** The module

    [localize(key, text)] is read as [text], the message of the default
    locale. *)

Definition baseCustomization : Customization :=
  Customization.mk "" (Some "Amazon Q foundation (Default)")
                   (Some "Receive suggestions from Amazon Q base model") None.

Module CustomizationProvider.
Record t : Type := mk { profile : RegionProfile; region : string }.

Section Methods.
Context (env : Env).

(** The [logMsg] of the [catch] clause. *)
Definition logMsg (e : JsError) : string :=
  match e with
  | AwsError requestId message => "requestId=" +:+ requestId +:+ "; message=" +:+ message
  | PlainError message => message
  end.

Definition listAvailableCustomizations (this : t) : M (list Customization) :=
  match client_listAvailableCustomizations env (profile this)
                                           (RegionProfile.arn (profile this)) with
  | Resolves customizations => ret customizations
  | Rejects e =>
      emit (LogError ("failed to listAvailableCustomizations: " +:+ logMsg e) []);;
      ret []
  end.

Definition init (profile : RegionProfile) : M t :=
  match createQClient env profile with
  | Resolves _ => ret (mk profile (RegionProfile.region profile))
  | Rejects e => throw e
  end.
End Methods.
End CustomizationProvider.

(** Reads of the ambient state. *)

Definition getSelectedCustomization (w : World) : Customization :=
  match conn (auth w) with
  | Some connLabel =>
      if negb (isCustomizationFeatureEnabled (auth w))
         || negb (isValidEnterpriseSsoInUse (auth w))
      then baseCustomization
      else
        match selectedCustomization (globalState w) !! connLabel with
        | Some selected =>
            if bool_decide (Customization.name selected ≠ Some "")
            then selected else baseCustomization
        | None => baseCustomization
        end
  | None => baseCustomization
  end.

Definition getPersistedCustomizations (w : World) : list Customization :=
  match conn (auth w) with
  | Some connLabel =>
      if negb (isValidEnterpriseSsoInUse (auth w)) then []
      else default [] (persistedCustomizations (globalState w) !! connLabel)
  | None => []
  end.

Definition getNewCustomizationsAvailable (w : World) : nat :=
  default 0 (newCustomizations (globalState w)).

Definition getNewCustomizations (availableCustomizations : list Customization)
    (w : World) : list Customization :=
  let persistedCustomizations := getPersistedCustomizations w in
  filter (λ c, Customization.arn c ∉ (Customization.arn <$> persistedCustomizations))
         availableCustomizations.

Definition isSelectedCustomizationAvailable (available : list Customization)
    (selected : Customization) : bool :=
  bool_decide (Customization.arn selected = "")
  || bool_decide (Customization.arn selected ∈ (Customization.arn <$> available)).

(** Writes.  [selectedCustomizationObj[label] = customization] changes the
    object read from the store and the following [update] stores it; nothing
    reads the store in between, so the two are one write here.
    [Commands.tryExecute] runs the command when it is registered and does
    not throw; the trace records the call. *)
Definition setSelectedCustomization (customization : Customization)
    (isOverride : bool) : M unit :=
  a <- gets auth;;
  match conn a with
  | Some connLabel =>
      if negb (isValidEnterpriseSsoInUse a) then ret tt
      else
        previousOverride <- gets (λ w, overrideV2 (globalState w));;
        if isOverride && bool_decide (Some (Customization.arn customization) = previousOverride)
        then ret tt
        else
          selectedCustomizationObj <- gets (λ w, selectedCustomization (globalState w));;
          emit (LogDebug ("Selected customization " +:+ template (Customization.name customization)
                          +:+ " for " +:+ connLabel));;
          update_selectedCustomization (<[connLabel := customization]> selectedCustomizationObj);;
          when isOverride (update_overrideV2 (Customization.arn customization));;
          modify (with_isFreeTierLimitReached false);;
          emit (ExecuteCommand "aws.amazonq.refreshStatusBar")
  | None => ret tt
  end.

Definition setPersistedCustomizations (customizations : list Customization) : M unit :=
  a <- gets auth;;
  match conn a with
  | Some connLabel =>
      if negb (isValidEnterpriseSsoInUse a) then ret tt
      else
        persistedCustomizationsObj <- gets (λ w, persistedCustomizations (globalState w));;
        update_persistedCustomizations (<[connLabel := customizations]> persistedCustomizationsObj)
  | None => ret tt
  end.

Definition setNewCustomizationsAvailable (num : nat) : M unit :=
  update_newCustomizations num;;
  modify (with_isFreeTierLimitReached false).

(** [renderDescriptionText]: the label is ignored. *)
Definition renderDescriptionText (label : string) (isNewCustomization : bool) : string :=
  if isNewCustomization then "   New" else "".

(** The [reduce] of [createCustomizationItems]: how many available
    customizations carry each (truthy) name. *)
Definition customizationNameToCount (availableCustomizations : list Customization)
    : gmap string nat :=
  foldl (λ (map : gmap string nat) customization,
           match Customization.name customization with
           | Some n => if truthy n then <[n := default 0 (map !! n) + 1]> map else map
           | None => map
           end)
        ∅ availableCustomizations.

(** The flag computed in the [map] callback of [createCustomizationItems]. *)
Definition shouldPrefixAccountId (customizationNameToCount : gmap string nat)
    (c : Customization) : bool :=
  match Customization.name c with
  | Some n =>
      if truthy n
      then let cnt := default 0 (customizationNameToCount !! n) in bool_decide (1 < cnt)
      else false
  | None => false
  end.

Definition selectedCustomizationNotAvailable : string :=
  "Selected Amazon Q customization is not available. Contact your administrator. Your instance of Amazon Q is using the foundation model.".

Definition selectCustomizationLabel : string := "Select Another Customization".

(** The object [{ ...c, profile: profile }]. *)
Definition withProfile (profile : RegionProfile) (c : Customization) : Customization :=
  Customization.mk (Customization.arn c) (Customization.name c)
                   (Customization.description c) (Some profile).

Section Coordinator.
Context (env : Env).

(** [getAvailableCustomizationsList]: the loop over the profiles. *)
Fixpoint collectCustomizations (profiles : list RegionProfile) (items : list Customization)
    : M (list Customization) :=
  match profiles with
  | [] => ret items
  | profile :: rest =>
      provider <- CustomizationProvider.init env profile;;
      customizations <- CustomizationProvider.listAvailableCustomizations env provider;;
      collectCustomizations rest (items ++ (withProfile profile <$> customizations))
  end.

Definition getAvailableCustomizationsList : M (list Customization) :=
  match listRegionProfile env with
  | Rejects e =>
      emit (LogError "Failed to list customizations because listAvailableProfiles failed %s"
                     [ArgString (error_message e)]);;
      ret []
  | Resolves profiles => collectCustomizations profiles []
  end.

(** [regionProfileManager.switchRegionProfile(profile, 'customization')]:
    the manager makes the profile the active one; the change event it then
    raises carries the intent ['customization'], which
    [onProfileChangedListener] answers by returning at once. *)
Definition switchRegionProfile (target : RegionProfile) (intent : string) : M unit :=
  emit (SwitchRegionProfile target intent);;
  set_activeRegionProfile (Some target).

Definition selectCustomization (customization : Customization) : M unit :=
  selectedCustomization <- gets getSelectedCustomization;;
  if bool_decide (Customization.arn selectedCustomization = Customization.arn customization)
  then ret tt
  else
    setSelectedCustomization customization false;;
    let suffix :=
      if bool_decide (Customization.arn customization = Customization.arn baseCustomization)
      then template (Customization.name customization)
      else template (Customization.name customization) +:+ " customization." in
    emit (InformationMessage ("Amazon Q suggestions are now coming from the " +:+ suffix) []).

Definition createBaseCustomizationItem (w : World) : PickItem :=
  let label := codicon env "Amazon Q foundation (Default)" in
  let selectedArn := Customization.arn (getSelectedCustomization w) in
  mkItem label ClickBase (Some "Receive suggestions from Amazon Q base model")
         (renderDescriptionText label false) None
         (bool_decide (selectedArn = Customization.arn baseCustomization)).

(** [customization.profile.name]: a [TypeError] when the property is
    missing (the parameter's type says it is not). *)
Definition profile_name (customization : Customization) : Fallible string :=
  match Customization.profile customization with
  | Some p => Resolves (RegionProfile.name p)
  | None => Rejects (PlainError "Cannot read properties of undefined (reading 'name')")
  end.

Definition displayedName (customization : Customization) (accountId : string)
    (shouldPrefixAccountId : bool) : Fallible string :=
  match Customization.name customization with
  | Some n =>
      if truthy n then
        if shouldPrefixAccountId then
          if truthy accountId then Resolves (n +:+ " (" +:+ accountId +:+ ")")
          else
            match profile_name customization with
            | Resolves p => Resolves (n +:+ " (" +:+ p +:+ ")")
            | Rejects e => Rejects e
            end
        else
          match profile_name customization with
          | Resolves p => Resolves (n +:+ " (" +:+ p +:+ ")")
          | Rejects e => Rejects e
          end
      else Resolves "unknown"
  | None => Resolves "unknown"
  end.

Definition createCustomizationItem (customization : Customization)
    (persistedArns : list string) (shouldPrefixAccountId : bool) : M PickItem :=
  match parse env (Customization.arn customization) with
  | Rejects e => throw e
  | Resolves parsed =>
      match displayedName customization (accountId parsed) shouldPrefixAccountId with
      | Rejects e => throw e
      | Resolves displayedName =>
          let isNewCustomization :=
            negb (bool_decide (Customization.arn customization ∈ persistedArns)) in
          let label := codicon env displayedName in
          selectedArn <- gets (λ w, Customization.arn (getSelectedCustomization w));;
          ret (mkItem label (ClickCustomization customization)
                 (if bool_decide (Customization.description customization ≠ Some "")
                  then Customization.description customization
                  else Some "No description provided")
                 (renderDescriptionText label isNewCustomization)
                 (Some (Customization.arn customization))
                 (bool_decide (selectedArn = Customization.arn customization)))
      end
  end.

(** What the [onClick] of a picker item does. *)
Definition runOnClick (action : ClickAction) : M unit :=
  match action with
  | ClickBase => selectCustomization baseCustomization
  | ClickCustomization customization =>
      profile <- gets (λ w, activeRegionProfile (auth w));;
      match profile, Customization.profile customization with
      | Some active, Some target =>
          when (bool_decide (RegionProfile.arn target ≠ RegionProfile.arn active))
               (switchRegionProfile target "customization")
      | Some _, None => throw (PlainError "Cannot read properties of undefined (reading 'arn')")
      | None, _ => ret tt
      end;;
      selectCustomization customization
  end.

(** [showQuickPick(items, options)]: the picker is shown with the items; the
    user's next answer names the item chosen (by its place in [items], not
    in the order [compare] displays them), whose [onClick] then runs. *)
Definition showQuickPick (items : list PickItem) : M unit :=
  emit (QuickPick items);;
  replies <- gets pickReplies;;
  match replies with
  | [] => ret tt
  | r :: rest =>
      modify (with_pickReplies rest);;
      match r ≫= (λ i, items !! i) with
      | Some item => runOnClick (onClick item)
      | None => ret tt
      end
  end.

(** [createCustomizationItems] and [showCustomizationPrompt] call
    [switchToBaseCustomizationAndNotify], which calls
    [showCustomizationPrompt]: the two are written over the function they
    call back, and the knot is tied below. *)
Definition createCustomizationItems_over (switchToBaseCustomizationAndNotify : M unit)
    : M (list PickItem) :=
  availableCustomizations <- getAvailableCustomizationsList;;
  persistedCustomizations <- gets getPersistedCustomizations;;
  setPersistedCustomizations availableCustomizations;;
  selectedCustomization <- gets getSelectedCustomization;;
  when (negb (isSelectedCustomizationAvailable availableCustomizations selectedCustomization))
       switchToBaseCustomizationAndNotify;;
  if bool_decide (length availableCustomizations = 0) then
    base <- gets createBaseCustomizationItem;;
    emit (MessageWithUrl
            "You dont have access to any Amazon Q customization. Contact your admin for access."
            (customLearnMoreUri env) "Learn More");;
    ret [base]
  else
    let persistedArns := Customization.arn <$> persistedCustomizations in
    let customizationNameToCount := customizationNameToCount availableCustomizations in
    base <- gets createBaseCustomizationItem;;
    rest <- mapM (λ c, createCustomizationItem c persistedArns
                         (shouldPrefixAccountId customizationNameToCount c))
                 availableCustomizations;;
    ret (base :: rest).

(** The promise of [createCustomizationItems()] is handed to [showQuickPick];
    the picker has its items, or the rejection, when the promise settles. *)
Definition showCustomizationPrompt_over (switchToBaseCustomizationAndNotify : M unit)
    : M unit :=
  setNewCustomizationsAvailable 0;;
  items <- createCustomizationItems_over switchToBaseCustomizationAndNotify;;
  showQuickPick items.

Fixpoint switchToBaseCustomizationAndNotify (fuel : nat) : M unit :=
  match fuel with
  | 0 => exhausted
  | S fuel' =>
      setSelectedCustomization baseCustomization false;;
      selection <- showWarningMessage selectedCustomizationNotAvailable
                                      [selectCustomizationLabel];;
      if bool_decide (selection = Some selectCustomizationLabel)
      then showCustomizationPrompt_over (switchToBaseCustomizationAndNotify fuel')
      else ret tt
  end.

Definition createCustomizationItems (fuel : nat) : M (list PickItem) :=
  createCustomizationItems_over (switchToBaseCustomizationAndNotify fuel).

Definition showCustomizationPrompt (fuel : nat) : M unit :=
  showCustomizationPrompt_over (switchToBaseCustomizationAndNotify fuel).

(** The [try]/[catch] of [notifyNewCustomizations]: the fetched list, or
    [None] after the handler (which returns from the function). *)
Definition fetchOrDisable : M (option (list Customization)) :=
  try_catch
    (availableCustomizations <- getAvailableCustomizationsList;;
     set_isCustomizationFeatureEnabled true;;
     ret (Some availableCustomizations))
    (λ error,
       set_isCustomizationFeatureEnabled false;;
       setSelectedCustomization baseCustomization false;;
       emit (LogError "Failed to fetch customizations: %O" [ArgError error]);;
       ret None).

Definition select : string := "Select Customization".
Definition learnMore : string := "Learn More".

(** [notifyNewCustomizations], up to the point where its promise resolves:
    the information message is shown and not awaited. *)
Definition notifyNewCustomizations (fuel : nat) : M unit :=
  fetched <- fetchOrDisable;;
  match fetched with
  | None => ret tt
  | Some availableCustomizations =>
      selectedCustomization <- gets getSelectedCustomization;;
      when (negb (isSelectedCustomizationAvailable availableCustomizations
                                                   selectedCustomization))
           (switchToBaseCustomizationAndNotify fuel);;
      newCustomizations <- gets (getNewCustomizations availableCustomizations);;
      setPersistedCustomizations availableCustomizations;;
      if bool_decide (length newCustomizations = 0) then ret tt
      else
        setNewCustomizationsAvailable (length newCustomizations);;
        emit (InformationMessage (newCustomizationMessage env) [select; learnMore])
  end.

(** The [then] callback of that message, run when the user answers it. *)
Definition onNewCustomizationsResponse (fuel : nat) (resp : option string) : M unit :=
  if bool_decide (resp = Some select) then
    try_catch (showCustomizationPrompt fuel)
              (λ e, emit (LogError "showCustomizationPrompt failed: %s"
                                   [ArgString (error_message e)]))
  else if bool_decide (resp = Some learnMore) then emit (OpenUrl (customLearnMoreUri env))
  else ret tt.

(** [ProfileChangedEvent] of [region/regionProfileManager]. *)
Record ProfileChangedEvent : Type := mkEvent {
  event_profile : option RegionProfile;
  intent : string
}.

Definition onProfileChangedListener (fuel : nat) (event : ProfileChangedEvent) : M unit :=
  if bool_decide (intent event = "customization") then ret tt
  else
    match event_profile event with
    | None => setSelectedCustomization baseCustomization false
    | Some profile =>
        selectedCustomization <- gets getSelectedCustomization;;
        if bool_decide (0 < String.length (Customization.arn selectedCustomization)) then
          customizationProvider <- CustomizationProvider.init env profile;;
          customizations <-
            CustomizationProvider.listAvailableCustomizations env customizationProvider;;
          match List.find (λ it, bool_decide (Customization.arn it
                                              = Customization.arn selectedCustomization))
                          customizations with
          | Some _ => ret tt
          | None =>
              emit (LogDebug ("profile " +:+ RegionProfile.name profile
                              +:+ " doesnt have access to customization "
                              +:+ template (Customization.name selectedCustomization)
                              +:+ " but has access to "
                              +:+ join_names (Customization.name <$> customizations)));;
              switchToBaseCustomizationAndNotify fuel
          end
        else ret tt
    end.

End Coordinator.

(** The [compare] option [showCustomizationPrompt] gives the picker.  It
    reads two properties of a [DataQuickPickItem]: [invalidSelection] (a
    missing one is falsy, as for every item this module builds) and [label].
    A string of the language is a sequence of UTF-16 code units, and [<] on
    two strings compares them code unit by code unit, a proper prefix being
    the smaller: the label is held here as its code units. *)
Module QuickPickOptions.
Record Shown : Type := mkShown { shown_label : list N; invalidSelection : bool }.

(** [a < b] on strings. *)
Fixpoint less (a b : list N) : bool :=
  match a, b with
  | _, [] => false
  | [], _ :: _ => true
  | x :: a', y :: b' =>
      if (x <? y)%N then true
      else if (y <? x)%N then false
      else less a' b'
  end.

Definition compare (a b : Shown) : Z :=
  if invalidSelection a then (-1)%Z
  else if invalidSelection b then 1%Z
  else if less (shown_label a) (shown_label b) then (-1)%Z else 1%Z.

(** A picker item of this module, as [compare] sees it; [utf16] gives the
    code units of the text of a label. *)
Definition shown (utf16 : string → list N) (item : PickItem) : Shown :=
  mkShown (utf16 (label item)) false.
End QuickPickOptions.

(** ** A concrete environment for the examples

    [parse] of [@aws-sdk/util-arn-parser]: the ARN is cut at its colons; fewer
    than six segments, or a first segment other than [arn], is a malformed
    ARN; the segments after the fifth are the resource. *)
Definition colon : Ascii.ascii := Ascii.ascii_of_nat 58.

Fixpoint split_colons (s : string) : list string :=
  match s with
  | EmptyString => [""]
  | String c rest =>
      if Ascii.eqb c colon then "" :: split_colons rest
      else
        match split_colons rest with
        | seg :: segs => String c seg :: segs
        | [] => [String c ""]
        end
  end.

Fixpoint join_colons (l : list string) : string :=
  match l with
  | [] => ""
  | [x] => x
  | x :: rest => x +:+ ":" +:+ join_colons rest
  end.

Definition arn_parser_parse (arn : string) : Fallible ARN :=
  match split_colons arn with
  | first :: partition :: service :: region :: accountId :: r :: resource =>
      if bool_decide (first = "arn")
      then Resolves (mkARN partition service region accountId (join_colons (r :: resource)))
      else Rejects (PlainError "Malformed ARN")
  | _ => Rejects (PlainError "Malformed ARN")
  end.

Module Examples.

Definition profileA : RegionProfile := RegionProfile.mk "ProfileA" "us-east-1" "arn:aws:codewhisperer:us-east-1:111111111111:profile/A".
Definition profileB : RegionProfile := RegionProfile.mk "ProfileB" "eu-central-1" "arn:aws:codewhisperer:eu-central-1:222222222222:profile/B".
Definition profileC : RegionProfile := RegionProfile.mk "ProfileC" "us-west-2" "arn:aws:codewhisperer:us-west-2:333333333333:profile/C".

Definition custom (arn name : string) : Customization :=
  Customization.mk arn (Some name) (Some "") None.

Definition fooA : Customization := custom "arn:aws:codewhisperer:us-east-1:111111111111:customization/FOO" "Foo".
Definition fooB : Customization := custom "arn:aws:codewhisperer:eu-central-1:222222222222:customization/FOO" "Foo".
Definition barC : Customization := custom "arn:aws:codewhisperer:us-west-2:333333333333:customization/BAR" "Bar".

(** Three profiles; the listing of [profileB] fails. *)
Definition env3 : Env :=
  mkEnv (Resolves [profileA; profileB; profileC])
        (λ _, Resolves tt)
        (λ p _, if bool_decide (p = profileA) then Resolves [fooA]
                else if bool_decide (p = profileB) then Rejects (AwsError "req-1" "throttled")
                else Resolves [barC])
        arn_parser_parse
        (λ text, "$(circuit-board) " +:+ text)
        "New Amazon Q customizations are available."
        "https://docs.aws.amazon.com/amazonq/latest/qdeveloper-ug/customizations.html".

(** The same with every listing answering, and with a client that cannot
    be created for [profileB]. *)
Definition env_ok : Env :=
  mkEnv (Resolves [profileA; profileB; profileC])
        (λ _, Resolves tt)
        (λ p _, if bool_decide (p = profileA) then Resolves [fooA]
                else if bool_decide (p = profileB) then Resolves [fooB]
                else Resolves [barC])
        arn_parser_parse (codicon env3) (newCustomizationMessage env3) (customLearnMoreUri env3).

Definition env_noclient : Env :=
  mkEnv (Resolves [profileA; profileB; profileC])
        (λ p, if bool_decide (p = profileB) then Rejects (PlainError "no client") else Resolves tt)
        (client_listAvailableCustomizations env_ok)
        arn_parser_parse (codicon env3) (newCustomizationMessage env3) (customLearnMoreUri env3).

Definition connLabel : string := "IAM Identity Center (d-0123456789)".

(** A signed-in world in which [selected] is the stored selection and
    [persisted] the stored snapshot. *)
Definition world (selected : Customization) (persisted : list Customization) : World :=
  mkWorld (mkAuth true true (Some connLabel) (Some profileA))
          (mkGlobals {[ connLabel := selected ]} {[ connLabel := persisted ]} None None)
          true [] [] [].

(** The same with no connection. *)
Definition world_signed_out (selected : Customization) : World :=
  mkWorld (mkAuth true false None None)
          (mkGlobals {[ connLabel := selected ]} ∅ None None)
          true [] [] [].

(** The same with a connection whose enterprise SSO is not valid. *)
Definition world_invalid_sso (selected : Customization) : World :=
  mkWorld (mkAuth true false (Some connLabel) None)
          (mkGlobals {[ connLabel := selected ]} ∅ None None)
          true [] [] [].

(** One profile, whose listing has a customization with an arn that is no
    ARN after a well-formed one. *)
Definition malformed : Customization := custom "customization/BAZ" "Baz".

Definition env_malformed : Env :=
  mkEnv (Resolves [profileA])
        (λ _, Resolves tt)
        (λ _ _, Resolves [fooA; malformed])
        arn_parser_parse (codicon env3) (newCustomizationMessage env3) (customLearnMoreUri env3).

(** No profile has a customization. *)
Definition env_empty : Env :=
  mkEnv (Resolves [profileA])
        (λ _, Resolves tt)
        (λ _ _, Resolves [])
        arn_parser_parse (codicon env3) (newCustomizationMessage env3) (customLearnMoreUri env3).

(** The listing of [profileA] fails and no client can be created for
    [profileB]. *)
Definition env_two_failures : Env :=
  mkEnv (Resolves [profileA; profileB; profileC])
        (λ p, if bool_decide (p = profileB) then Rejects (PlainError "no client") else Resolves tt)
        (λ p _, if bool_decide (p = profileA) then Rejects (AwsError "req-1" "throttled")
                else Resolves [barC])
        arn_parser_parse (codicon env3) (newCustomizationMessage env3) (customLearnMoreUri env3).

(** A customization with no name: the member is optional in the type of
    the client. *)
Definition nameless : Customization :=
  Customization.mk "arn:aws:codewhisperer:us-east-1:111111111111:customization/NONAME"
                   None None None.

(** What the three profiles of [env_ok] make available. *)
Definition available_ok : list Customization :=
  [withProfile profileA fooA; withProfile profileB fooB; withProfile profileC barC].

End Examples.

(** ** Notions the statements use *)

(** What the listing of one profile contributes to the aggregate list, and
    what it logs: the customizations the service answered, or nothing and
    one error line when the call failed. *)
Definition listed (env : Env) (profile : RegionProfile) : list Customization :=
  match client_listAvailableCustomizations env profile (RegionProfile.arn profile) with
  | Resolves customizations => customizations
  | Rejects _ => []
  end.

Definition listing_failure (env : Env) (profile : RegionProfile) : list Event :=
  match client_listAvailableCustomizations env profile (RegionProfile.arn profile) with
  | Resolves _ => []
  | Rejects e =>
      [LogError ("failed to listAvailableCustomizations: " +:+ CustomizationProvider.logMsg e) []]
  end.

Definition is_log (e : Event) : bool :=
  match e with
  | LogError _ _ | LogDebug _ => true
  | _ => false
  end.

(** How many customizations of a list carry the name [n]. *)
Definition name_count (n : string) (l : list Customization) : nat :=
  length (filter (λ c, Customization.name c = Some n) l).

(** The customization at place [i] shares its name with another one of the
    list. *)
Definition shares_name (l : list Customization) (i : nat) : Prop :=
  ∃ j c c', i ≠ j ∧ l !! i = Some c ∧ l !! j = Some c'
            ∧ Customization.name c' = Customization.name c.

(** Relations between the state before and after a run. *)
Definition same_warnings (w w' : World) : Prop :=
  warnings (trace w') = warnings (trace w).

Definition same_selection (w w' : World) : Prop :=
  auth w' = auth w
  ∧ selectedCustomization (globalState w') = selectedCustomization (globalState w).

(** Neither the warnings shown nor what [getSelectedCustomization] reads
    has changed. *)
Definition calm (w w' : World) : Prop := same_warnings w w' ∧ same_selection w w'.

(** Only log lines were added to the state. *)
Definition logs_only (w w' : World) : Prop :=
  ∃ lines, w' = with_trace (trace w ++ lines) w ∧ Forall (λ e, is_log e = true) lines.

(** The relation that holds of any two states. *)
Definition anything (w w' : World) : Prop := True.

(** The state after a run is related to the state before it, however the
    run ends. *)
Definition keeps {A} (R : relation World) (m : M A) : Prop :=
  ∀ w, R w (snd (m w)).

(** What the operations of the module leave alone: the connection and its
    validity, the override marker, and a limit-reached flag that is
    cleared. *)
Definition bystanders (w w' : World) : Prop :=
  conn (auth w') = conn (auth w)
  ∧ isValidEnterpriseSsoInUse (auth w') = isValidEnterpriseSsoInUse (auth w)
  ∧ overrideV2 (globalState w') = overrideV2 (globalState w)
  ∧ (isFreeTierLimitReached w = false → isFreeTierLimitReached w' = false).

(** The records of the connections other than the one in use are as they
    were. *)
Definition other_connections (w w' : World) : Prop :=
  conn (auth w') = conn (auth w)
  ∧ ∀ connLabel,
      conn (auth w) ≠ Some connLabel →
      selectedCustomization (globalState w') !! connLabel
      = selectedCustomization (globalState w) !! connLabel
      ∧ persistedCustomizations (globalState w') !! connLabel
        = persistedCustomizations (globalState w) !! connLabel.

(** The count of new customizations, once zero with the limit-reached flag
    cleared, stays so. *)
Definition count_cleared (w w' : World) : Prop :=
  newCustomizations (globalState w) = Some 0 ∧ isFreeTierLimitReached w = false →
  newCustomizations (globalState w') = Some 0 ∧ isFreeTierLimitReached w' = false.

(** A run neither hits the recursion bound nor leaves the relation. *)
Definition runs {A} (R : relation World) (m : M A) : Prop :=
  ∀ w, fst (m w) ≠ Exhausted ∧ R w (snd (m w)).

(** * Properties *)

(** ** Reading the selection and the snapshot *)

Lemma getSelectedCustomization_gated (w : World) :
  isCustomizationFeatureEnabled (auth w) = false
  ∨ isValidEnterpriseSsoInUse (auth w) = false
  ∨ conn (auth w) = None →
  getSelectedCustomization w = baseCustomization.
Proof.
  unfold getSelectedCustomization.
  intros [H | [H | H]]; rewrite H; destruct (conn (auth w)); try done.
  by rewrite orb_true_r.
Qed.

(** A selection other than the base one is read only through the three
    gates, from the record of the connection. *)
Lemma getSelectedCustomization_not_base (w : World) :
  getSelectedCustomization w ≠ baseCustomization →
  ∃ connLabel,
    conn (auth w) = Some connLabel
    ∧ isCustomizationFeatureEnabled (auth w) = true
    ∧ isValidEnterpriseSsoInUse (auth w) = true
    ∧ selectedCustomization (globalState w) !! connLabel = Some (getSelectedCustomization w)
    ∧ Customization.name (getSelectedCustomization w) ≠ Some "".
Proof.
  unfold getSelectedCustomization.
  destruct (conn (auth w)) as [l|]; [|done].
  destruct (isCustomizationFeatureEnabled (auth w)); [|done].
  destruct (isValidEnterpriseSsoInUse (auth w)); [|done]. simpl.
  destruct (selectedCustomization (globalState w) !! l) as [c|] eqn:Hl; [|done].
  case_bool_decide as Hn; [|done].
  intros _. by exists l.
Qed.

(** C9, as amended.  [getSelectedCustomization] returns the base
    customization when the feature is disabled, when no valid enterprise SSO
    connection is in use, when the stored map has no entry for the label of
    the connection, and when the name of the stored entry is the empty
    string; whatever the state, what it returns is the base customization or
    the stored entry of the connection, whose name is then not the empty
    string: it is a string with characters, or it is missing. *)
Theorem getSelectedCustomization_base_or_stored (w : World) :
  (isCustomizationFeatureEnabled (auth w) = false
   ∨ isValidEnterpriseSsoInUse (auth w) = false
   ∨ conn (auth w) = None →
   getSelectedCustomization w = baseCustomization)
  ∧ (∀ connLabel,
       conn (auth w) = Some connLabel →
       selectedCustomization (globalState w) !! connLabel = None →
       getSelectedCustomization w = baseCustomization)
  ∧ (∀ connLabel stored,
       conn (auth w) = Some connLabel →
       selectedCustomization (globalState w) !! connLabel = Some stored →
       Customization.name stored = Some "" →
       getSelectedCustomization w = baseCustomization)
  ∧ (getSelectedCustomization w = baseCustomization
     ∨ ∃ connLabel stored,
         conn (auth w) = Some connLabel
         ∧ selectedCustomization (globalState w) !! connLabel = Some stored
         ∧ Customization.name stored ≠ Some ""
         ∧ getSelectedCustomization w = stored).
Proof.
  split; [apply getSelectedCustomization_gated|].
  split; [|split].
  - intros l Hc Hl. unfold getSelectedCustomization. rewrite Hc, Hl.
    by destruct (_ || _).
  - intros l c Hc Hl Hn. unfold getSelectedCustomization. rewrite Hc, Hl, Hn.
    by destruct (_ || _).
  - destruct (decide (getSelectedCustomization w = baseCustomization)) as [|Hne];
      [by left|right].
    destruct (getSelectedCustomization_not_base w Hne) as (l & Hc & _ & _ & Hl & Hn).
    by exists l, (getSelectedCustomization w).
Qed.

(** The four cases of C9 on signed-in worlds of the examples. *)
Lemma getSelectedCustomization_base_or_stored_witness :
  getSelectedCustomization (Examples.world Examples.fooA []) = Examples.fooA
  ∧ getSelectedCustomization
      (Examples.world (Customization.mk "arn:x" (Some "") None None) []) = baseCustomization
  ∧ getSelectedCustomization (Examples.world_signed_out Examples.fooA) = baseCustomization
  ∧ (getSelectedCustomization (Examples.world Examples.fooA []) = baseCustomization
     ∨ ∃ connLabel stored,
         conn (auth (Examples.world Examples.fooA [])) = Some connLabel
         ∧ selectedCustomization (globalState (Examples.world Examples.fooA []))
             !! connLabel = Some stored
         ∧ Customization.name stored ≠ Some ""
         ∧ getSelectedCustomization (Examples.world Examples.fooA []) = stored).
Proof.
  split; [by vm_compute|]. split; [by vm_compute|]. split; [by vm_compute|].
  exact (proj2 (proj2 (proj2
           (getSelectedCustomization_base_or_stored (Examples.world Examples.fooA []))))).
Defined.

(** C9 as it is stated does not hold: a stored entry with no name is
    returned as it is, so what [getSelectedCustomization] returns is then
    neither the base customization nor a customization with a non-empty
    name. *)
Lemma getSelectedCustomization_missing_name :
  let w := Examples.world Examples.nameless [] in
  selectedCustomization (globalState w) !! Examples.connLabel = Some Examples.nameless
  ∧ getSelectedCustomization w = Examples.nameless
  ∧ getSelectedCustomization w ≠ baseCustomization
  ∧ Customization.name (getSelectedCustomization w) = None
  ∧ ¬ ∃ n, Customization.name (getSelectedCustomization w) = Some n ∧ n ≠ "".
Proof.
  split; [reflexivity|]. split; [reflexivity|]. split; [by vm_compute|].
  split; [reflexivity|]. by intros (n & Hn & _).
Qed.

(** ** New customizations *)

Lemma getNewCustomizations_nil_iff (available : list Customization) (w : World) :
  getNewCustomizations available w = []
  ↔ ∀ c, c ∈ available →
         Customization.arn c ∈ (Customization.arn <$> getPersistedCustomizations w).
Proof.
  unfold getNewCustomizations. split.
  - intros Hnil c Hc.
    destruct (decide (Customization.arn c
                      ∈ (Customization.arn <$> getPersistedCustomizations w))) as [|Hn];
      [done|].
    assert (c ∈ filter (λ c, Customization.arn c
                             ∉ (Customization.arn <$> getPersistedCustomizations w))
                       available) as Hin
      by (apply list_elem_of_filter; done).
    rewrite Hnil in Hin. by apply elem_of_nil in Hin.
  - intros Hall. induction available as [|c l IH]; [done|].
    rewrite filter_cons. destruct (decide _) as [Hn|_].
    + exfalso. apply Hn, Hall. left.
    + apply IH. intros c' Hc'. apply Hall. by right.
Qed.

(** C1. [getNewCustomizations] returns exactly the available customizations
    whose arn is not an arn of the persisted snapshot (each as often as it is
    available), in the order of the available list; it is empty when the
    available and the persisted arns are the same set. *)
Theorem getNewCustomizations_diff (available : list Customization) (w : World) :
  let persistedArns := Customization.arn <$> getPersistedCustomizations w in
  (∀ c, c ∈ getNewCustomizations available w
        ↔ c ∈ available ∧ Customization.arn c ∉ persistedArns)
  ∧ getNewCustomizations available w `sublist_of` available
  ∧ getNewCustomizations available w
      ++ filter (λ c, Customization.arn c ∈ persistedArns) available ≡ₚ available
  ∧ ((∀ a, a ∈ (Customization.arn <$> available) ↔ a ∈ persistedArns) →
     getNewCustomizations available w = []).
Proof.
  intros persistedArns. split; [|split; [|split]].
  - intros c. unfold getNewCustomizations. rewrite list_elem_of_filter. tauto.
  - apply sublist_filter.
  - unfold getNewCustomizations. fold persistedArns.
    rewrite <- (filter_app_complement (λ c, Customization.arn c ∉ persistedArns) available)
      at 3.
    f_equiv. apply Permutation_refl'.
    apply list_filter_iff. intros c. split.
    + intros Hc Hn. done.
    + intros Hnn. destruct (decide (Customization.arn c ∈ persistedArns)); [done|].
      by exfalso.
  - intros Heq. apply getNewCustomizations_nil_iff. intros c Hc.
    apply Heq. by apply list_elem_of_fmap_2.
Qed.

(** The scenario of the specification: available A and B, persisted A. *)
Lemma getNewCustomizations_diff_witness :
  getNewCustomizations [Examples.fooA; Examples.barC] (Examples.world Examples.fooA [Examples.fooA])
  = [Examples.barC]
  ∧ getNewCustomizations [Examples.fooA; Examples.barC]
                         (Examples.world Examples.fooA [Examples.fooA])
      `sublist_of` [Examples.fooA; Examples.barC]
  ∧ getNewCustomizations [Examples.barC; Examples.fooA]
                         (Examples.world Examples.fooA [Examples.fooA; Examples.barC]) = [].
Proof.
  split; [by vm_compute|]. split.
  - exact (proj1 (proj2 (getNewCustomizations_diff [Examples.fooA; Examples.barC]
                           (Examples.world Examples.fooA [Examples.fooA])))).
  - apply (proj2 (proj2 (proj2 (getNewCustomizations_diff [Examples.barC; Examples.fooA]
                           (Examples.world Examples.fooA [Examples.fooA; Examples.barC]))))).
    assert (getPersistedCustomizations
              (Examples.world Examples.fooA [Examples.fooA; Examples.barC])
            = [Examples.fooA; Examples.barC]) as -> by reflexivity.
    intros a. simpl. rewrite !elem_of_cons. tauto.
Defined.

(** C4. [isSelectedCustomizationAvailable] is true whenever the selected arn
    is the empty string, whatever the available list; for a non-empty arn it
    is true exactly when the arn is among the arns of the available list. *)
Theorem isSelectedCustomizationAvailable_spec (available : list Customization)
    (selected : Customization) :
  (Customization.arn selected = "" →
   isSelectedCustomizationAvailable available selected = true)
  ∧ (Customization.arn selected ≠ "" →
     (isSelectedCustomizationAvailable available selected = true
      ↔ Customization.arn selected ∈ (Customization.arn <$> available))).
Proof.
  unfold isSelectedCustomizationAvailable. split.
  - intros ->. done.
  - intros Hne. rewrite bool_decide_eq_false_2 by done. simpl.
    apply bool_decide_eq_true.
Qed.

Lemma isSelectedCustomizationAvailable_spec_witness :
  isSelectedCustomizationAvailable [] baseCustomization = true
  ∧ isSelectedCustomizationAvailable [Examples.barC] baseCustomization = true
  ∧ (isSelectedCustomizationAvailable [Examples.barC; Examples.fooA] Examples.fooA = true
     ↔ Customization.arn Examples.fooA
         ∈ (Customization.arn <$> [Examples.barC; Examples.fooA]))
  ∧ isSelectedCustomizationAvailable [Examples.barC] Examples.fooA = false.
Proof.
  split; [|split; [|split]].
  - exact (proj1 (isSelectedCustomizationAvailable_spec [] baseCustomization) eq_refl).
  - exact (proj1 (isSelectedCustomizationAvailable_spec [Examples.barC] baseCustomization)
                 eq_refl).
  - apply (proj2 (isSelectedCustomizationAvailable_spec [Examples.barC; Examples.fooA]
                    Examples.fooA)).
    by vm_compute.
  - by vm_compute.
Defined.

(** ** Writes that are skipped *)

(** C3. [setSelectedCustomization] called with [isOverride] and a
    customization whose arn is the last applied override returns with the
    whole state as it was: neither the selection record nor the override
    marker is written, the limit-reached flag is not cleared, and no command
    (so no refresh of the status bar) is executed. *)
Theorem setSelectedCustomization_same_override (customization : Customization)
    (w : World) :
  overrideV2 (globalState w) = Some (Customization.arn customization) →
  setSelectedCustomization customization true w = (Returned tt, w).
Proof.
  intros Hprev. unfold setSelectedCustomization, bind, gets, ret.
  destruct (conn (auth w)) as [connLabel|]; [|done].
  destruct (isValidEnterpriseSsoInUse (auth w)); [|done]. simpl.
  rewrite Hprev. by rewrite bool_decide_eq_true_2.
Qed.

Lemma setSelectedCustomization_same_override_witness :
  let w := mkWorld (mkAuth true true (Some Examples.connLabel) None)
                   (mkGlobals {[ Examples.connLabel := Examples.barC ]} ∅
                              (Some (Customization.arn Examples.fooA)) None)
                   true [] [] [] in
  setSelectedCustomization Examples.fooA true w = (Returned tt, w)
  ∧ isFreeTierLimitReached (snd (setSelectedCustomization Examples.fooA true w)) = true
  ∧ isFreeTierLimitReached (snd (setSelectedCustomization Examples.fooA false w)) = false.
Proof.
  split; [|split].
  - apply setSelectedCustomization_same_override. reflexivity.
  - by vm_compute.
  - by vm_compute.
Defined.

(** C10. With no valid enterprise SSO connection in use,
    [setSelectedCustomization] returns at once whatever its arguments, with
    the whole state as it was (selection record, override marker,
    limit-reached flag, commands executed); [setPersistedCustomizations]
    leaves the state, so the persisted snapshot, as it was; and
    [getPersistedCustomizations] is the empty list. *)
Theorem no_valid_connection_no_write (customization : Customization)
    (isOverride : bool) (customizations : list Customization) (w : World) :
  isValidEnterpriseSsoInUse (auth w) = false ∨ conn (auth w) = None →
  setSelectedCustomization customization isOverride w = (Returned tt, w)
  ∧ setPersistedCustomizations customizations w = (Returned tt, w)
  ∧ getPersistedCustomizations w = [].
Proof.
  unfold setSelectedCustomization, setPersistedCustomizations,
    getPersistedCustomizations, bind, gets, ret.
  intros [H | H]; rewrite H; destruct (conn (auth w)); done.
Qed.

Lemma no_valid_connection_no_write_witness :
  let w := Examples.world_signed_out Examples.barC in
  setSelectedCustomization Examples.fooA true w = (Returned tt, w)
  ∧ setPersistedCustomizations [Examples.fooA] w = (Returned tt, w)
  ∧ getPersistedCustomizations w = [].
Proof.
  apply no_valid_connection_no_write. left. reflexivity.
Defined.

(** ** Listing across profiles *)

Lemma with_trace_same (w : World) : with_trace (trace w) w = w.
Proof. by destruct w. Qed.

Lemma with_trace_twice (t1 t2 : list Event) (w : World) :
  with_trace t2 (with_trace t1 w) = with_trace t2 w.
Proof. done. Qed.

Lemma emit_run (e : Event) (w : World) :
  emit e w = (Returned tt, with_trace (trace w ++ [e]) w).
Proof. done. Qed.

Section Listing.
Context (env : Env).

Lemma listAvailableCustomizations_run (provider : CustomizationProvider.t) (w : World) :
  CustomizationProvider.listAvailableCustomizations env provider w
  = (Returned (listed env (CustomizationProvider.profile provider)),
     with_trace (trace w ++ listing_failure env (CustomizationProvider.profile provider)) w).
Proof.
  unfold CustomizationProvider.listAvailableCustomizations, listed, listing_failure.
  destruct (client_listAvailableCustomizations env _ _) as [cs|e].
  - unfold ret. by rewrite app_nil_r, with_trace_same.
  - done.
Qed.

Lemma init_run (profile : RegionProfile) (w : World) :
  CustomizationProvider.init env profile w
  = (match createQClient env profile with
     | Resolves _ =>
         Returned (CustomizationProvider.mk profile (RegionProfile.region profile))
     | Rejects e => Thrown e
     end, w).
Proof.
  unfold CustomizationProvider.init. by destruct (createQClient env profile).
Qed.

Lemma collectCustomizations_run (profiles : list RegionProfile)
    (items : list Customization) (w : World) :
  (∀ p, p ∈ profiles → createQClient env p = Resolves tt) →
  collectCustomizations env profiles items w
  = (Returned (items ++ (profiles ≫= λ p, withProfile p <$> listed env p)),
     with_trace (trace w ++ (profiles ≫= listing_failure env)) w).
Proof.
  revert items w. induction profiles as [|p ps IH]; intros items w Hclients.
  - simpl. unfold ret. by rewrite !app_nil_r, with_trace_same.
  - simpl. unfold bind at 1. rewrite init_run, (Hclients p) by left.
    unfold bind at 1. rewrite listAvailableCustomizations_run. simpl.
    rewrite IH by (intros q Hq; apply Hclients; by right).
    rewrite with_trace_twice. cbn [trace with_trace]. by rewrite <- !app_assoc.
Qed.

(** Whatever the collaborators answer, the listing across profiles changes
    the state by log lines only. *)
Lemma collectCustomizations_logs_only (profiles : list RegionProfile)
    (items : list Customization) (w : World) :
  logs_only w (snd (collectCustomizations env profiles items w)).
Proof.
  revert items w. induction profiles as [|p ps IH]; intros items w.
  - exists []. simpl. by rewrite app_nil_r, with_trace_same.
  - simpl. unfold bind at 1. rewrite init_run.
    destruct (createQClient env p) as [[]|e].
    + unfold bind at 1. rewrite listAvailableCustomizations_run.
      cbn [CustomizationProvider.profile].
      destruct (IH (items ++ (withProfile p <$> listed env p))
                   (with_trace (trace w ++ listing_failure env p) w))
        as (lines & Heq & Hlines).
      exists (listing_failure env p ++ lines). split.
      * rewrite Heq. rewrite with_trace_twice. cbn [trace with_trace].
        by rewrite <- app_assoc.
      * apply Forall_app. split; [|done].
        unfold listing_failure. simpl.
        destruct (client_listAvailableCustomizations env _ _); repeat constructor.
    + exists []. simpl. by rewrite app_nil_r, with_trace_same.
Qed.

Lemma getAvailableCustomizationsList_logs_only (w : World) :
  logs_only w (snd (getAvailableCustomizationsList env w)).
Proof.
  unfold getAvailableCustomizationsList.
  destruct (listRegionProfile env) as [profiles|e].
  - apply collectCustomizations_logs_only.
  - eexists [_]. split; [done|]. by repeat constructor.
Qed.

End Listing.

(** C5, as amended.  When the profiles are listed and a client is made for
    each of them, [getAvailableCustomizationsList] returns (it does not
    throw) the customizations of the profiles whose listing answered, in the
    order of the profiles: each is the customization the service listed,
    its arn, name and description as listed, and its [profile] the profile
    it was listed for; a profile whose listing failed adds nothing but one
    error line to the log.  And [listAvailableCustomizations] of one profile
    whose service call fails logs the error and returns the empty list. *)
Theorem getAvailableCustomizationsList_partial_failure (env : Env)
    (profiles : list RegionProfile) (w : World) :
  listRegionProfile env = Resolves profiles →
  (∀ p, p ∈ profiles → createQClient env p = Resolves tt) →
  getAvailableCustomizationsList env w
  = (Returned
       (profiles ≫= λ p,
          (λ c, Customization.mk (Customization.arn c) (Customization.name c)
                                 (Customization.description c) (Some p))
            <$> listed env p),
     with_trace (trace w ++ (profiles ≫= listing_failure env)) w)
  ∧ (∀ p e,
       client_listAvailableCustomizations env p (RegionProfile.arn p) = Rejects e →
       listed env p = []
       ∧ ∀ provider w0,
           CustomizationProvider.profile provider = p →
           CustomizationProvider.listAvailableCustomizations env provider w0
           = (Returned [],
              with_trace
                (trace w0 ++ [LogError ("failed to listAvailableCustomizations: "
                                        +:+ CustomizationProvider.logMsg e) []]) w0)).
Proof.
  intros Hprofiles Hclients. split.
  - unfold getAvailableCustomizationsList. rewrite Hprofiles.
    by rewrite collectCustomizations_run.
  - intros p e He. split.
    + unfold listed. by rewrite He.
    + intros provider w0 <-. rewrite listAvailableCustomizations_run.
      unfold listed, listing_failure. by rewrite He.
Qed.

(** The scenario of the specification: three profiles, the listing of the
    second fails. *)
Lemma getAvailableCustomizationsList_partial_failure_witness :
  let w := Examples.world Examples.fooA [] in
  getAvailableCustomizationsList Examples.env3 w
  = (Returned
       [Customization.mk "arn:aws:codewhisperer:us-east-1:111111111111:customization/FOO"
                         (Some "Foo") (Some "") (Some Examples.profileA);
        Customization.mk "arn:aws:codewhisperer:us-west-2:333333333333:customization/BAR"
                         (Some "Bar") (Some "") (Some Examples.profileC)],
     with_trace
       [LogError "failed to listAvailableCustomizations: requestId=req-1; message=throttled" []]
       w).
Proof.
  exact (proj1 (getAvailableCustomizationsList_partial_failure Examples.env3
                  [Examples.profileA; Examples.profileB; Examples.profileC]
                  (Examples.world Examples.fooA []) eq_refl (λ _ _, eq_refl))).
Defined.

(** C5 as it is stated does not hold: the listing of the first of three
    profiles fails and is absorbed, and the client of the second cannot be
    created; that error is not caught, and it escapes
    [getAvailableCustomizationsList]. *)
Lemma getAvailableCustomizationsList_client_error_escapes :
  let w := Examples.world Examples.fooA [] in
  client_listAvailableCustomizations Examples.env_two_failures Examples.profileA
    (RegionProfile.arn Examples.profileA)
  = Rejects (AwsError "req-1" "throttled")
  ∧ getAvailableCustomizationsList Examples.env_two_failures w
    = (Thrown (PlainError "no client"),
       with_trace
         [LogError "failed to listAvailableCustomizations: requestId=req-1; message=throttled" []]
         w).
Proof.
  split; reflexivity.
Qed.

(** ** Writing the selection *)

(** What a call that is not an override writes when a valid connection is
    in use. *)
Lemma setSelectedCustomization_run (customization : Customization) (w : World)
    (connLabel : string) :
  conn (auth w) = Some connLabel →
  isValidEnterpriseSsoInUse (auth w) = true →
  setSelectedCustomization customization false w
  = (Returned tt,
     mkWorld (auth w)
             (mkGlobals (<[connLabel := customization]> (selectedCustomization (globalState w)))
                        (persistedCustomizations (globalState w))
                        (overrideV2 (globalState w))
                        (newCustomizations (globalState w)))
             false
             (trace w ++ [LogDebug ("Selected customization "
                                    +:+ template (Customization.name customization)
                                    +:+ " for " +:+ connLabel);
                          ExecuteCommand "aws.amazonq.refreshStatusBar"])
             (warningReplies w) (pickReplies w)).
Proof.
  intros Hconn Hvalid. unfold setSelectedCustomization, bind, gets.
  rewrite Hconn, Hvalid. simpl. rewrite emit_run. simpl.
  by rewrite <- app_assoc.
Qed.

Lemma setSelectedCustomization_skip (customization : Customization) (isOverride : bool)
    (w : World) :
  isValidEnterpriseSsoInUse (auth w) = false ∨ conn (auth w) = None →
  setSelectedCustomization customization isOverride w = (Returned tt, w).
Proof.
  unfold setSelectedCustomization, bind, gets, ret.
  intros [H | H]; rewrite H; destruct (conn (auth w)); done.
Qed.

(** The connection of a state is valid, with its label, or it is not. *)
Lemma connection_cases (w : World) :
  (∃ connLabel, conn (auth w) = Some connLabel ∧ isValidEnterpriseSsoInUse (auth w) = true)
  ∨ (isValidEnterpriseSsoInUse (auth w) = false ∨ conn (auth w) = None).
Proof.
  destruct (conn (auth w)) as [l|]; [|by right; right].
  destruct (isValidEnterpriseSsoInUse (auth w)); [left; by exists l | by right; left].
Qed.

(** After the base customization is set, it is the selected one. *)
Lemma setSelectedCustomization_base_selected (w : World) :
  getSelectedCustomization (snd (setSelectedCustomization baseCustomization false w))
  = baseCustomization.
Proof.
  destruct (connection_cases w) as [(l & Hconn & Hvalid) | Hno].
  - rewrite (setSelectedCustomization_run _ _ l) by done.
    unfold getSelectedCustomization. simpl. rewrite Hconn, Hvalid, lookup_insert_eq.
    by destruct (isCustomizationFeatureEnabled (auth w)).
  - rewrite setSelectedCustomization_skip by done. simpl.
    apply getSelectedCustomization_gated. tauto.
Qed.

Lemma notifications_logs (lines : list Event) :
  Forall (λ e, is_log e = true) lines → notifications lines = [].
Proof.
  induction 1 as [|e l He _ IH]; [done|].
  unfold notifications in *. simpl. by destruct e.
Qed.

Lemma notifications_app (t1 t2 : list Event) :
  notifications (t1 ++ t2) = notifications t1 ++ notifications t2.
Proof. apply List.filter_app. Qed.

Lemma warnings_app (t1 t2 : list Event) :
  warnings (t1 ++ t2) = warnings t1 + warnings t2.
Proof. unfold warnings. by rewrite List.filter_app, length_app. Qed.

(** C6, as amended.  When [getAvailableCustomizationsList] throws,
    [notifyNewCustomizations] returns normally, having switched the feature
    flag off and logged the error last; the base customization is the one
    [getSelectedCustomization] reads afterwards; it is written to the
    selection record of the connection when a valid enterprise SSO
    connection is in use, and otherwise the selection records are as they
    were; the persisted snapshot and the count of new customizations are not
    written, no notification is shown and no dialog is answered. *)
Theorem notifyNewCustomizations_fetch_failure (env : Env) (fuel : nat) (w w1 : World)
    (error : JsError) :
  getAvailableCustomizationsList env w = (Thrown error, w1) →
  ∃ w',
    notifyNewCustomizations env fuel w = (Returned tt, w')
    ∧ isCustomizationFeatureEnabled (auth w') = false
    ∧ getSelectedCustomization w' = baseCustomization
    ∧ (∀ connLabel,
         conn (auth w) = Some connLabel →
         isValidEnterpriseSsoInUse (auth w) = true →
         selectedCustomization (globalState w') !! connLabel = Some baseCustomization)
    ∧ (isValidEnterpriseSsoInUse (auth w) = false ∨ conn (auth w) = None →
       selectedCustomization (globalState w') = selectedCustomization (globalState w))
    ∧ persistedCustomizations (globalState w') = persistedCustomizations (globalState w)
    ∧ newCustomizations (globalState w') = newCustomizations (globalState w)
    ∧ last (trace w') = Some (LogError "Failed to fetch customizations: %O" [ArgError error])
    ∧ notifications (trace w') = notifications (trace w)
    ∧ warningReplies w' = warningReplies w
    ∧ pickReplies w' = pickReplies w.
Proof.
  intros Hfetch.
  destruct (getAvailableCustomizationsList_logs_only env w) as (lines & Hw1 & Hlines).
  rewrite Hfetch in Hw1. simpl in Hw1.
  unfold notifyNewCustomizations, fetchOrDisable.
  unfold bind at 1. unfold try_catch. unfold bind at 1. rewrite Hfetch.
  unfold bind at 1. unfold set_isCustomizationFeatureEnabled at 1, modify at 1.
  unfold bind at 1.
  destruct (connection_cases w) as [(l & Hconn & Hvalid) | Hno].
  - rewrite (setSelectedCustomization_run _ _ l)
      by (rewrite Hw1; simpl; done).
    rewrite Hw1. simpl. eexists. split; [reflexivity|]. simpl.
    split; [done|]. split.
    { unfold getSelectedCustomization. simpl. by rewrite Hconn. }
    split.
    { intros l' Hl' _. rewrite Hconn in Hl'. injection Hl' as <-.
      apply lookup_insert_eq. }
    split.
    { intros [Hno | Hno]; congruence. }
    split; [done|]. split; [done|]. split.
    { by rewrite last_snoc. }
    split; [|done].
    rewrite !notifications_app, (notifications_logs lines) by done.
    simpl. by rewrite !app_nil_r.
  - rewrite setSelectedCustomization_skip
      by (rewrite Hw1; simpl; done).
    rewrite Hw1. simpl. eexists. split; [reflexivity|]. simpl.
    split; [done|]. split.
    { apply getSelectedCustomization_gated. left. done. }
    split.
    { intros l' Hl' Hv. destruct Hno as [Hno | Hno]; congruence. }
    split; [done|].
    split; [done|]. split; [done|]. split.
    { by rewrite last_snoc. }
    split; [|done].
    rewrite !notifications_app, (notifications_logs lines) by done.
    simpl. by rewrite !app_nil_r.
Qed.

(** A client cannot be made for the second of three profiles: the fetch
    throws, and the stored selection goes back to the base customization. *)
Lemma notifyNewCustomizations_fetch_failure_witness :
  let w := Examples.world Examples.fooA [Examples.fooA] in
  getAvailableCustomizationsList Examples.env_noclient w
  = (Thrown (PlainError "no client"), w)
  ∧ ∃ w',
      notifyNewCustomizations Examples.env_noclient 0 w = (Returned tt, w')
      ∧ isCustomizationFeatureEnabled (auth w') = false
      ∧ getSelectedCustomization w' = baseCustomization
      ∧ (∀ connLabel,
           conn (auth w) = Some connLabel →
           isValidEnterpriseSsoInUse (auth w) = true →
           selectedCustomization (globalState w') !! connLabel = Some baseCustomization)
      ∧ (isValidEnterpriseSsoInUse (auth w) = false ∨ conn (auth w) = None →
         selectedCustomization (globalState w') = selectedCustomization (globalState w))
      ∧ persistedCustomizations (globalState w') = persistedCustomizations (globalState w)
      ∧ newCustomizations (globalState w') = newCustomizations (globalState w)
      ∧ last (trace w')
        = Some (LogError "Failed to fetch customizations: %O"
                         [ArgError (PlainError "no client")])
      ∧ notifications (trace w') = notifications (trace w)
      ∧ warningReplies w' = warningReplies w
      ∧ pickReplies w' = pickReplies w.
Proof.
  split; [reflexivity|].
  exact (notifyNewCustomizations_fetch_failure Examples.env_noclient 0
           (Examples.world Examples.fooA [Examples.fooA])
           (Examples.world Examples.fooA [Examples.fooA])
           (PlainError "no client") eq_refl).
Defined.

(** C6 as it is stated does not hold: with a connection whose enterprise
    SSO is not valid, the fetch throws, [notifyNewCustomizations] returns
    with the feature flag off, and the stored selection is not reverted: the
    record of the connection still holds Foo. *)
Lemma notifyNewCustomizations_fetch_failure_record_kept :
  let w := Examples.world_invalid_sso Examples.fooA in
  let w' := snd (notifyNewCustomizations Examples.env_noclient 0 w) in
  getAvailableCustomizationsList Examples.env_noclient w
  = (Thrown (PlainError "no client"), w)
  ∧ fst (notifyNewCustomizations Examples.env_noclient 0 w) = Returned tt
  ∧ isCustomizationFeatureEnabled (auth w') = false
  ∧ selectedCustomization (globalState w') !! Examples.connLabel = Some Examples.fooA
  ∧ Examples.fooA ≠ baseCustomization.
Proof.
  split; [reflexivity|]. split; [reflexivity|]. split; [reflexivity|].
  split; [reflexivity|]. by vm_compute.
Qed.

(** ** Applying a selection *)

(** C8, as amended.  [selectCustomization] of a customization whose arn is
    the arn of the selected one changes nothing: no write, no notification.
    Of any other customization, when a valid enterprise SSO connection is in
    use, it writes the customization to the selection record of the
    connection (the other records are kept) and shows the confirmation that
    names it. *)
Theorem selectCustomization_spec (customization : Customization) (w : World) :
  (Customization.arn (getSelectedCustomization w) = Customization.arn customization →
   selectCustomization customization w = (Returned tt, w))
  ∧ (Customization.arn (getSelectedCustomization w) ≠ Customization.arn customization →
     ∀ connLabel,
       conn (auth w) = Some connLabel →
       isValidEnterpriseSsoInUse (auth w) = true →
       ∃ w',
         selectCustomization customization w = (Returned tt, w')
         ∧ selectedCustomization (globalState w')
           = <[connLabel := customization]> (selectedCustomization (globalState w))
         ∧ selectedCustomization (globalState w') !! connLabel = Some customization
         ∧ trace w'
           = trace w
             ++ [LogDebug ("Selected customization "
                           +:+ template (Customization.name customization)
                           +:+ " for " +:+ connLabel);
                 ExecuteCommand "aws.amazonq.refreshStatusBar";
                 InformationMessage
                   ("Amazon Q suggestions are now coming from the "
                    +:+ (if bool_decide (Customization.arn customization = "")
                         then template (Customization.name customization)
                         else template (Customization.name customization)
                              +:+ " customization."))
                   []]).
Proof.
  unfold selectCustomization. split.
  - intros Hsame. unfold bind, gets. by rewrite bool_decide_eq_true_2.
  - intros Hother l Hconn Hvalid. unfold bind at 1, gets at 1.
    rewrite bool_decide_eq_false_2 by done.
    unfold bind at 1. rewrite (setSelectedCustomization_run _ _ l) by done.
    rewrite emit_run. eexists. split; [reflexivity|]. simpl.
    split; [done|]. split; [apply lookup_insert_eq|].
    by rewrite <- app_assoc.
Qed.

Lemma selectCustomization_spec_witness :
  let w := Examples.world Examples.barC [] in
  selectCustomization Examples.barC w = (Returned tt, w)
  ∧ ∃ w',
      selectCustomization Examples.fooA w = (Returned tt, w')
      ∧ selectedCustomization (globalState w') !! Examples.connLabel = Some Examples.fooA
      ∧ trace w'
        = [LogDebug "Selected customization Foo for IAM Identity Center (d-0123456789)";
           ExecuteCommand "aws.amazonq.refreshStatusBar";
           InformationMessage
             "Amazon Q suggestions are now coming from the Foo customization." []].
Proof.
  split.
  - exact (proj1 (selectCustomization_spec Examples.barC
                    (Examples.world Examples.barC [])) eq_refl).
  - destruct (proj2 (selectCustomization_spec Examples.fooA
                       (Examples.world Examples.barC []))
                ltac:(by vm_compute) Examples.connLabel eq_refl eq_refl)
      as (w' & Hrun & _ & Hsel & Htrace).
    exists w'. split; [exact Hrun|]. split; [exact Hsel|exact Htrace].
Defined.

(** C8 as it is stated does not hold: with a connection whose enterprise
    SSO is not valid, a customization other than the selected one is
    confirmed to the user and not written to the selection record. *)
Lemma selectCustomization_not_persisted :
  let w := Examples.world_invalid_sso Examples.barC in
  Customization.arn (getSelectedCustomization w) ≠ Customization.arn Examples.fooA
  ∧ selectCustomization Examples.fooA w
    = (Returned tt,
       with_trace
         [InformationMessage
            "Amazon Q suggestions are now coming from the Foo customization." []] w)
  ∧ selectedCustomization (globalState (snd (selectCustomization Examples.fooA w)))
      !! Examples.connLabel = Some Examples.barC
  ∧ Examples.barC ≠ Examples.fooA.
Proof.
  split; [by vm_compute|]. split; [reflexivity|]. split; [reflexivity|]. by vm_compute.
Qed.

(** ** Labels of the picker items *)

Lemma name_count_cons (n : string) (c : Customization) (l : list Customization) :
  name_count n (c :: l)
  = (if decide (Customization.name c = Some n) then 1 else 0) + name_count n l.
Proof.
  unfold name_count. rewrite filter_cons. by destruct (decide _).
Qed.

Lemma name_count_app (n : string) (l1 l2 : list Customization) :
  name_count n (l1 ++ l2) = name_count n l1 + name_count n l2.
Proof. unfold name_count. by rewrite filter_app, length_app. Qed.

Lemma name_count_pos (n : string) (l : list Customization) :
  0 < name_count n l ↔ ∃ c, c ∈ l ∧ Customization.name c = Some n.
Proof.
  unfold name_count. split.
  - intros Hpos.
    destruct (filter (λ c, Customization.name c = Some n) l) as [|c l'] eqn:Hf;
      [simpl in Hpos; lia|].
    exists c. assert (c ∈ filter (λ c, Customization.name c = Some n) l) as Hc
      by (rewrite Hf; left).
    apply list_elem_of_filter in Hc. tauto.
  - intros (c & Hc & Hn).
    assert (c ∈ filter (λ c, Customization.name c = Some n) l) as Hin
      by (by apply list_elem_of_filter).
    destruct (filter _ l); [by apply elem_of_nil in Hin | simpl; lia].
Qed.

(** The counts of the [reduce], over any starting map. *)
Lemma customizationNameToCount_fold (n : string) (l : list Customization)
    (m : gmap string nat) :
  n ≠ "" →
  default 0
    (foldl (λ (map : gmap string nat) customization,
              match Customization.name customization with
              | Some n => if truthy n then <[n := default 0 (map !! n) + 1]> map else map
              | None => map
              end) m l !! n)
  = default 0 (m !! n) + name_count n l.
Proof.
  intros Hn. revert m. induction l as [|c l IH]; intros m.
  - unfold name_count. simpl. lia.
  - simpl. rewrite IH, name_count_cons.
    destruct (Customization.name c) as [n'|] eqn:Hc.
    + unfold truthy. case_bool_decide as Hn'.
      * destruct (decide (Some n' = Some n)) as [[= ->]|Hne].
        -- rewrite lookup_insert_eq. simpl. lia.
        -- rewrite lookup_insert_ne by congruence. lia.
      * destruct (decide (Some n' = Some n)) as [[= ->]|Hne]; [|lia].
        by exfalso.
    + destruct (decide (None = Some n)); [done|lia].
Qed.

Lemma customizationNameToCount_lookup (n : string) (l : list Customization) :
  n ≠ "" → default 0 (customizationNameToCount l !! n) = name_count n l.
Proof.
  intros Hn. unfold customizationNameToCount.
  by rewrite customizationNameToCount_fold, lookup_empty.
Qed.

(** A name is shared exactly when it is counted more than once. *)
Lemma shares_name_count (l : list Customization) (i : nat) (c : Customization)
    (n : string) :
  l !! i = Some c → Customization.name c = Some n →
  shares_name l i ↔ 1 < name_count n l.
Proof.
  intros Hi Hn.
  pose proof (take_drop_middle l i c Hi) as Hsplit.
  assert (name_count n l
          = name_count n (take i l) + S (name_count n (drop (S i) l))) as Hcount.
  { rewrite <- Hsplit at 1. rewrite name_count_app, name_count_cons.
    by rewrite decide_True. }
  split.
  - intros (j & c0 & c' & Hij & Hi' & Hj & Hname).
    rewrite Hi in Hi'. injection Hi' as <-. rewrite Hn in Hname.
    destruct (decide (j < i)) as [Hlt|Hge].
    + assert (0 < name_count n (take i l)); [|lia].
      apply name_count_pos. exists c'. split; [|done].
      apply list_elem_of_lookup. exists j. by rewrite lookup_take_lt.
    + assert (0 < name_count n (drop (S i) l)); [|lia].
      apply name_count_pos. exists c'. split; [|done].
      apply list_elem_of_lookup. exists (j - S i). rewrite lookup_drop.
      by replace (S i + (j - S i)) with j by lia.
  - intros Hmore.
    assert (0 < name_count n (take i l) ∨ 0 < name_count n (drop (S i) l))
      as [Hpos | Hpos] by lia;
      apply name_count_pos in Hpos as (c' & Hc' & Hname);
      apply list_elem_of_lookup in Hc' as (j & Hj).
    + pose proof (lookup_lt_Some _ _ _ Hj) as Hlen. rewrite length_take in Hlen.
      exists j, c, c'. rewrite lookup_take_lt in Hj by lia.
      split; [lia|]. by rewrite Hn.
    + rewrite lookup_drop in Hj.
      exists (S i + j), c, c'. split; [lia|]. by rewrite Hn.
Qed.

Lemma shouldPrefixAccountId_shares (l : list Customization) (i : nat)
    (c : Customization) (n : string) :
  l !! i = Some c → Customization.name c = Some n → n ≠ "" →
  shouldPrefixAccountId (customizationNameToCount l) c = true ↔ shares_name l i.
Proof.
  intros Hi Hname Hn. rewrite (shares_name_count l i c n) by done.
  unfold shouldPrefixAccountId. rewrite Hname. unfold truthy.
  rewrite bool_decide_eq_true_2 by done. simpl.
  rewrite customizationNameToCount_lookup by done.
  apply bool_decide_eq_true.
Qed.

Lemma createCustomizationItem_run (env : Env) (customization : Customization)
    (persistedArns : list string) (flag : bool) (parsed : ARN) (text : string)
    (w : World) :
  parse env (Customization.arn customization) = Resolves parsed →
  displayedName customization (accountId parsed) flag = Resolves text →
  ∃ item,
    createCustomizationItem env customization persistedArns flag w = (Returned item, w)
    ∧ label item = codicon env text
    ∧ onClick item = ClickCustomization customization
    ∧ data item = Some (Customization.arn customization).
Proof.
  intros Hparse Hname. unfold createCustomizationItem. rewrite Hparse, Hname.
  unfold bind, gets, ret. eexists. split; [reflexivity|]. done.
Qed.

(** C7, as amended.  For the customization at a place of the available
    list whose arn parses: when its name is not empty and it has a profile,
    [createCustomizationItem], with the flag [createCustomizationItems]
    computes for it, returns an item labelled with the name followed by a
    marker in brackets; the marker is the account id of the arn when the
    name is shared with another available customization and the account id
    is not empty, and the name of the profile otherwise, so also when the
    name is shared by no other.  When the name is missing or empty the label
    is [unknown], with no marker. *)
Theorem createCustomizationItem_label (env : Env) (available : list Customization)
    (i : nat) (c : Customization) (parsed : ARN) (persistedArns : list string)
    (w : World) :
  available !! i = Some c →
  parse env (Customization.arn c) = Resolves parsed →
  let flag := shouldPrefixAccountId (customizationNameToCount available) c in
  (∀ n p,
     Customization.name c = Some n → n ≠ "" → Customization.profile c = Some p →
     ∃ item,
       createCustomizationItem env c persistedArns flag w = (Returned item, w)
       ∧ (shares_name available i → accountId parsed ≠ "" →
          label item = codicon env (n +:+ " (" +:+ accountId parsed +:+ ")"))
       ∧ (shares_name available i → accountId parsed = "" →
          label item = codicon env (n +:+ " (" +:+ RegionProfile.name p +:+ ")"))
       ∧ (¬ shares_name available i →
          label item = codicon env (n +:+ " (" +:+ RegionProfile.name p +:+ ")")))
  ∧ (Customization.name c = None ∨ Customization.name c = Some "" →
     ∃ item,
       createCustomizationItem env c persistedArns flag w = (Returned item, w)
       ∧ label item = codicon env "unknown").
Proof.
  intros Hi Hparse flag. split.
  - intros n p Hname Hn Hprofile.
    pose proof (shouldPrefixAccountId_shares available i c n Hi Hname Hn) as Hflag.
    fold flag in Hflag.
    assert (∃ text,
              displayedName c (accountId parsed) flag = Resolves text
              ∧ text = n +:+ " ("
                         +:+ (if flag && truthy (accountId parsed)
                              then accountId parsed else RegionProfile.name p)
                         +:+ ")") as (text & Htext & Heq).
    { unfold displayedName, profile_name. rewrite Hname, Hprofile.
      unfold truthy at 1. rewrite bool_decide_eq_true_2 by done.
      destruct flag; [destruct (truthy (accountId parsed))|]; eexists; done. }
    destruct (createCustomizationItem_run env c persistedArns flag parsed text w
                Hparse Htext) as (item & Hrun & Hlabel & _).
    exists item. split; [done|]. rewrite Hlabel, Heq. unfold truthy.
    split; [|split].
    + intros Hshares Hacc. apply Hflag in Hshares. rewrite Hshares.
      by rewrite bool_decide_eq_true_2.
    + intros Hshares Hacc. apply Hflag in Hshares. rewrite Hshares.
      by rewrite bool_decide_eq_false_2 by (by intros []).
    + intros Hnot. destruct flag; [|done]. exfalso. by apply Hnot, Hflag.
  - intros Hname.
    destruct (createCustomizationItem_run env c persistedArns flag parsed "unknown" w
                Hparse) as (item & Hrun & Hlabel & _).
    { unfold displayedName. by destruct Hname as [-> | ->]. }
    by exists item.
Qed.

(** Two customizations named Foo and one named Bar, from three profiles. *)
Lemma createCustomizationItem_label_witness :
  let w := Examples.world Examples.fooA [] in
  let counts := customizationNameToCount Examples.available_ok in
  (label <$> match fst (createCustomizationItems Examples.env_ok 1 w) with
             | Returned items => items
             | _ => []
             end)
  = ["$(circuit-board) Amazon Q foundation (Default)";
     "$(circuit-board) Foo (111111111111)";
     "$(circuit-board) Foo (222222222222)";
     "$(circuit-board) Bar (ProfileC)"]
  ∧ (∃ item,
     createCustomizationItem Examples.env_ok (withProfile Examples.profileA Examples.fooA) []
       (shouldPrefixAccountId counts (withProfile Examples.profileA Examples.fooA)) w
     = (Returned item, w)
     ∧ label item = "$(circuit-board) Foo (111111111111)")
  ∧ (∃ item,
       createCustomizationItem Examples.env_ok (withProfile Examples.profileC Examples.barC) []
         (shouldPrefixAccountId counts (withProfile Examples.profileC Examples.barC)) w
       = (Returned item, w)
       ∧ label item = "$(circuit-board) Bar (ProfileC)").
Proof.
  split; [by vm_compute|]. split.
  - destruct (proj1 (createCustomizationItem_label Examples.env_ok Examples.available_ok 0
                       (withProfile Examples.profileA Examples.fooA) _ []
                       (Examples.world Examples.fooA []) eq_refl eq_refl)
                "Foo" Examples.profileA eq_refl ltac:(done) eq_refl)
      as (item & Hrun & Hshared & _).
    exists item. split; [exact Hrun|]. apply Hshared; [|done].
    exists 1, (withProfile Examples.profileA Examples.fooA),
           (withProfile Examples.profileB Examples.fooB).
    done.
  - destruct (proj1 (createCustomizationItem_label Examples.env_ok Examples.available_ok 2
                       (withProfile Examples.profileC Examples.barC) _ []
                       (Examples.world Examples.fooA []) eq_refl eq_refl)
                "Bar" Examples.profileC eq_refl ltac:(done) eq_refl)
      as (item & Hrun & _ & _ & Hunique).
    exists item. split; [exact Hrun|]. apply Hunique.
    intros ([|[|[|j]]] & c0 & c' & Hij & H0 & Hj & Hname);
      simpl in *; simplify_eq.
Defined.

(** C7 as it is stated does not hold: the picker built when the listing of
    the second profile fails shows one Foo and one Bar, each name used once,
    and both labels carry the name of the profile. *)
Lemma createCustomizationItems_unique_name_suffix :
  let w := Examples.world Examples.fooA [] in
  (label <$> match fst (createCustomizationItems Examples.env3 1 w) with
             | Returned items => items
             | _ => []
             end)
  = ["$(circuit-board) Amazon Q foundation (Default)";
     "$(circuit-board) Foo (ProfileA)";
     "$(circuit-board) Bar (ProfileC)"]
  ∧ name_count "Foo" [withProfile Examples.profileA Examples.fooA;
                      withProfile Examples.profileC Examples.barC] = 1
  ∧ codicon Examples.env3 "Foo" = "$(circuit-board) Foo"
  ∧ "$(circuit-board) Foo (ProfileA)" ≠ "$(circuit-board) Foo".
Proof.
  split; [by vm_compute|]. split; [by vm_compute|]. split; [reflexivity|]. done.
Qed.

(** ** Runs that keep a relation *)

#[local] Instance same_warnings_preorder : PreOrder same_warnings.
Proof.
  split; [done|]. intros w1 w2 w3. unfold same_warnings. congruence.
Qed.

#[local] Instance same_selection_preorder : PreOrder same_selection.
Proof.
  split; [done|]. intros w1 w2 w3 [? ?] [? ?]. split; congruence.
Qed.

#[local] Instance calm_preorder : PreOrder calm.
Proof.
  split; [done|]. intros w1 w2 w3 [? ?] [? ?]. split; by etrans.
Qed.

Section Runs.
Context (R : relation World) `{!PreOrder R}.

Lemma runs_ret {A} (a : A) : runs R (ret a).
Proof. done. Qed.

Lemma runs_throw {A} (e : JsError) : runs R (throw (A:=A) e).
Proof. done. Qed.

Lemma runs_gets {A} (f : World → A) : runs R (gets f).
Proof. done. Qed.

Lemma runs_modify (f : World → World) : (∀ w, R w (f w)) → runs R (modify f).
Proof. intros Hf w. split; [done|apply Hf]. Qed.

Lemma runs_bind {A B} (m : M A) (k : A → M B) :
  runs R m → (∀ a, runs R (k a)) → runs R (bind m k).
Proof.
  intros Hm Hk w. unfold bind. destruct (Hm w) as [Hne HR].
  destruct (m w) as [[a|e|] w1]; simpl in *; [|done..].
  destruct (Hk a w1) as [Hne' HR']. split; [done|]. by etrans.
Qed.

Lemma runs_try_catch {A} (m : M A) (handler : JsError → M A) :
  runs R m → (∀ e, runs R (handler e)) → runs R (try_catch m handler).
Proof.
  intros Hm Hh w. unfold try_catch. destruct (Hm w) as [Hne HR].
  destruct (m w) as [[a|e|] w1]; simpl in *; [done| |done].
  destruct (Hh e w1) as [Hne' HR']. split; [done|]. by etrans.
Qed.

Lemma runs_when (b : bool) (m : M unit) : runs R m → runs R (when b m).
Proof. by destruct b. Qed.

Lemma runs_mapM {A B} (f : A → M B) (l : list A) :
  (∀ x, runs R (f x)) → runs R (mapM f l).
Proof.
  intros Hf. induction l as [|x l IH]; [done|]. simpl.
  apply runs_bind; [done|]. intros y. apply runs_bind; [done|]. done.
Qed.

End Runs.

Lemma runs_weaken {A} (R R' : relation World) (m : M A) :
  (∀ w w', R w w' → R' w w') → runs R m → runs R' m.
Proof. intros HR Hm w. destruct (Hm w). split; [done|]. by apply HR. Qed.

Lemma runs_calm_warnings {A} (m : M A) : runs calm m → runs same_warnings m.
Proof. apply runs_weaken. by intros w w' [? ?]. Qed.

Lemma same_selection_selected (w w' : World) :
  same_selection w w' → getSelectedCustomization w' = getSelectedCustomization w.
Proof. intros [Hauth Hsel]. unfold getSelectedCustomization. by rewrite Hauth, Hsel. Qed.

Lemma warnings_snoc (tr : list Event) (e : Event) :
  warnings (tr ++ [e]) = warnings tr + (if is_warning e then 1 else 0).
Proof. rewrite warnings_app. unfold warnings. simpl. by destruct (is_warning e). Qed.

(** Applies a lemma of the section above, its relation read off the goal. *)
Ltac runs_apply lem := apply lem; try exact _.

Lemma runs_emit_calm (e : Event) : is_warning e = false → runs calm (emit e).
Proof.
  intros He. runs_apply runs_modify. intros w. split; [|done].
  unfold same_warnings. simpl. rewrite warnings_snoc, He. lia.
Qed.

Lemma runs_emit_warnings (e : Event) :
  is_warning e = false → runs same_warnings (emit e).
Proof. intros He. by apply runs_calm_warnings, runs_emit_calm. Qed.

(** Splits a sequence of calls into its calls; the calls already known to
    keep the relation are closed from the hints. *)
Create HintDb runs.

Ltac runs_steps :=
  repeat first
    [ solve [auto 3 with runs nocore]
    | runs_apply @runs_bind; [|intros ?]
    | runs_apply @runs_when
    | runs_apply @runs_ret
    | runs_apply @runs_gets
    | runs_apply @runs_throw
    | apply runs_emit_calm; reflexivity
    | apply runs_emit_warnings; reflexivity
    | solve [runs_apply runs_modify; done]
    | match goal with |- runs _ (match ?x with _ => _ end) => destruct x end ].

#[local] Hint Extern 2 (runs same_warnings _) => apply runs_calm_warnings : runs.

Lemma runs_setSelectedCustomization (customization : Customization) (isOverride : bool) :
  runs same_warnings (setSelectedCustomization customization isOverride).
Proof. unfold setSelectedCustomization. runs_steps. Qed.

Lemma runs_setPersistedCustomizations (customizations : list Customization) :
  runs calm (setPersistedCustomizations customizations).
Proof. unfold setPersistedCustomizations. runs_steps. Qed.

Lemma runs_setNewCustomizationsAvailable (num : nat) :
  runs calm (setNewCustomizationsAvailable num).
Proof. unfold setNewCustomizationsAvailable. runs_steps. Qed.

#[local] Hint Resolve runs_setSelectedCustomization runs_setPersistedCustomizations
  runs_setNewCustomizationsAvailable : runs.

Section RunsOfTheModule.
Context (env : Env).

Lemma runs_init (profile : RegionProfile) :
  runs calm (CustomizationProvider.init env profile).
Proof. unfold CustomizationProvider.init. runs_steps. Qed.

Lemma runs_listAvailableCustomizations (provider : CustomizationProvider.t) :
  runs calm (CustomizationProvider.listAvailableCustomizations env provider).
Proof. unfold CustomizationProvider.listAvailableCustomizations. runs_steps. Qed.

Hint Resolve runs_init runs_listAvailableCustomizations : runs.

Lemma runs_collectCustomizations (profiles : list RegionProfile)
    (items : list Customization) :
  runs calm (collectCustomizations env profiles items).
Proof.
  revert items. induction profiles as [|p ps IH]; intros items; simpl; runs_steps.
Qed.

Hint Resolve runs_collectCustomizations : runs.

Lemma runs_getAvailableCustomizationsList :
  runs calm (getAvailableCustomizationsList env).
Proof. unfold getAvailableCustomizationsList. runs_steps. Qed.

Lemma runs_selectCustomization (customization : Customization) :
  runs same_warnings (selectCustomization customization).
Proof. unfold selectCustomization. runs_steps. Qed.

Lemma runs_switchRegionProfile (target : RegionProfile) (intent : string) :
  runs same_warnings (switchRegionProfile target intent).
Proof. unfold switchRegionProfile, set_activeRegionProfile. runs_steps. Qed.

Hint Resolve runs_getAvailableCustomizationsList runs_selectCustomization
  runs_switchRegionProfile : runs.

Lemma runs_runOnClick (action : ClickAction) : runs same_warnings (runOnClick action).
Proof. unfold runOnClick. runs_steps. Qed.

Hint Resolve runs_runOnClick : runs.

Lemma runs_showQuickPick (items : list PickItem) :
  runs same_warnings (showQuickPick items).
Proof. unfold showQuickPick. runs_steps. Qed.

Lemma runs_createCustomizationItem (customization : Customization)
    (persistedArns : list string) (flag : bool) :
  runs calm (createCustomizationItem env customization persistedArns flag).
Proof. unfold createCustomizationItem. runs_steps. Qed.

Hint Resolve runs_showQuickPick runs_createCustomizationItem : runs.

Lemma runs_createCustomizationItems_over (k : M unit) :
  runs same_warnings k → runs same_warnings (createCustomizationItems_over env k).
Proof.
  intros Hk. unfold createCustomizationItems_over. runs_steps.
  runs_apply @runs_mapM. intros c. runs_steps.
Qed.

Hint Resolve runs_createCustomizationItems_over : runs.

Lemma runs_showCustomizationPrompt_over (k : M unit) :
  runs same_warnings k → runs same_warnings (showCustomizationPrompt_over env k).
Proof. intros Hk. unfold showCustomizationPrompt_over. runs_steps. Qed.

End RunsOfTheModule.

#[local] Hint Resolve runs_init runs_listAvailableCustomizations
  runs_collectCustomizations runs_getAvailableCustomizationsList
  runs_selectCustomization runs_switchRegionProfile runs_runOnClick
  runs_showQuickPick runs_createCustomizationItem : runs.

(** ** Reverting to the base customization *)

Lemma bind_ext_run {A B} (m : M A) (k k' : A → M B) (w : World) :
  (∀ a w1, m w = (Returned a, w1) → k a w1 = k' a w1) →
  bind m k w = bind m k' w.
Proof.
  intros Hk. unfold bind. destruct (m w) as [[a|e|] w1]; [|done..]. by apply Hk.
Qed.

Lemma setSelectedCustomization_returns (customization : Customization) (w : World) :
  fst (setSelectedCustomization customization false w) = Returned tt.
Proof.
  destruct (connection_cases w) as [(l & Hconn & Hvalid) | Hno].
  - by rewrite (setSelectedCustomization_run _ _ l).
  - by rewrite setSelectedCustomization_skip.
Qed.

Lemma showWarningMessage_run (message : string) (items : list string) (w : World) :
  showWarningMessage message items w
  = (Returned (default None (head (warningReplies w))),
     with_warningReplies (tail (warningReplies w))
                         (with_trace (trace w ++ [WarningMessage message items]) w)).
Proof.
  unfold showWarningMessage, bind, gets. simpl.
  destruct w as [a g f t wr pr]. simpl. by destruct wr.
Qed.

Lemma length_pos_not_empty (s : string) : 0 < String.length s ↔ s ≠ "".
Proof.
  destruct s; simpl; split; (done || lia).
Qed.

Lemma find_arn_None (arn : string) (l : list Customization) :
  arn ∉ (Customization.arn <$> l) →
  List.find (λ it, bool_decide (Customization.arn it = arn)) l = None.
Proof.
  induction l as [|c l IH]; [done|]. simpl. intros Hnot.
  rewrite not_elem_of_cons in Hnot. destruct Hnot as [Hne Hnot].
  rewrite bool_decide_eq_false_2 by done. by apply IH.
Qed.

Section Reconcile.
Context (env : Env).

(** Once the base customization is the selected one, building the picker
    items does not call back [switchToBaseCustomizationAndNotify]. *)
Lemma createCustomizationItems_over_base (k k' : M unit) (w : World) :
  getSelectedCustomization w = baseCustomization →
  createCustomizationItems_over env k w = createCustomizationItems_over env k' w.
Proof.
  intros Hbase. unfold createCustomizationItems_over.
  apply bind_ext_run. intros available w1 H1.
  pose proof (runs_getAvailableCustomizationsList env w) as [_ [_ Hs1]].
  rewrite H1 in Hs1. simpl in Hs1.
  apply bind_ext_run. intros persisted w2 [= <- <-].
  apply bind_ext_run. intros [] w3 H3.
  pose proof (runs_setPersistedCustomizations available w1) as [_ [_ Hs3]].
  rewrite H3 in Hs3. simpl in Hs3.
  apply bind_ext_run. intros selected w4 [= <- <-].
  rewrite (same_selection_selected w1 w3 Hs3), (same_selection_selected w w1 Hs1), Hbase.
  done.
Qed.

Lemma showCustomizationPrompt_over_base (k k' : M unit) (w : World) :
  getSelectedCustomization w = baseCustomization →
  showCustomizationPrompt_over env k w = showCustomizationPrompt_over env k' w.
Proof.
  intros Hbase. unfold showCustomizationPrompt_over.
  apply bind_ext_run. intros [] w1 H1.
  pose proof (runs_setNewCustomizationsAvailable 0 w) as [_ [_ Hs1]].
  rewrite H1 in Hs1. simpl in Hs1.
  unfold bind.
  rewrite (createCustomizationItems_over_base k k' w1); [done|].
  by rewrite (same_selection_selected w w1 Hs1).
Qed.

(** The warning and what follows it, from a state in which the base
    customization is the selected one: the warning is the only one shown,
    and when the user does not ask for the picker the run ends there. *)
Lemma warning_shown_once (k : M unit) (w : World) :
  getSelectedCustomization w = baseCustomization →
  let m :=
    selection <- showWarningMessage selectedCustomizationNotAvailable
                                    [selectCustomizationLabel];;
    if bool_decide (selection = Some selectCustomizationLabel)
    then showCustomizationPrompt_over env k
    else ret tt in
  fst (m w) ≠ Exhausted
  ∧ warnings (trace (snd (m w))) = S (warnings (trace w))
  ∧ (default None (head (warningReplies w)) ≠ Some selectCustomizationLabel →
     m w = (Returned tt,
            with_warningReplies (tail (warningReplies w))
              (with_trace
                 (trace w ++ [WarningMessage selectedCustomizationNotAvailable
                                             [selectCustomizationLabel]]) w))).
Proof.
  intros Hbase m.
  set (w2 := with_warningReplies (tail (warningReplies w))
               (with_trace
                  (trace w ++ [WarningMessage selectedCustomizationNotAvailable
                                              [selectCustomizationLabel]]) w)).
  assert (warnings (trace w2) = S (warnings (trace w))) as Hwarn.
  { unfold w2. simpl. rewrite warnings_snoc. simpl. lia. }
  assert (m w = (if bool_decide (default None (head (warningReplies w))
                                 = Some selectCustomizationLabel)
                 then showCustomizationPrompt_over env (ret tt)
                 else ret tt) w2) as ->.
  { unfold m, bind. rewrite showWarningMessage_run. fold w2.
    case_bool_decide; [|done]. by apply showCustomizationPrompt_over_base. }
  case_bool_decide as Hreply.
  - destruct (runs_showCustomizationPrompt_over env (ret tt)
                (runs_ret same_warnings tt) w2) as [Hne Hsame].
    split; [done|]. split; [|done]. unfold same_warnings in Hsame. congruence.
  - done.
Qed.

Lemma switchToBaseCustomizationAndNotify_unfold (fuel : nat) (w : World) :
  switchToBaseCustomizationAndNotify env (S fuel) w
  = (selection <- showWarningMessage selectedCustomizationNotAvailable
                                     [selectCustomizationLabel];;
     if bool_decide (selection = Some selectCustomizationLabel)
     then showCustomizationPrompt env fuel
     else ret tt)
      (snd (setSelectedCustomization baseCustomization false w)).
Proof.
  simpl. unfold bind at 1.
  pose proof (setSelectedCustomization_returns baseCustomization w) as Hret.
  destruct (setSelectedCustomization baseCustomization false w) as [r w1].
  simpl in Hret. by rewrite Hret.
Qed.

(** The recursion bound is immaterial: any positive bound gives the run of
    bound one, and that run does not hit the bound. *)
Lemma switchToBaseCustomizationAndNotify_bound (fuel : nat) (w : World) :
  switchToBaseCustomizationAndNotify env (S fuel) w
  = switchToBaseCustomizationAndNotify env 1 w
  ∧ fst (switchToBaseCustomizationAndNotify env (S fuel) w) ≠ Exhausted.
Proof.
  rewrite !switchToBaseCustomizationAndNotify_unfold.
  set (w1 := snd (setSelectedCustomization baseCustomization false w)).
  assert (getSelectedCustomization w1 = baseCustomization) as Hbase
    by apply setSelectedCustomization_base_selected.
  split.
  - unfold bind. rewrite showWarningMessage_run. case_bool_decide; [|done].
    by apply showCustomizationPrompt_over_base.
  - apply (warning_shown_once (switchToBaseCustomizationAndNotify env fuel) w1 Hbase).
Qed.

End Reconcile.

(** ** The recursion bound

    With any positive bound, no operation of the module is cut short. *)

#[local] Instance anything_preorder : PreOrder anything.
Proof. by split. Qed.

Lemma runs_anything {A} (m : M A) : runs same_warnings m → runs anything m.
Proof. by apply runs_weaken. Qed.

Section Bound.
Context (env : Env).

Hint Extern 3 (runs anything _) => apply runs_anything : runs.

Lemma switchToBaseCustomizationAndNotify_total (fuel : nat) :
  runs anything (switchToBaseCustomizationAndNotify env (S fuel)).
Proof.
  intros w. split; [|done]. apply switchToBaseCustomizationAndNotify_bound.
Qed.

Hint Resolve switchToBaseCustomizationAndNotify_total : runs.

Lemma createCustomizationItems_total (fuel : nat) :
  runs anything (createCustomizationItems env (S fuel)).
Proof.
  unfold createCustomizationItems, createCustomizationItems_over. runs_steps.
  runs_apply @runs_mapM. intros c. runs_steps.
Qed.

Hint Resolve createCustomizationItems_total : runs.

Lemma showCustomizationPrompt_total (fuel : nat) :
  runs anything (showCustomizationPrompt env (S fuel)).
Proof.
  unfold showCustomizationPrompt, showCustomizationPrompt_over.
  fold (createCustomizationItems env (S fuel)). runs_steps.
Qed.

Lemma notifyNewCustomizations_total (fuel : nat) :
  runs anything (notifyNewCustomizations env (S fuel)).
Proof.
  unfold notifyNewCustomizations, fetchOrDisable, set_isCustomizationFeatureEnabled.
  runs_apply @runs_bind.
  - runs_apply @runs_try_catch; [|intros e]; runs_steps.
  - intros fetched. runs_steps.
Qed.

Lemma onProfileChangedListener_total (fuel : nat) (event : ProfileChangedEvent) :
  runs anything (onProfileChangedListener env (S fuel) event).
Proof. unfold onProfileChangedListener. runs_steps. Qed.

End Bound.

Lemma warnings_listing_failure (env : Env) (profile : RegionProfile) :
  warnings (listing_failure env profile) = 0.
Proof.
  unfold listing_failure. by destruct (client_listAvailableCustomizations env _ _).
Qed.

(** C2. [onProfileChangedListener] returns at once, the state as it was,
    when the intent of the event is [customization].  For any other intent,
    when the event has a profile for which a client is made, and the
    selected customization has a non-empty arn that is not among the arns
    listed for the profile: the selection record of the connection is set to
    the base customization, and from that state the warning is shown;
    whatever the user answers, the run does not hit the recursion bound and
    shows exactly one warning; and when the user does not ask for the picker
    from the warning, the listener returns with the base customization as
    the stored and the selected one. *)
Theorem onProfileChangedListener_reverts_once (env : Env) (fuel : nat)
    (event : ProfileChangedEvent) (w : World) :
  (intent event = "customization" →
   onProfileChangedListener env fuel event w = (Returned tt, w))
  ∧ (intent event ≠ "customization" →
     ∀ profile,
       event_profile event = Some profile →
       createQClient env profile = Resolves tt →
       Customization.arn (getSelectedCustomization w) ≠ "" →
       Customization.arn (getSelectedCustomization w)
         ∉ (Customization.arn <$> listed env profile) →
       ∃ connLabel w1,
         conn (auth w) = Some connLabel
         ∧ selectedCustomization (globalState w1) !! connLabel = Some baseCustomization
         ∧ getSelectedCustomization w1 = baseCustomization
         ∧ warnings (trace w1) = warnings (trace w)
         ∧ onProfileChangedListener env (S fuel) event w
           = (selection <- showWarningMessage selectedCustomizationNotAvailable
                                              [selectCustomizationLabel];;
              if bool_decide (selection = Some selectCustomizationLabel)
              then showCustomizationPrompt env fuel
              else ret tt) w1
         ∧ fst (onProfileChangedListener env (S fuel) event w) ≠ Exhausted
         ∧ warnings (trace (snd (onProfileChangedListener env (S fuel) event w)))
           = S (warnings (trace w))
         ∧ (default None (head (warningReplies w)) ≠ Some selectCustomizationLabel →
            ∃ w',
              onProfileChangedListener env (S fuel) event w = (Returned tt, w')
              ∧ selectedCustomization (globalState w') !! connLabel
                = Some baseCustomization
              ∧ getSelectedCustomization w' = baseCustomization)).
Proof.
  split.
  - intros Hintent. unfold onProfileChangedListener.
    by rewrite bool_decide_eq_true_2.
  - intros Hintent profile Hprofile Hclient Harn Habsent.
    destruct (getSelectedCustomization_not_base w)
      as (l & Hconn & _ & Hvalid & _ & _).
    { intros Heq. by rewrite Heq in Harn. }
    set (w0 := with_trace
                 (trace w ++ listing_failure env profile
                  ++ [LogDebug ("profile " +:+ RegionProfile.name profile
                                +:+ " doesnt have access to customization "
                                +:+ template (Customization.name
                                                (getSelectedCustomization w))
                                +:+ " but has access to "
                                +:+ join_names (Customization.name
                                                  <$> listed env profile))]) w).
    assert (onProfileChangedListener env (S fuel) event w
            = switchToBaseCustomizationAndNotify env (S fuel) w0) as Hrun.
    { unfold onProfileChangedListener.
      rewrite bool_decide_eq_false_2 by done. rewrite Hprofile.
      unfold bind at 1, gets at 1.
      rewrite bool_decide_eq_true_2 by (by apply length_pos_not_empty).
      unfold bind at 1. rewrite init_run, Hclient.
      unfold bind at 1. rewrite listAvailableCustomizations_run.
      cbn [CustomizationProvider.profile].
      rewrite find_arn_None by done.
      unfold bind at 1. rewrite emit_run.
      unfold w0. rewrite with_trace_twice. cbn [trace with_trace].
      by rewrite <- app_assoc. }
    rewrite Hrun, switchToBaseCustomizationAndNotify_unfold.
    set (w1 := snd (setSelectedCustomization baseCustomization false w0)).
    assert (getSelectedCustomization w1 = baseCustomization) as Hbase
      by apply setSelectedCustomization_base_selected.
    assert (selectedCustomization (globalState w1) !! l = Some baseCustomization
            ∧ warnings (trace w1) = warnings (trace w)
            ∧ warningReplies w1 = warningReplies w) as (Hstored & Hwarn & Hreplies).
    { unfold w1. rewrite (setSelectedCustomization_run _ _ l) by done.
      simpl. split; [apply lookup_insert_eq|]. split; [|done].
      rewrite !warnings_app, warnings_listing_failure. unfold warnings. simpl. lia. }
    destruct (warning_shown_once env (switchToBaseCustomizationAndNotify env fuel)
                w1 Hbase) as (Hne & Honce & Hdismiss).
    exists l, w1. split; [done|]. split; [done|]. split; [done|]. split; [done|].
    split; [done|]. split; [exact Hne|]. split.
    { unfold showCustomizationPrompt. rewrite Honce. by rewrite Hwarn. }
    intros Hreply. rewrite <- Hreplies in Hreply.
    eexists. split; [apply Hdismiss, Hreply|]. simpl. split; [done|].
    rewrite <- Hbase. by apply same_selection_selected.
Qed.

(** The scenario of the specification: the selected customization is not
    among those listed for the new profile.  The user asks for the picker
    and chooses the third item there; one warning is shown all the same.
    With no answer, the base customization stays the stored one. *)
Lemma onProfileChangedListener_reverts_once_witness :
  let asked := with_warningReplies [Some selectCustomizationLabel]
                 (with_pickReplies [Some 2] (Examples.world Examples.fooA [])) in
  let silent := Examples.world Examples.fooA [] in
  let event := mkEvent (Some Examples.profileC) "user" in
  onProfileChangedListener Examples.env3 1
    (mkEvent (Some Examples.profileC) "customization") asked = (Returned tt, asked)
  ∧ fst (onProfileChangedListener Examples.env3 1 event asked) ≠ Exhausted
  ∧ warnings (trace (snd (onProfileChangedListener Examples.env3 1 event asked))) = 1
  ∧ ∃ w',
      onProfileChangedListener Examples.env3 1 event silent = (Returned tt, w')
      ∧ selectedCustomization (globalState w') !! Examples.connLabel
        = Some baseCustomization
      ∧ getSelectedCustomization w' = baseCustomization.
Proof.
  assert (Customization.arn Examples.fooA
            ∉ (Customization.arn <$> listed Examples.env3 Examples.profileC)) as Habsent.
  { change (listed Examples.env3 Examples.profileC) with [Examples.barC].
    simpl. intros Hin. apply list_elem_of_singleton in Hin. discriminate Hin. }
  split; [|split; [|split]].
  - exact (proj1 (onProfileChangedListener_reverts_once Examples.env3 1
                    (mkEvent (Some Examples.profileC) "customization")
                    (with_warningReplies [Some selectCustomizationLabel]
                       (with_pickReplies [Some 2] (Examples.world Examples.fooA []))))
                 eq_refl).
  - destruct (proj2 (onProfileChangedListener_reverts_once Examples.env3 0
                       (mkEvent (Some Examples.profileC) "user")
                       (with_warningReplies [Some selectCustomizationLabel]
                          (with_pickReplies [Some 2] (Examples.world Examples.fooA []))))
                ltac:(done) Examples.profileC eq_refl eq_refl ltac:(done) Habsent)
      as (l & w1 & _ & _ & _ & _ & _ & Hne & _).
    exact Hne.
  - destruct (proj2 (onProfileChangedListener_reverts_once Examples.env3 0
                       (mkEvent (Some Examples.profileC) "user")
                       (with_warningReplies [Some selectCustomizationLabel]
                          (with_pickReplies [Some 2] (Examples.world Examples.fooA []))))
                ltac:(done) Examples.profileC eq_refl eq_refl ltac:(done) Habsent)
      as (l & w1 & _ & _ & _ & _ & _ & _ & Honce & _).
    exact Honce.
  - destruct (proj2 (onProfileChangedListener_reverts_once Examples.env3 0
                       (mkEvent (Some Examples.profileC) "user")
                       (Examples.world Examples.fooA []))
                ltac:(done) Examples.profileC eq_refl eq_refl ltac:(done) Habsent)
      as (l & w1 & Hconn & _ & _ & _ & _ & _ & _ & Hdismiss).
    injection Hconn as <-.
    destruct (Hdismiss ltac:(done)) as (w' & Hrun & Hstored & Hbase).
    exists w'. done.
Defined.

(** * Further properties of the module *)

(** ** Writing and reading back *)

(** X1. With a valid connection and the feature enabled, the customization
    written by [setSelectedCustomization] is the one
    [getSelectedCustomization] reads, unless its name is the empty string,
    which reads as the base customization; the records of the other
    connections, the persisted snapshots, the override marker and the count
    of new customizations are as they were, and the limit-reached flag is
    cleared. *)
Theorem setSelectedCustomization_read_back (customization : Customization) (w : World)
    (connLabel : string) :
  conn (auth w) = Some connLabel →
  isValidEnterpriseSsoInUse (auth w) = true →
  isCustomizationFeatureEnabled (auth w) = true →
  let w' := snd (setSelectedCustomization customization false w) in
  getSelectedCustomization w'
  = (if bool_decide (Customization.name customization ≠ Some "")
     then customization else baseCustomization)
  ∧ (∀ other, other ≠ connLabel →
       selectedCustomization (globalState w') !! other
       = selectedCustomization (globalState w) !! other)
  ∧ persistedCustomizations (globalState w') = persistedCustomizations (globalState w)
  ∧ overrideV2 (globalState w') = overrideV2 (globalState w)
  ∧ newCustomizations (globalState w') = newCustomizations (globalState w)
  ∧ isFreeTierLimitReached w' = false.
Proof.
  intros Hconn Hvalid Hfeature w'. unfold w'.
  rewrite (setSelectedCustomization_run _ _ connLabel) by done. simpl.
  split.
  - unfold getSelectedCustomization. simpl.
    by rewrite Hconn, Hvalid, Hfeature, lookup_insert_eq.
  - split; [|done]. intros other Hother. by rewrite lookup_insert_ne.
Qed.

Lemma setSelectedCustomization_read_back_witness :
  let w := Examples.world Examples.barC [] in
  getSelectedCustomization (snd (setSelectedCustomization Examples.fooA false w))
  = Examples.fooA
  ∧ getSelectedCustomization
      (snd (setSelectedCustomization (Customization.mk "arn:x" (Some "") None None) false w))
    = baseCustomization.
Proof.
  split.
  - exact (proj1 (setSelectedCustomization_read_back Examples.fooA
                    (Examples.world Examples.barC []) Examples.connLabel
                    eq_refl eq_refl eq_refl)).
  - exact (proj1 (setSelectedCustomization_read_back
                    (Customization.mk "arn:x" (Some "") None None)
                    (Examples.world Examples.barC []) Examples.connLabel
                    eq_refl eq_refl eq_refl)).
Defined.

Lemma setSelectedCustomization_marker_skip (customization : Customization) (w : World) :
  overrideV2 (globalState w) = Some (Customization.arn customization) →
  setSelectedCustomization customization true w = (Returned tt, w).
Proof.
  intros Hprev. unfold setSelectedCustomization, bind, gets, ret.
  destruct (conn (auth w)); [|done].
  destruct (isValidEnterpriseSsoInUse (auth w)); [|done]. simpl.
  rewrite Hprev. by rewrite bool_decide_eq_true_2.
Qed.

Lemma setSelectedCustomization_override_marker (customization : Customization)
    (w : World) (connLabel : string) :
  conn (auth w) = Some connLabel →
  isValidEnterpriseSsoInUse (auth w) = true →
  overrideV2 (globalState (snd (setSelectedCustomization customization true w)))
  = Some (Customization.arn customization).
Proof.
  intros Hconn Hvalid. unfold setSelectedCustomization, bind, gets.
  rewrite Hconn, Hvalid. simpl. by case_bool_decide.
Qed.

Lemma setSelectedCustomization_keeps_marker (customization : Customization) (w : World) :
  overrideV2 (globalState (snd (setSelectedCustomization customization false w)))
  = overrideV2 (globalState w)
  ∧ auth (snd (setSelectedCustomization customization false w)) = auth w.
Proof.
  destruct (connection_cases w) as [(l & Hconn & Hvalid) | Hno].
  - by rewrite (setSelectedCustomization_run _ _ l).
  - by rewrite setSelectedCustomization_skip.
Qed.

(** What an override writes when a valid connection is in use and the
    marker is not the arn of the customization. *)
Lemma setSelectedCustomization_override_run (customization : Customization) (w : World)
    (connLabel : string) :
  conn (auth w) = Some connLabel →
  isValidEnterpriseSsoInUse (auth w) = true →
  overrideV2 (globalState w) ≠ Some (Customization.arn customization) →
  auth (snd (setSelectedCustomization customization true w)) = auth w
  ∧ selectedCustomization (globalState (snd (setSelectedCustomization customization true w)))
    = <[connLabel := customization]> (selectedCustomization (globalState w))
  ∧ overrideV2 (globalState (snd (setSelectedCustomization customization true w)))
    = Some (Customization.arn customization).
Proof.
  intros Hconn Hvalid Hmarker. unfold setSelectedCustomization, bind, gets.
  rewrite Hconn, Hvalid. simpl.
  rewrite bool_decide_eq_false_2 by (intros Heq; by rewrite Heq in Hmarker).
  done.
Qed.

(** X2. The override marker holds the arn of the last override written,
    and of that one only.  Whatever the state, a second call of
    [setSelectedCustomization] with [isOverride] for the same customization
    changes nothing, and it still changes nothing after the user has
    selected another customization in between, so the user's choice stays.
    With a valid connection the first call leaves the marker at the arn of
    the customization, and writes the customization when the marker was
    another before.  But an override of another arn in between takes the
    marker: the first override, coming again after it, is written again,
    over what the user selected. *)
Theorem setSelectedCustomization_last_override (customization chosen : Customization)
    (w : World) :
  let w1 := snd (setSelectedCustomization customization true w) in
  let w2 := snd (setSelectedCustomization chosen false w1) in
  setSelectedCustomization customization true w1 = (Returned tt, w1)
  ∧ setSelectedCustomization customization true w2 = (Returned tt, w2)
  ∧ (∀ connLabel,
       conn (auth w) = Some connLabel →
       isValidEnterpriseSsoInUse (auth w) = true →
       overrideV2 (globalState w1) = Some (Customization.arn customization)
       ∧ (overrideV2 (globalState w) ≠ Some (Customization.arn customization) →
          selectedCustomization (globalState w1) !! connLabel = Some customization)
       ∧ (∀ other,
            Customization.arn other ≠ Customization.arn customization →
            let w3 := snd (setSelectedCustomization chosen false
                             (snd (setSelectedCustomization other true w1))) in
            let w4 := snd (setSelectedCustomization customization true w3) in
            selectedCustomization (globalState w3) !! connLabel = Some chosen
            ∧ selectedCustomization (globalState w4) !! connLabel = Some customization
            ∧ overrideV2 (globalState w4) = Some (Customization.arn customization))).
Proof.
  intros w1 w2.
  destruct (connection_cases w) as [(l & Hconn & Hvalid) | Hno].
  - assert (overrideV2 (globalState w1) = Some (Customization.arn customization)) as H1
      by (by apply (setSelectedCustomization_override_marker _ _ l)).
    assert (auth w1 = auth w) as Hauth1.
    { unfold w1, setSelectedCustomization, bind, gets. rewrite Hconn, Hvalid. simpl.
      by case_bool_decide. }
    split; [by apply setSelectedCustomization_marker_skip|]. split.
    + apply setSelectedCustomization_marker_skip.
      unfold w2. by rewrite (proj1 (setSelectedCustomization_keeps_marker chosen w1)).
    + intros l' Hl' _. rewrite Hconn in Hl'. injection Hl' as <-.
      split; [done|]. split.
      * intros Hfirst. unfold w1.
        rewrite (proj1 (proj2 (setSelectedCustomization_override_run
                                 customization w l Hconn Hvalid Hfirst))).
        apply lookup_insert_eq.
      * intros other Hother w3 w4.
        destruct (setSelectedCustomization_override_run other w1 l)
          as (HauthO & _ & HmarkerO); [by rewrite Hauth1..| |].
        { rewrite H1. intros [= Heq]. by apply Hother. }
        set (wO := snd (setSelectedCustomization other true w1)) in *.
        assert (conn (auth wO) = Some l ∧ isValidEnterpriseSsoInUse (auth wO) = true)
          as [HconnO HvalidO] by (by rewrite HauthO, Hauth1).
        assert (setSelectedCustomization chosen false wO = (Returned tt, w3)) as Hrun3
          by (unfold w3; by destruct (setSelectedCustomization chosen false wO)
                                 as [[[]|e|] w'] eqn:Hrun;
              rewrite (setSelectedCustomization_run _ _ l) in Hrun by done).
        rewrite (setSelectedCustomization_run _ _ l) in Hrun3 by done.
        injection Hrun3 as Hw3.
        assert (auth w3 = auth wO
                ∧ overrideV2 (globalState w3) = Some (Customization.arn other)
                ∧ selectedCustomization (globalState w3) !! l = Some chosen)
          as (Hauth3 & Hmarker3 & Hsel3).
        { rewrite <- Hw3. simpl. split; [done|]. split; [done|]. apply lookup_insert_eq. }
        destruct (setSelectedCustomization_override_run customization w3 l)
          as (_ & Hsel4 & Hmarker4); [by rewrite Hauth3..| |].
        { rewrite Hmarker3. intros [= Heq]. by apply Hother. }
        split; [done|]. split; [|done].
        unfold w4. rewrite Hsel4. apply lookup_insert_eq.
  - assert (w1 = w) as Hw1 by (unfold w1; by rewrite setSelectedCustomization_skip).
    assert (w2 = w) as Hw2
      by (unfold w2; rewrite Hw1; by rewrite setSelectedCustomization_skip).
    rewrite Hw1, Hw2.
    split; [by apply setSelectedCustomization_skip|].
    split; [by apply setSelectedCustomization_skip|].
    intros l' Hl' Hv. destruct Hno as [Hno | Hno]; congruence.
Qed.

(** The service overrides to Foo; the user then chooses Bar; the same
    override comes again and Bar stays selected.  When the service has
    overridden to Foo of the second profile in between, the override to Foo
    is written again and Bar is lost. *)
Lemma setSelectedCustomization_last_override_witness :
  let w := Examples.world Examples.barC [] in
  let w1 := snd (setSelectedCustomization Examples.fooA true w) in
  let w2 := snd (setSelectedCustomization Examples.barC false w1) in
  let w3 := snd (setSelectedCustomization Examples.barC false
                   (snd (setSelectedCustomization Examples.fooB true w1))) in
  getSelectedCustomization w1 = Examples.fooA
  ∧ setSelectedCustomization Examples.fooA true w2 = (Returned tt, w2)
  ∧ getSelectedCustomization w2 = Examples.barC
  ∧ getSelectedCustomization w3 = Examples.barC
  ∧ selectedCustomization
      (globalState (snd (setSelectedCustomization Examples.fooA true w3)))
      !! Examples.connLabel = Some Examples.fooA.
Proof.
  destruct (setSelectedCustomization_last_override Examples.fooA Examples.barC
              (Examples.world Examples.barC [])) as (_ & Hagain & Hvalid).
  destruct (Hvalid Examples.connLabel eq_refl eq_refl) as (_ & _ & Hother).
  destruct (Hother Examples.fooB ltac:(by vm_compute)) as (_ & Hwritten & _).
  split; [by vm_compute|]. split; [exact Hagain|].
  split; [by vm_compute|]. split; [by vm_compute|]. exact Hwritten.
Defined.

Lemma setPersistedCustomizations_run (customizations : list Customization) (w : World)
    (connLabel : string) :
  conn (auth w) = Some connLabel →
  isValidEnterpriseSsoInUse (auth w) = true →
  setPersistedCustomizations customizations w
  = (Returned tt,
     with_globalState
       (mkGlobals (selectedCustomization (globalState w))
                  (<[connLabel := customizations]> (persistedCustomizations (globalState w)))
                  (overrideV2 (globalState w)) (newCustomizations (globalState w))) w).
Proof.
  intros Hconn Hvalid. unfold setPersistedCustomizations, bind, gets.
  by rewrite Hconn, Hvalid.
Qed.

Lemma setPersistedCustomizations_skip (customizations : list Customization) (w : World) :
  isValidEnterpriseSsoInUse (auth w) = false ∨ conn (auth w) = None →
  setPersistedCustomizations customizations w = (Returned tt, w).
Proof.
  unfold setPersistedCustomizations, bind, gets, ret.
  intros [H | H]; rewrite H; destruct (conn (auth w)); done.
Qed.

(** X3. With a valid connection, the snapshot written by
    [setPersistedCustomizations] is the one [getPersistedCustomizations]
    reads; none of the customizations just written, and none that shares its
    arn with one of them, is new afterwards; the snapshots of the other
    connections, the selection records and the trace are as they were.
    A connection with no snapshot reads as the empty list. *)
Theorem setPersistedCustomizations_read_back (customizations : list Customization)
    (w : World) (connLabel : string) :
  conn (auth w) = Some connLabel →
  isValidEnterpriseSsoInUse (auth w) = true →
  let w' := snd (setPersistedCustomizations customizations w) in
  getPersistedCustomizations w' = customizations
  ∧ getNewCustomizations customizations w' = []
  ∧ (∀ available,
       (∀ c, c ∈ available →
             Customization.arn c ∈ (Customization.arn <$> customizations)) →
       getNewCustomizations available w' = [])
  ∧ (∀ other, other ≠ connLabel →
       persistedCustomizations (globalState w') !! other
       = persistedCustomizations (globalState w) !! other)
  ∧ selectedCustomization (globalState w') = selectedCustomization (globalState w)
  ∧ trace w' = trace w
  ∧ (persistedCustomizations (globalState w) !! connLabel = None →
     getPersistedCustomizations w = []).
Proof.
  intros Hconn Hvalid w'. unfold w'.
  rewrite (setPersistedCustomizations_run _ _ connLabel) by done. simpl.
  assert (getPersistedCustomizations
            (with_globalState
               (mkGlobals (selectedCustomization (globalState w))
                  (<[connLabel := customizations]>
                     (persistedCustomizations (globalState w)))
                  (overrideV2 (globalState w)) (newCustomizations (globalState w))) w)
          = customizations) as Hread.
  { unfold getPersistedCustomizations. simpl.
    by rewrite Hconn, Hvalid, lookup_insert_eq. }
  split; [done|]. split; [|split].
  - apply getNewCustomizations_nil_iff. rewrite Hread. intros c Hc.
    by apply list_elem_of_fmap_2.
  - intros available Hall. apply getNewCustomizations_nil_iff. by rewrite Hread.
  - split; [|split; [done|split; [done|]]].
    + intros other Hother. by rewrite lookup_insert_ne.
    + intros Hnone. unfold getPersistedCustomizations.
      by rewrite Hconn, Hvalid, Hnone.
Qed.

Lemma setPersistedCustomizations_read_back_witness :
  let w := Examples.world Examples.fooA [] in
  let w' := snd (setPersistedCustomizations [Examples.fooA; Examples.barC] w) in
  getNewCustomizations [Examples.fooA; Examples.barC] w = [Examples.fooA; Examples.barC]
  ∧ getPersistedCustomizations w' = [Examples.fooA; Examples.barC]
  ∧ getNewCustomizations [Examples.fooA; Examples.barC] w' = [].
Proof.
  split; [by vm_compute|].
  destruct (setPersistedCustomizations_read_back [Examples.fooA; Examples.barC]
              (Examples.world Examples.fooA []) Examples.connLabel eq_refl eq_refl)
    as (Hread & Hnew & _).
  split; [exact Hread|exact Hnew].
Defined.

(** ** What the operations leave alone *)

#[local] Instance bystanders_preorder : PreOrder bystanders.
Proof.
  split; [intros w; repeat split; done|].
  intros w1 w2 w3 (? & ? & ? & ?) (? & ? & ? & ?).
  split; [congruence|]. split; [congruence|]. split; [congruence|]. auto.
Qed.

#[local] Instance other_connections_preorder : PreOrder other_connections.
Proof.
  split; [intros w; repeat split; done|].
  intros w1 w2 w3 [Hc1 H1] [Hc2 H2]. split; [congruence|].
  intros l Hl. destruct (H1 l Hl) as [? ?].
  destruct (H2 l) as [? ?]; [congruence|]. split; congruence.
Qed.

#[local] Instance count_cleared_preorder : PreOrder count_cleared.
Proof.
  split; [by intros w H|]. intros w1 w2 w3 H1 H2 H. apply H2, H1, H.
Qed.

Section Keeps.
Context (R : relation World) `{!PreOrder R}.

Lemma keeps_ret {A} (a : A) : keeps R (ret a).
Proof. intros w. reflexivity. Qed.

Lemma keeps_throw {A} (e : JsError) : keeps R (throw (A:=A) e).
Proof. intros w. reflexivity. Qed.

Lemma keeps_exhausted {A} : keeps R (exhausted (A:=A)).
Proof. intros w. reflexivity. Qed.

Lemma keeps_gets {A} (f : World → A) : keeps R (gets f).
Proof. intros w. reflexivity. Qed.

Lemma keeps_modify (f : World → World) : (∀ w, R w (f w)) → keeps R (modify f).
Proof. intros Hf w. apply Hf. Qed.

Lemma keeps_bind {A B} (m : M A) (k : A → M B) :
  keeps R m → (∀ a, keeps R (k a)) → keeps R (bind m k).
Proof.
  intros Hm Hk w. unfold bind. pose proof (Hm w) as HR.
  destruct (m w) as [[a|e|] w1]; simpl in *; [|done..].
  etrans; [done|]. apply Hk.
Qed.

Lemma keeps_try_catch {A} (m : M A) (handler : JsError → M A) :
  keeps R m → (∀ e, keeps R (handler e)) → keeps R (try_catch m handler).
Proof.
  intros Hm Hh w. unfold try_catch. pose proof (Hm w) as HR.
  destruct (m w) as [[a|e|] w1]; simpl in *; [done| |done].
  etrans; [done|]. apply Hh.
Qed.

Lemma keeps_when (b : bool) (m : M unit) : keeps R m → keeps R (when b m).
Proof. destruct b; [done|apply keeps_ret]. Qed.

Lemma keeps_mapM {A B} (f : A → M B) (l : list A) :
  (∀ x, keeps R (f x)) → keeps R (mapM f l).
Proof.
  intros Hf. induction l as [|x l IH]; [apply keeps_ret|]. simpl.
  apply keeps_bind; [done|]. intros y. apply keeps_bind; [done|].
  intros ys. apply keeps_ret.
Qed.

End Keeps.

Ltac keeps_apply lem := apply lem; try exact _.

(** Splits an operation into its calls, down to the updates of the state,
    which [solve_update] closes; calls with a hint are not opened. *)
Create HintDb keeps.

Ltac keeps_steps solve_update :=
  repeat first
    [ solve [auto 2 with keeps nocore]
    | keeps_apply @keeps_mapM; intros ?
    | keeps_apply @keeps_try_catch; [|intros ?]
    | keeps_apply @keeps_bind; [|intros ?]
    | keeps_apply @keeps_when
    | keeps_apply @keeps_ret
    | keeps_apply @keeps_gets
    | keeps_apply @keeps_throw
    | keeps_apply @keeps_exhausted
    | solve [keeps_apply keeps_modify; intros ?; solve_update]
    | match goal with |- keeps _ (match ?x with _ => _ end) => destruct x end ].

Ltac solve_update := solve [hnf; cbn; intuition].

Lemma keeps_bystanders_setSelectedCustomization (customization : Customization) :
  keeps bystanders (setSelectedCustomization customization false).
Proof.
  intros w. destruct (connection_cases w) as [(l & Hconn & Hvalid) | Hno].
  - by rewrite (setSelectedCustomization_run _ _ l).
  - by rewrite setSelectedCustomization_skip.
Qed.

Lemma keeps_others_setSelectedCustomization (customization : Customization) :
  keeps other_connections (setSelectedCustomization customization false).
Proof.
  intros w. destruct (connection_cases w) as [(l & Hconn & Hvalid) | Hno].
  - rewrite (setSelectedCustomization_run _ _ l) by done. split; [done|]. simpl.
    intros l' Hl'. rewrite lookup_insert_ne by congruence. done.
  - by rewrite setSelectedCustomization_skip.
Qed.

Lemma keeps_others_setPersistedCustomizations (customizations : list Customization) :
  keeps other_connections (setPersistedCustomizations customizations).
Proof.
  intros w. destruct (connection_cases w) as [(l & Hconn & Hvalid) | Hno].
  - rewrite (setPersistedCustomizations_run _ _ l) by done. split; [done|]. simpl.
    intros l' Hl'. rewrite lookup_insert_ne by congruence. done.
  - by rewrite setPersistedCustomizations_skip.
Qed.

Lemma keeps_cleared_setSelectedCustomization (customization : Customization) :
  keeps count_cleared (setSelectedCustomization customization false).
Proof.
  intros w. destruct (connection_cases w) as [(l & Hconn & Hvalid) | Hno].
  - rewrite (setSelectedCustomization_run _ _ l) by done. by intros [? ?].
  - by rewrite setSelectedCustomization_skip.
Qed.

#[local] Hint Resolve keeps_bystanders_setSelectedCustomization
  keeps_others_setSelectedCustomization keeps_others_setPersistedCustomizations
  keeps_cleared_setSelectedCustomization : keeps.

Section KeepsOfTheModule.
Context (env : Env) (R : relation World) `{!PreOrder R}.
Context (Hupdate_trace : ∀ tr w, R w (with_trace tr w)).
Context (Hupdate_warningReplies : ∀ r w, R w (with_warningReplies r w)).
Context (Hupdate_pickReplies : ∀ r w, R w (with_pickReplies r w)).
Context (Hupdate_profile :
  ∀ w b p, R w (with_auth (mkAuth b (isValidEnterpriseSsoInUse (auth w))
                                  (conn (auth w)) p) w)).
Context (HsetSelected : ∀ c, keeps R (setSelectedCustomization c false)).
Context (HsetPersisted : ∀ cs, keeps R (setPersistedCustomizations cs)).
Context (HsetNew0 : keeps R (setNewCustomizationsAvailable 0)).

Hint Resolve HsetSelected HsetPersisted HsetNew0 : keeps.

Ltac solve_frame :=
  solve [ apply Hupdate_trace | apply Hupdate_warningReplies
        | apply Hupdate_pickReplies | apply Hupdate_profile ].

Lemma keeps_collectCustomizations (profiles : list RegionProfile)
    (items : list Customization) :
  keeps R (collectCustomizations env profiles items).
Proof.
  revert items. induction profiles as [|p ps IH]; intros items; simpl.
  - keeps_steps solve_frame.
  - unfold CustomizationProvider.init,
      CustomizationProvider.listAvailableCustomizations.
    keeps_steps solve_frame.
Qed.

Hint Resolve keeps_collectCustomizations : keeps.

Lemma keeps_getAvailableCustomizationsList :
  keeps R (getAvailableCustomizationsList env).
Proof. unfold getAvailableCustomizationsList. keeps_steps solve_frame. Qed.

Lemma keeps_selectCustomization (customization : Customization) :
  keeps R (selectCustomization customization).
Proof. unfold selectCustomization. keeps_steps solve_frame. Qed.

Hint Resolve keeps_getAvailableCustomizationsList keeps_selectCustomization : keeps.

Lemma keeps_showQuickPick (items : list PickItem) : keeps R (showQuickPick items).
Proof.
  unfold showQuickPick, runOnClick, switchRegionProfile, set_activeRegionProfile.
  keeps_steps solve_frame.
Qed.

Lemma keeps_showWarningMessage (message : string) (items : list string) :
  keeps R (showWarningMessage message items).
Proof. unfold showWarningMessage. keeps_steps solve_frame. Qed.

Hint Resolve keeps_showQuickPick keeps_showWarningMessage : keeps.

Lemma keeps_createCustomizationItems_over (k : M unit) :
  keeps R k → keeps R (createCustomizationItems_over env k).
Proof.
  intros Hk. unfold createCustomizationItems_over, createCustomizationItem.
  keeps_steps solve_frame.
Qed.

Hint Resolve keeps_createCustomizationItems_over : keeps.

Lemma keeps_showCustomizationPrompt_over (k : M unit) :
  keeps R k → keeps R (showCustomizationPrompt_over env k).
Proof. intros Hk. unfold showCustomizationPrompt_over. keeps_steps solve_frame. Qed.

Hint Resolve keeps_showCustomizationPrompt_over : keeps.

Lemma keeps_switchToBaseCustomizationAndNotify (fuel : nat) :
  keeps R (switchToBaseCustomizationAndNotify env fuel).
Proof.
  induction fuel as [|fuel IH]; simpl; keeps_steps solve_frame.
Qed.

Hint Resolve keeps_switchToBaseCustomizationAndNotify : keeps.

Lemma keeps_showCustomizationPrompt (fuel : nat) :
  keeps R (showCustomizationPrompt env fuel).
Proof. unfold showCustomizationPrompt. keeps_steps solve_frame. Qed.

Lemma keeps_onProfileChangedListener (fuel : nat) (event : ProfileChangedEvent) :
  keeps R (onProfileChangedListener env fuel event).
Proof.
  unfold onProfileChangedListener, CustomizationProvider.init,
    CustomizationProvider.listAvailableCustomizations.
  keeps_steps solve_frame.
Qed.

End KeepsOfTheModule.

Lemma keeps_bystanders_setPersistedCustomizations (customizations : list Customization) :
  keeps bystanders (setPersistedCustomizations customizations).
Proof. unfold setPersistedCustomizations. keeps_steps solve_update. Qed.

Lemma keeps_bystanders_setNewCustomizationsAvailable (num : nat) :
  keeps bystanders (setNewCustomizationsAvailable num).
Proof. unfold setNewCustomizationsAvailable. keeps_steps solve_update. Qed.

Lemma keeps_others_setNewCustomizationsAvailable (num : nat) :
  keeps other_connections (setNewCustomizationsAvailable num).
Proof. unfold setNewCustomizationsAvailable. keeps_steps solve_update. Qed.

Lemma keeps_cleared_setPersistedCustomizations (customizations : list Customization) :
  keeps count_cleared (setPersistedCustomizations customizations).
Proof. unfold setPersistedCustomizations. keeps_steps solve_update. Qed.

Lemma keeps_cleared_setNewCustomizationsAvailable :
  keeps count_cleared (setNewCustomizationsAvailable 0).
Proof. unfold setNewCustomizationsAvailable. keeps_steps solve_update. Qed.

Lemma bystanders_frame :
  (∀ tr w, bystanders w (with_trace tr w))
  ∧ (∀ r w, bystanders w (with_warningReplies r w))
  ∧ (∀ r w, bystanders w (with_pickReplies r w))
  ∧ (∀ w b p, bystanders w (with_auth (mkAuth b (isValidEnterpriseSsoInUse (auth w))
                                              (conn (auth w)) p) w)).
Proof. split; [|split; [|split]]; intros; hnf; cbn; intuition. Qed.

Lemma other_connections_frame :
  (∀ tr w, other_connections w (with_trace tr w))
  ∧ (∀ r w, other_connections w (with_warningReplies r w))
  ∧ (∀ r w, other_connections w (with_pickReplies r w))
  ∧ (∀ w b p, other_connections w
                (with_auth (mkAuth b (isValidEnterpriseSsoInUse (auth w))
                                   (conn (auth w)) p) w)).
Proof. split; [|split; [|split]]; intros; hnf; cbn; intuition. Qed.

Lemma count_cleared_frame :
  (∀ tr w, count_cleared w (with_trace tr w))
  ∧ (∀ r w, count_cleared w (with_warningReplies r w))
  ∧ (∀ r w, count_cleared w (with_pickReplies r w))
  ∧ (∀ w b p, count_cleared w
                (with_auth (mkAuth b (isValidEnterpriseSsoInUse (auth w))
                                   (conn (auth w)) p) w)).
Proof. split; [|split; [|split]]; intros; hnf; cbn; intuition. Qed.

(** Closes the side conditions of the lemmas of the section above for the
    three relations. *)
Ltac keeps_facts :=
  first
    [ exact _
    | apply bystanders_frame | apply other_connections_frame | apply count_cleared_frame
    | apply keeps_bystanders_setSelectedCustomization
    | apply keeps_others_setSelectedCustomization
    | apply keeps_cleared_setSelectedCustomization
    | apply keeps_bystanders_setPersistedCustomizations
    | apply keeps_others_setPersistedCustomizations
    | apply keeps_cleared_setPersistedCustomizations
    | apply keeps_bystanders_setNewCustomizationsAvailable
    | apply keeps_others_setNewCustomizationsAvailable
    | apply keeps_cleared_setNewCustomizationsAvailable ].

Section KeepsOfNotify.
Context (env : Env) (R : relation World) `{!PreOrder R}.
Context (Hswitch : ∀ fuel, keeps R (switchToBaseCustomizationAndNotify env fuel)).
Context (Hfetch : keeps R (getAvailableCustomizationsList env)).
Context (Hprompt : ∀ fuel, keeps R (showCustomizationPrompt env fuel)).
Context (Hupdate_trace : ∀ tr w, R w (with_trace tr w)).
Context (Hupdate_profile :
  ∀ w b p, R w (with_auth (mkAuth b (isValidEnterpriseSsoInUse (auth w))
                                  (conn (auth w)) p) w)).
Context (HsetSelected : ∀ c, keeps R (setSelectedCustomization c false)).
Context (HsetPersisted : ∀ cs, keeps R (setPersistedCustomizations cs)).
Context (HsetNew : ∀ num, keeps R (setNewCustomizationsAvailable num)).

Hint Resolve Hswitch Hfetch Hprompt HsetSelected HsetPersisted HsetNew : keeps.

Ltac solve_frame := solve [ apply Hupdate_trace | apply Hupdate_profile ].

Lemma keeps_notifyNewCustomizations (fuel : nat) :
  keeps R (notifyNewCustomizations env fuel).
Proof.
  unfold notifyNewCustomizations, fetchOrDisable, set_isCustomizationFeatureEnabled.
  keeps_steps solve_frame.
Qed.

Lemma keeps_onNewCustomizationsResponse (fuel : nat) (resp : option string) :
  keeps R (onNewCustomizationsResponse env fuel resp).
Proof. unfold onNewCustomizationsResponse. keeps_steps solve_frame. Qed.

End KeepsOfNotify.

(** X4. Every operation of the module leaves the records of the other
    connections as they were: the selection and the snapshot are read and
    written under the label of the connection in use only. *)
Theorem operations_keep_other_connections (env : Env) (fuel : nat)
    (event : ProfileChangedEvent) (customization : Customization)
    (resp : option string) (w : World) :
  other_connections w (snd (onProfileChangedListener env fuel event w))
  ∧ other_connections w (snd (notifyNewCustomizations env fuel w))
  ∧ other_connections w (snd (showCustomizationPrompt env fuel w))
  ∧ other_connections w (snd (selectCustomization customization w))
  ∧ other_connections w (snd (onNewCustomizationsResponse env fuel resp w)).
Proof.
  split; [|split; [|split; [|split]]].
  - apply keeps_onProfileChangedListener; keeps_facts.
  - apply keeps_notifyNewCustomizations; try keeps_facts; intros;
      first [ apply keeps_switchToBaseCustomizationAndNotify
            | apply keeps_getAvailableCustomizationsList ]; keeps_facts.
  - apply keeps_showCustomizationPrompt; keeps_facts.
  - apply keeps_selectCustomization; keeps_facts.
  - apply keeps_onNewCustomizationsResponse; try keeps_facts; intros;
      apply keeps_showCustomizationPrompt; keeps_facts.
Qed.

(** X5. No operation of the module changes the connection, the validity of its
    enterprise SSO or the override marker (none of them selects as an
    override), and none sets the limit-reached flag: once cleared it stays
    cleared. *)
Theorem operations_keep_bystanders (env : Env) (fuel : nat)
    (event : ProfileChangedEvent) (customization : Customization)
    (resp : option string) (w : World) :
  bystanders w (snd (onProfileChangedListener env fuel event w))
  ∧ bystanders w (snd (notifyNewCustomizations env fuel w))
  ∧ bystanders w (snd (showCustomizationPrompt env fuel w))
  ∧ bystanders w (snd (selectCustomization customization w))
  ∧ bystanders w (snd (onNewCustomizationsResponse env fuel resp w)).
Proof.
  split; [|split; [|split; [|split]]].
  - apply keeps_onProfileChangedListener; keeps_facts.
  - apply keeps_notifyNewCustomizations; try keeps_facts; intros;
      first [ apply keeps_switchToBaseCustomizationAndNotify
            | apply keeps_getAvailableCustomizationsList ]; keeps_facts.
  - apply keeps_showCustomizationPrompt; keeps_facts.
  - apply keeps_selectCustomization; keeps_facts.
  - apply keeps_onNewCustomizationsResponse; try keeps_facts; intros;
      apply keeps_showCustomizationPrompt; keeps_facts.
Qed.

(** X6. Opening the picker clears the count of new customizations and the
    limit-reached flag, and they are still cleared when
    [showCustomizationPrompt] ends, however it ends and whatever the user
    chose. *)
Theorem showCustomizationPrompt_clears_count (env : Env) (fuel : nat) (w : World) :
  getNewCustomizationsAvailable (snd (showCustomizationPrompt env fuel w)) = 0
  ∧ isFreeTierLimitReached (snd (showCustomizationPrompt env fuel w)) = false.
Proof.
  unfold showCustomizationPrompt, showCustomizationPrompt_over.
  unfold bind at 1.
  change (setNewCustomizationsAvailable 0 w)
    with (Returned tt,
          with_isFreeTierLimitReached false
            (with_globalState
               (mkGlobals (selectedCustomization (globalState w))
                          (persistedCustomizations (globalState w))
                          (overrideV2 (globalState w)) (Some 0)) w)).
  cbv beta iota.
  set (w0 := with_isFreeTierLimitReached false _).
  set (rest := bind _ _).
  assert (keeps count_cleared rest) as Hrest.
  { unfold rest. apply keeps_bind; [exact _| |intros items].
    - apply keeps_createCustomizationItems_over; try keeps_facts.
      apply keeps_switchToBaseCustomizationAndNotify; keeps_facts.
    - apply keeps_showQuickPick; keeps_facts. }
  destruct (Hrest w0) as [Hcount Hflag]; [done|].
  unfold getNewCustomizationsAvailable. by rewrite Hcount.
Qed.

(** ** The listener of profile changes, its other paths *)

Lemma setSelectedCustomization_quiet (customization : Customization) (w : World) :
  notifications (trace (snd (setSelectedCustomization customization false w)))
  = notifications (trace w)
  ∧ warnings (trace (snd (setSelectedCustomization customization false w)))
    = warnings (trace w).
Proof.
  destruct (connection_cases w) as [(l & Hconn & Hvalid) | Hno].
  - rewrite (setSelectedCustomization_run _ _ l) by done. simpl.
    rewrite notifications_app, warnings_app. unfold warnings. simpl.
    rewrite app_nil_r. split; [done|lia].
  - by rewrite setSelectedCustomization_skip.
Qed.

(** X7. When the event of a profile change carries no profile (and was not
    caused by a customization), the listener sets the base customization and
    nothing else: no service call, no warning, no notification; the base
    customization is the selected one afterwards. *)
Theorem onProfileChangedListener_no_profile (env : Env) (fuel : nat)
    (event : ProfileChangedEvent) (w : World) :
  intent event ≠ "customization" →
  event_profile event = None →
  onProfileChangedListener env fuel event w
  = setSelectedCustomization baseCustomization false w
  ∧ fst (onProfileChangedListener env fuel event w) = Returned tt
  ∧ getSelectedCustomization (snd (onProfileChangedListener env fuel event w))
    = baseCustomization
  ∧ warnings (trace (snd (onProfileChangedListener env fuel event w)))
    = warnings (trace w)
  ∧ notifications (trace (snd (onProfileChangedListener env fuel event w)))
    = notifications (trace w).
Proof.
  intros Hintent Hprofile.
  assert (onProfileChangedListener env fuel event w
          = setSelectedCustomization baseCustomization false w) as ->.
  { unfold onProfileChangedListener.
    rewrite bool_decide_eq_false_2 by done. by rewrite Hprofile. }
  split; [done|]. split; [apply setSelectedCustomization_returns|].
  split; [apply setSelectedCustomization_base_selected|].
  split; apply setSelectedCustomization_quiet.
Qed.

Lemma onProfileChangedListener_no_profile_witness :
  let w := Examples.world Examples.fooA [] in
  let event := mkEvent None "auth" in
  getSelectedCustomization w = Examples.fooA
  ∧ getSelectedCustomization (snd (onProfileChangedListener Examples.env3 0 event w))
    = baseCustomization
  ∧ warnings (trace (snd (onProfileChangedListener Examples.env3 0 event w))) = 0.
Proof.
  split; [by vm_compute|].
  destruct (onProfileChangedListener_no_profile Examples.env3 0 (mkEvent None "auth")
              (Examples.world Examples.fooA []) ltac:(done) eq_refl)
    as (_ & _ & Hbase & Hwarn & _).
  split; [exact Hbase|exact Hwarn].
Defined.

Lemma find_arn_Some (arn : string) (l : list Customization) :
  arn ∈ (Customization.arn <$> l) →
  is_Some (List.find (λ it, bool_decide (Customization.arn it = arn)) l).
Proof.
  induction l as [|c l IH]; simpl; intros Hin.
  - by apply elem_of_nil in Hin.
  - case_bool_decide as Hc; [by eexists|].
    apply elem_of_cons in Hin as [Heq | Hin]; [by rewrite Heq in Hc|]. by apply IH.
Qed.

(** X8. The listener leaves the whole state as it was when the selection needs
    no revert: when the selected customization is the base one (no client is
    made and the service is not called), and when a client is made and the
    selected arn is among the arns listed for the profile.  When the
    selection is not the base one and no client can be made for the profile,
    the listener rejects with the error of the client, the state as it
    was. *)
Theorem onProfileChangedListener_selection_kept (env : Env) (fuel : nat)
    (event : ProfileChangedEvent) (profile : RegionProfile) (w : World) :
  intent event ≠ "customization" →
  event_profile event = Some profile →
  (Customization.arn (getSelectedCustomization w) = "" →
   onProfileChangedListener env fuel event w = (Returned tt, w))
  ∧ (createQClient env profile = Resolves tt →
     Customization.arn (getSelectedCustomization w)
       ∈ (Customization.arn <$> listed env profile) →
     onProfileChangedListener env fuel event w = (Returned tt, w))
  ∧ (∀ e,
       Customization.arn (getSelectedCustomization w) ≠ "" →
       createQClient env profile = Rejects e →
       onProfileChangedListener env fuel event w = (Thrown e, w)).
Proof.
  intros Hintent Hprofile. unfold onProfileChangedListener.
  rewrite bool_decide_eq_false_2 by done. rewrite Hprofile.
  split; [|split]; unfold bind at 1, gets at 1.
  - intros ->. done.
  - intros Hclient Hlisted.
    destruct (decide (Customization.arn (getSelectedCustomization w) = ""))
      as [Hbase | Hcustom].
    { by rewrite Hbase. }
    rewrite bool_decide_eq_true_2 by (by apply length_pos_not_empty).
    unfold bind at 1. rewrite init_run, Hclient.
    unfold bind at 1. rewrite listAvailableCustomizations_run.
    cbn [CustomizationProvider.profile].
    destruct (find_arn_Some _ _ Hlisted) as [found ->].
    unfold listing_failure. unfold listed in Hlisted.
    destruct (client_listAvailableCustomizations env _ _).
    + unfold ret. by rewrite app_nil_r, with_trace_same.
    + simpl in Hlisted. by apply elem_of_nil in Hlisted.
  - intros e Hcustom Hclient.
    rewrite bool_decide_eq_true_2 by (by apply length_pos_not_empty).
    unfold bind at 1. by rewrite init_run, Hclient.
Qed.

Lemma onProfileChangedListener_selection_kept_witness :
  let w := Examples.world Examples.barC [] in
  let event := mkEvent (Some Examples.profileC) "user" in
  onProfileChangedListener Examples.env3 0 event w = (Returned tt, w)
  ∧ onProfileChangedListener Examples.env3 0 event
      (Examples.world baseCustomization []) = (Returned tt, Examples.world baseCustomization [])
  ∧ onProfileChangedListener Examples.env_noclient 0
      (mkEvent (Some Examples.profileB) "user") w = (Thrown (PlainError "no client"), w).
Proof.
  split; [|split].
  - apply (proj1 (proj2 (onProfileChangedListener_selection_kept Examples.env3 0
                           (mkEvent (Some Examples.profileC) "user") Examples.profileC
                           (Examples.world Examples.barC []) ltac:(done) eq_refl)));
      [reflexivity|].
    change (listed Examples.env3 Examples.profileC) with [Examples.barC].
    apply list_elem_of_fmap_2. left.
  - exact (proj1 (onProfileChangedListener_selection_kept Examples.env3 0
                    (mkEvent (Some Examples.profileC) "user") Examples.profileC
                    (Examples.world baseCustomization []) ltac:(done) eq_refl) eq_refl).
  - exact (proj2 (proj2 (onProfileChangedListener_selection_kept Examples.env_noclient 0
                           (mkEvent (Some Examples.profileB) "user") Examples.profileB
                           (Examples.world Examples.barC []) ltac:(done) eq_refl))
                 (PlainError "no client") ltac:(done) eq_refl).
Defined.

(** ** Listing across profiles, the failures that are not of a listing *)

Lemma collectCustomizations_client_failure (env : Env) (before after : list RegionProfile)
    (profile : RegionProfile) (e : JsError) (items : list Customization) (w : World) :
  (∀ p, p ∈ before → createQClient env p = Resolves tt) →
  createQClient env profile = Rejects e →
  collectCustomizations env (before ++ profile :: after) items w
  = (Thrown e, with_trace (trace w ++ (before ≫= listing_failure env)) w).
Proof.
  revert items w. induction before as [|p ps IH]; intros items w Hclients Hfail.
  - simpl. unfold bind at 1. rewrite init_run, Hfail.
    by rewrite app_nil_r, with_trace_same.
  - simpl. unfold bind at 1. rewrite init_run, (Hclients p) by left.
    unfold bind at 1. rewrite listAvailableCustomizations_run.
    cbn [CustomizationProvider.profile].
    rewrite IH; [|intros q Hq; apply Hclients; by right|done].
    rewrite with_trace_twice. cbn [trace with_trace]. by rewrite <- !app_assoc.
Qed.

(** X9. [getAvailableCustomizationsList] when something other than a listing
    fails.  When the profiles cannot be listed it logs the error and returns
    the empty list, no client made.  When the client of a profile cannot be
    made it rejects with that error: the customizations collected from the
    profiles before it are lost, the profiles after it are not visited, and
    the state has only the log lines of the listings that failed before. *)
Theorem getAvailableCustomizationsList_other_failures (env : Env) (w : World) :
  (∀ e,
     listRegionProfile env = Rejects e →
     getAvailableCustomizationsList env w
     = (Returned [],
        with_trace
          (trace w
           ++ [LogError "Failed to list customizations because listAvailableProfiles failed %s"
                        [ArgString (error_message e)]]) w))
  ∧ (∀ before profile after e,
       listRegionProfile env = Resolves (before ++ profile :: after) →
       (∀ p, p ∈ before → createQClient env p = Resolves tt) →
       createQClient env profile = Rejects e →
       getAvailableCustomizationsList env w
       = (Thrown e, with_trace (trace w ++ (before ≫= listing_failure env)) w)).
Proof.
  unfold getAvailableCustomizationsList. split.
  - intros e ->. done.
  - intros before profile after e -> Hclients Hfail.
    by apply collectCustomizations_client_failure.
Qed.

Lemma getAvailableCustomizationsList_other_failures_witness :
  let w := Examples.world Examples.fooA [] in
  getAvailableCustomizationsList Examples.env_noclient w
  = (Thrown (PlainError "no client"), w).
Proof.
  exact (proj2 (getAvailableCustomizationsList_other_failures Examples.env_noclient
                  (Examples.world Examples.fooA []))
               [Examples.profileA] Examples.profileB [Examples.profileC]
               (PlainError "no client") eq_refl
               ltac:(intros p Hp; apply list_elem_of_singleton in Hp; by subst)
               eq_refl).
Defined.

(** ** Building the picker items *)

Lemma mapM_run {A B} (f : A → M B) (P : A → B → Prop) (l : list A) (w : World) :
  (∀ x, x ∈ l → ∃ y, f x w = (Returned y, w) ∧ P x y) →
  ∃ ys, mapM f l w = (Returned ys, w) ∧ Forall2 P l ys.
Proof.
  induction l as [|x l IH]; intros Hf.
  - exists []. split; [done|constructor].
  - destruct (Hf x) as (y & Hy & HP); [left|].
    destruct IH as (ys & Hys & HPs); [intros x' Hx'; apply Hf; by right|].
    exists (y :: ys). split; [|by constructor].
    simpl. unfold bind at 1. rewrite Hy. unfold bind at 1. by rewrite Hys.
Qed.

Lemma mapM_throw {A B} (f : A → M B) (before after : list A) (x : A) (e : JsError)
    (w : World) :
  (∀ y, y ∈ before → ∃ b, f y w = (Returned b, w)) →
  f x w = (Thrown e, w) →
  mapM f (before ++ x :: after) w = (Thrown e, w).
Proof.
  intros Hbefore Hx. induction before as [|y l IH]; simpl.
  - unfold bind at 1. by rewrite Hx.
  - destruct (Hbefore y) as (b & Hb); [left|].
    unfold bind at 1. rewrite Hb. unfold bind at 1.
    rewrite IH; [done|]. intros y' Hy'. apply Hbefore. by right.
Qed.

Lemma collectCustomizations_profiles (env : Env) (profiles : list RegionProfile)
    (items result : list Customization) (w w' : World) :
  collectCustomizations env profiles items w = (Returned result, w') →
  (∀ c, c ∈ items → is_Some (Customization.profile c)) →
  ∀ c, c ∈ result → is_Some (Customization.profile c).
Proof.
  revert items w. induction profiles as [|p ps IH]; intros items w Hrun Hitems.
  - simpl in Hrun. by injection Hrun as <- <-.
  - simpl in Hrun. unfold bind at 1 in Hrun. rewrite init_run in Hrun.
    destruct (createQClient env p); [|done].
    unfold bind at 1 in Hrun. rewrite listAvailableCustomizations_run in Hrun.
    apply (IH _ _ Hrun). intros c Hc.
    apply elem_of_app in Hc as [Hc | Hc]; [by apply Hitems|].
    apply list_elem_of_fmap in Hc as (c0 & -> & _). by eexists.
Qed.

(** Every customization [getAvailableCustomizationsList] returns has its
    profile. *)
Lemma getAvailableCustomizationsList_profiles (env : Env) (available : list Customization)
    (w w' : World) :
  getAvailableCustomizationsList env w = (Returned available, w') →
  ∀ c, c ∈ available → is_Some (Customization.profile c).
Proof.
  unfold getAvailableCustomizationsList.
  destruct (listRegionProfile env) as [profiles|e].
  - intros Hrun. apply (collectCustomizations_profiles _ _ _ _ _ _ Hrun).
    intros c Hc. by apply elem_of_nil in Hc.
  - intros [= <- <-] c Hc. by apply elem_of_nil in Hc.
Qed.

Lemma createCustomizationItem_fields (env : Env) (customization : Customization)
    (persistedArns : list string) (flag : bool) (parsed : ARN) (w : World) :
  parse env (Customization.arn customization) = Resolves parsed →
  is_Some (Customization.profile customization) →
  ∃ item,
    createCustomizationItem env customization persistedArns flag w = (Returned item, w)
    ∧ data item = Some (Customization.arn customization)
    ∧ onClick item = ClickCustomization customization
    ∧ item_description item
      = (if bool_decide (Customization.arn customization ∈ persistedArns)
         then "" else "   New")
    ∧ recentlyUsed item
      = bool_decide (Customization.arn (getSelectedCustomization w)
                     = Customization.arn customization)
    ∧ detail item
      = (if bool_decide (Customization.description customization ≠ Some "")
         then Customization.description customization
         else Some "No description provided").
Proof.
  intros Hparse [p Hp]. unfold createCustomizationItem. rewrite Hparse.
  assert (∃ text, displayedName customization (accountId parsed) flag = Resolves text)
    as (text & ->).
  { unfold displayedName, profile_name. rewrite Hp.
    destruct (Customization.name customization) as [n|]; [|by eexists].
    destruct (truthy n); [|by eexists].
    destruct flag; [destruct (truthy (accountId parsed))|]; by eexists. }
  unfold bind, gets, ret. eexists. split; [reflexivity|]. simpl.
  split; [done|]. split; [done|]. split; [|done].
  unfold renderDescriptionText. by case_bool_decide.
Qed.

Section PickerItems.
Context (env : Env).

(** What [createCustomizationItems] has done when it comes to build the
    items, the selection being available: the snapshot is overwritten, and
    the items are built against the snapshot read before. *)
Lemma createCustomizationItems_over_prelude (k : M unit) (w w1 : World)
    (available : list Customization) :
  getAvailableCustomizationsList env w = (Returned available, w1) →
  isSelectedCustomizationAvailable available (getSelectedCustomization w) = true →
  getPersistedCustomizations w1 = getPersistedCustomizations w
  ∧ getSelectedCustomization (snd (setPersistedCustomizations available w1))
    = getSelectedCustomization w
  ∧ createCustomizationItems_over env k w
    = (if bool_decide (length available = 0) then
         base <- gets (createBaseCustomizationItem env);;
         emit (MessageWithUrl
                 "You dont have access to any Amazon Q customization. Contact your admin for access."
                 (customLearnMoreUri env) "Learn More");;
         ret [base]
       else
         base <- gets (createBaseCustomizationItem env);;
         rest <- mapM (λ c, createCustomizationItem env c
                              (Customization.arn <$> getPersistedCustomizations w)
                              (shouldPrefixAccountId
                                 (customizationNameToCount available) c))
                      available;;
         ret (base :: rest))
        (snd (setPersistedCustomizations available w1)).
Proof.
  intros Hfetch Havailable.
  destruct (getAvailableCustomizationsList_logs_only env w) as (lines & Hw1 & _).
  rewrite Hfetch in Hw1. simpl in Hw1.
  assert (getPersistedCustomizations w1 = getPersistedCustomizations w) as Hpersisted
    by (by rewrite Hw1).
  assert (getSelectedCustomization (snd (setPersistedCustomizations available w1))
          = getSelectedCustomization w) as Hselected.
  { pose proof (runs_setPersistedCustomizations available w1) as [_ [_ Hsel]].
    rewrite (same_selection_selected _ _ Hsel). by rewrite Hw1. }
  split; [done|]. split; [done|].
  unfold createCustomizationItems_over.
  unfold bind at 1. rewrite Hfetch.
  unfold bind at 1, gets at 1. rewrite Hpersisted.
  unfold bind at 1.
  pose proof (runs_setPersistedCustomizations available w1) as [Hne _].
  destruct (setPersistedCustomizations available w1) as [[[]|e|] w2] eqn:Hset.
  - simpl in Hselected. unfold bind at 1, gets at 1.
    rewrite Hselected, Havailable. simpl. done.
  - exfalso. destruct (connection_cases w1) as [(l & Hc & Hv) | Hno].
    + by rewrite (setPersistedCustomizations_run _ _ l) in Hset.
    + by rewrite setPersistedCustomizations_skip in Hset.
  - done.
Qed.

End PickerItems.

(** The items of the available customizations, built in a state [w']. *)
Lemma createCustomizationItems_rest (env : Env) (available listed : list Customization)
    (persistedArns : list string) (w' : World) :
  (∀ c, c ∈ available → ∃ parsed, parse env (Customization.arn c) = Resolves parsed) →
  (∀ c, c ∈ available → is_Some (Customization.profile c)) →
  ∃ items,
    mapM (λ c, createCustomizationItem env c persistedArns
                 (shouldPrefixAccountId (customizationNameToCount listed) c))
         available w'
    = (Returned items, w')
    ∧ Forall2
        (λ c item,
           data item = Some (Customization.arn c)
           ∧ onClick item = ClickCustomization c
           ∧ item_description item
             = (if bool_decide (Customization.arn c ∈ persistedArns) then "" else "   New")
           ∧ recentlyUsed item
             = bool_decide (Customization.arn (getSelectedCustomization w')
                            = Customization.arn c)
           ∧ detail item
             = (if bool_decide (Customization.description c ≠ Some "")
                then Customization.description c
                else Some "No description provided"))
        available items.
Proof.
  intros Hparse Hprofile. apply mapM_run. intros c Hc.
  destruct (Hparse c Hc) as [parsed Hparsed].
  destruct (createCustomizationItem_fields env c persistedArns
              (shouldPrefixAccountId (customizationNameToCount listed) c)
              parsed w' Hparsed (Hprofile c Hc))
    as (item & Hitem & Hfields).
  by exists item.
Qed.

(** The items [createCustomizationItems] hands to the picker, as far as
    choosing among them goes. *)
Lemma createCustomizationItems_built (env : Env) (fuel : nat) (w w1 : World)
    (available : list Customization) :
  getAvailableCustomizationsList env w = (Returned available, w1) →
  available ≠ [] →
  isSelectedCustomizationAvailable available (getSelectedCustomization w) = true →
  (∀ c, c ∈ available → ∃ parsed, parse env (Customization.arn c) = Resolves parsed) →
  let w' := snd (setPersistedCustomizations available w1) in
  ∃ items,
    createCustomizationItems env fuel w
    = (Returned (createBaseCustomizationItem env w' :: items), w')
    ∧ Forall2 (λ c item, onClick item = ClickCustomization c) available items.
Proof.
  intros Hfetch Hsome Havailable Hparse w'.
  destruct (createCustomizationItems_over_prelude env
              (switchToBaseCustomizationAndNotify env fuel) w w1 available
              Hfetch Havailable) as (_ & _ & Hrun).
  fold w' in Hrun.
  unfold createCustomizationItems. rewrite Hrun.
  rewrite bool_decide_eq_false_2 by (by destruct available).
  unfold bind at 1, gets at 1.
  destruct (createCustomizationItems_rest env available available
              (Customization.arn <$> getPersistedCustomizations w) w' Hparse
              (getAvailableCustomizationsList_profiles env available w w1 Hfetch))
    as (items & Hitems & Hall).
  exists items. split.
  - unfold bind at 1. by rewrite Hitems.
  - eapply Forall2_impl; [exact Hall|]. by intros c item (_ & Hclick & _).
Qed.

(** X10. When customizations are available, the selection among them (or the
    base one) and every arn an ARN, [createCustomizationItems] returns the
    base item first and then one item for each available customization, in
    their order: the item carries the arn and selects the customization when
    clicked; it is marked new exactly when the arn is not in the snapshot
    read before the call, although the snapshot has been overwritten by
    then; it is marked as in use exactly when its arn is the selected one,
    the base item when the base customization is the selected one; and its
    detail is the description of the customization, replaced by "No
    description provided" when that is the empty string (a missing
    description is left missing). *)
Theorem createCustomizationItems_items (env : Env) (fuel : nat) (w w1 : World)
    (available : list Customization) :
  getAvailableCustomizationsList env w = (Returned available, w1) →
  available ≠ [] →
  isSelectedCustomizationAvailable available (getSelectedCustomization w) = true →
  (∀ c, c ∈ available → ∃ parsed, parse env (Customization.arn c) = Resolves parsed) →
  let w' := snd (setPersistedCustomizations available w1) in
  ∃ items,
    createCustomizationItems env fuel w
    = (Returned (createBaseCustomizationItem env w' :: items), w')
    ∧ recentlyUsed (createBaseCustomizationItem env w')
      = bool_decide (Customization.arn (getSelectedCustomization w) = "")
    ∧ Forall2
        (λ c item,
           data item = Some (Customization.arn c)
           ∧ onClick item = ClickCustomization c
           ∧ item_description item
             = (if bool_decide (Customization.arn c
                                ∈ (Customization.arn <$> getPersistedCustomizations w))
                then "" else "   New")
           ∧ recentlyUsed item
             = bool_decide (Customization.arn (getSelectedCustomization w)
                            = Customization.arn c)
           ∧ detail item
             = (if bool_decide (Customization.description c ≠ Some "")
                then Customization.description c
                else Some "No description provided"))
        available items.
Proof.
  intros Hfetch Hsome Havailable Hparse w'.
  destruct (createCustomizationItems_over_prelude env
              (switchToBaseCustomizationAndNotify env fuel) w w1 available
              Hfetch Havailable) as (_ & Hselected & Hrun).
  fold w' in Hselected, Hrun.
  unfold createCustomizationItems. rewrite Hrun.
  rewrite bool_decide_eq_false_2 by (by destruct available).
  unfold bind at 1, gets at 1.
  destruct (createCustomizationItems_rest env available available
              (Customization.arn <$> getPersistedCustomizations w) w' Hparse
              (getAvailableCustomizationsList_profiles env available w w1 Hfetch))
    as (items & Hitems & Hall).
  rewrite Hselected in Hall.
  exists items. split; [|split; [|exact Hall]].
  - unfold bind at 1. by rewrite Hitems.
  - unfold createBaseCustomizationItem. simpl. by rewrite Hselected.
Qed.

(** The three profiles of the examples, Foo of the first one selected and
    alone in the snapshot. *)
Lemma createCustomizationItems_items_witness :
  let w := Examples.world Examples.fooA [Examples.fooA] in
  (λ item, (data item, item_description item, recentlyUsed item))
    <$> match fst (createCustomizationItems Examples.env_ok 0 w) with
        | Returned items => items
        | _ => []
        end
  = [(None, "", false);
     (Some (Customization.arn Examples.fooA), "", true);
     (Some (Customization.arn Examples.fooB), "   New", false);
     (Some (Customization.arn Examples.barC), "   New", false)]
  ∧ ∃ items,
      fst (createCustomizationItems Examples.env_ok 0 w)
      = Returned (createBaseCustomizationItem Examples.env_ok
                    (snd (setPersistedCustomizations Examples.available_ok w)) :: items)
      ∧ length items = 3.
Proof.
  split; [by vm_compute|].
  destruct (createCustomizationItems_items Examples.env_ok 0
              (Examples.world Examples.fooA [Examples.fooA])
              (Examples.world Examples.fooA [Examples.fooA])
              Examples.available_ok eq_refl ltac:(done) eq_refl)
    as (items & Hrun & _ & Hall).
  { intros c Hc. repeat (apply elem_of_cons in Hc as [-> | Hc]; [by eexists|]).
    by apply elem_of_nil in Hc. }
  exists items. split; [by rewrite Hrun|].
  apply Forall2_length in Hall. by rewrite <- Hall.
Defined.

(** X11. When no customization is available and the base customization is the
    selected one, [createCustomizationItems] returns the base item alone,
    marked as in use, and tells the user once that there is no
    customization; the snapshot of a valid connection is emptied. *)
Theorem createCustomizationItems_none_available (env : Env) (fuel : nat) (w w1 : World) :
  getAvailableCustomizationsList env w = (Returned [], w1) →
  Customization.arn (getSelectedCustomization w) = "" →
  let w2 := snd (setPersistedCustomizations [] w1) in
  createCustomizationItems env fuel w
  = (Returned [createBaseCustomizationItem env w2],
     with_trace
       (trace w2
        ++ [MessageWithUrl
              "You dont have access to any Amazon Q customization. Contact your admin for access."
              (customLearnMoreUri env) "Learn More"]) w2)
  ∧ recentlyUsed (createBaseCustomizationItem env w2) = true
  ∧ (∀ connLabel,
       conn (auth w) = Some connLabel →
       isValidEnterpriseSsoInUse (auth w) = true →
       getPersistedCustomizations w2 = []).
Proof.
  intros Hfetch Hbase w2.
  assert (isSelectedCustomizationAvailable [] (getSelectedCustomization w) = true)
    as Havailable
    by (unfold isSelectedCustomizationAvailable; by rewrite Hbase).
  destruct (createCustomizationItems_over_prelude env
              (switchToBaseCustomizationAndNotify env fuel) w w1 []
              Hfetch Havailable) as (_ & Hselected & Hrun).
  fold w2 in Hselected, Hrun.
  unfold createCustomizationItems. rewrite Hrun. split; [done|]. split.
  - unfold createBaseCustomizationItem. simpl. by rewrite Hselected, Hbase.
  - intros l Hconn Hvalid.
    destruct (getAvailableCustomizationsList_logs_only env w) as (lines & Hw1 & _).
    rewrite Hfetch in Hw1. simpl in Hw1.
    unfold w2. rewrite (setPersistedCustomizations_run _ _ l) by (by rewrite Hw1).
    unfold getPersistedCustomizations. simpl.
    rewrite Hw1. simpl. by rewrite Hconn, Hvalid, lookup_insert_eq.
Qed.

Lemma createCustomizationItems_none_available_witness :
  let w := Examples.world baseCustomization [Examples.fooA] in
  label <$> match fst (createCustomizationItems Examples.env_empty 0 w) with
            | Returned items => items
            | _ => []
            end
  = ["$(circuit-board) Amazon Q foundation (Default)"]
  ∧ notifications (trace (snd (createCustomizationItems Examples.env_empty 0 w)))
    = [MessageWithUrl
         "You dont have access to any Amazon Q customization. Contact your admin for access."
         (customLearnMoreUri Examples.env_empty) "Learn More"]
  ∧ getPersistedCustomizations (snd (createCustomizationItems Examples.env_empty 0 w)) = [].
Proof.
  pose proof (proj1 (createCustomizationItems_none_available Examples.env_empty 0
                       (Examples.world baseCustomization [Examples.fooA])
                       (Examples.world baseCustomization [Examples.fooA])
                       eq_refl eq_refl)) as Hrun.
  cbv zeta. rewrite Hrun. split; [reflexivity|]. split; reflexivity.
Defined.

(** X12. When the arn of an available customization is no ARN,
    [createCustomizationItems] rejects with the error of the parser, and
    the snapshot has been overwritten all the same: with a valid connection,
    none of the customizations is new afterwards, though no picker item was
    built. *)
Theorem createCustomizationItems_malformed_arn (env : Env) (fuel : nat) (w w1 : World)
    (before after : list Customization) (c : Customization) (e : JsError) :
  getAvailableCustomizationsList env w = (Returned (before ++ c :: after), w1) →
  isSelectedCustomizationAvailable (before ++ c :: after) (getSelectedCustomization w)
  = true →
  (∀ c', c' ∈ before → ∃ parsed, parse env (Customization.arn c') = Resolves parsed) →
  parse env (Customization.arn c) = Rejects e →
  let w' := snd (setPersistedCustomizations (before ++ c :: after) w1) in
  createCustomizationItems env fuel w = (Thrown e, w')
  ∧ (∀ connLabel,
       conn (auth w) = Some connLabel →
       isValidEnterpriseSsoInUse (auth w) = true →
       getPersistedCustomizations w' = before ++ c :: after
       ∧ getNewCustomizations (before ++ c :: after) w' = []).
Proof.
  intros Hfetch Havailable Hbefore Hparse w'.
  destruct (createCustomizationItems_over_prelude env
              (switchToBaseCustomizationAndNotify env fuel) w w1 _
              Hfetch Havailable) as (_ & Hselected & Hrun).
  fold w' in Hselected, Hrun.
  destruct (getAvailableCustomizationsList_logs_only env w) as (lines & Hw1 & _).
  rewrite Hfetch in Hw1. simpl in Hw1.
  split.
  - unfold createCustomizationItems. rewrite Hrun.
    rewrite bool_decide_eq_false_2 by (rewrite length_app; simpl; lia).
    unfold bind at 1, gets at 1. unfold bind at 1.
    rewrite (mapM_throw _ before after c e); [done| |].
    + intros c' Hc'. destruct (Hbefore c' Hc') as [parsed Hparsed].
      destruct (createCustomizationItem_fields env c'
                  (Customization.arn <$> getPersistedCustomizations w)
                  (shouldPrefixAccountId
                     (customizationNameToCount (before ++ c :: after)) c')
                  parsed w' Hparsed) as (item & Hitem & _).
      { apply (getAvailableCustomizationsList_profiles env _ w w1 Hfetch).
        apply elem_of_app. by left. }
      by exists item.
    + unfold createCustomizationItem. by rewrite Hparse.
  - intros l Hconn Hvalid.
    assert (getPersistedCustomizations w' = before ++ c :: after) as Hread.
    { unfold w'. rewrite (setPersistedCustomizations_run _ _ l) by (by rewrite Hw1).
      unfold getPersistedCustomizations. simpl.
      rewrite Hw1. simpl. by rewrite Hconn, Hvalid, lookup_insert_eq. }
    split; [done|]. apply getNewCustomizations_nil_iff. rewrite Hread.
    intros c' Hc'. by apply list_elem_of_fmap_2.
Qed.

Lemma createCustomizationItems_malformed_arn_witness :
  let w := Examples.world Examples.fooA [] in
  let listed := [withProfile Examples.profileA Examples.fooA;
                 withProfile Examples.profileA Examples.malformed] in
  getNewCustomizations listed w = listed
  ∧ fst (createCustomizationItems Examples.env_malformed 0 w)
    = Thrown (PlainError "Malformed ARN")
  ∧ getNewCustomizations listed
      (snd (createCustomizationItems Examples.env_malformed 0 w)) = [].
Proof.
  split; [by vm_compute|].
  destruct (createCustomizationItems_malformed_arn Examples.env_malformed 0
              (Examples.world Examples.fooA []) (Examples.world Examples.fooA [])
              [withProfile Examples.profileA Examples.fooA] []
              (withProfile Examples.profileA Examples.malformed)
              (PlainError "Malformed ARN") eq_refl eq_refl)
    as (Hrun & Hsnapshot).
  { intros c' Hc'. apply list_elem_of_singleton in Hc' as ->. by eexists. }
  { reflexivity. }
  cbv zeta. split; [by rewrite Hrun|].
  rewrite Hrun. exact (proj2 (Hsnapshot Examples.connLabel eq_refl eq_refl)).
Defined.

(** ** Refreshing, when the fetch succeeds *)

Lemma warnings_log_lines (lines : list Event) :
  Forall (λ e, is_log e = true) lines → warnings lines = 0.
Proof.
  induction 1 as [|e l He _ IH]; [done|].
  unfold warnings in *. simpl. by destruct e.
Qed.

Section Refresh.
Context (env : Env).

(** The state in which [notifyNewCustomizations] validates the selection:
    the log lines of the fetch added, the feature enabled. *)
Lemma notifyNewCustomizations_fetched (fuel : nat) (w w1 : World)
    (available : list Customization) :
  getAvailableCustomizationsList env w = (Returned available, w1) →
  ∃ lines,
    Forall (λ e, is_log e = true) lines
    ∧ notifyNewCustomizations env fuel w
      = (selectedCustomization <- gets getSelectedCustomization;;
         when (negb (isSelectedCustomizationAvailable available selectedCustomization))
              (switchToBaseCustomizationAndNotify env fuel);;
         newCustomizations <- gets (getNewCustomizations available);;
         setPersistedCustomizations available;;
         if bool_decide (length newCustomizations = 0) then ret tt
         else
           setNewCustomizationsAvailable (length newCustomizations);;
           emit (InformationMessage (newCustomizationMessage env) [select; learnMore]))
          (with_trace (trace w ++ lines)
             (snd (set_isCustomizationFeatureEnabled true w))).
Proof.
  intros Hfetch.
  destruct (getAvailableCustomizationsList_logs_only env w) as (lines & Hw1 & Hlines).
  rewrite Hfetch in Hw1. simpl in Hw1.
  exists lines. split; [done|].
  unfold notifyNewCustomizations, fetchOrDisable.
  unfold bind at 1, try_catch. unfold bind at 1. rewrite Hfetch.
  unfold bind at 1. rewrite Hw1. reflexivity.
Qed.

End Refresh.

(** X13. When the fetch succeeds with a valid connection in use and the
    selection is among the fetched customizations (or is the base one),
    [notifyNewCustomizations] returns with the feature enabled and the
    snapshot of the connection overwritten by the fetched list, so that
    nothing of it is new afterwards; the selection records are as they were;
    it shows one information message when some fetched customization was not
    in the snapshot before, recording their number and clearing the
    limit-reached flag, and shows nothing and leaves the number alone when
    none was. *)
Theorem notifyNewCustomizations_snapshot (env : Env) (fuel : nat) (w w1 : World)
    (available : list Customization) (connLabel : string) :
  getAvailableCustomizationsList env w = (Returned available, w1) →
  conn (auth w) = Some connLabel →
  isValidEnterpriseSsoInUse (auth w) = true →
  isSelectedCustomizationAvailable available
    (getSelectedCustomization (snd (set_isCustomizationFeatureEnabled true w))) = true →
  let new := getNewCustomizations available w in
  ∃ w',
    notifyNewCustomizations env fuel w = (Returned tt, w')
    ∧ isCustomizationFeatureEnabled (auth w') = true
    ∧ getPersistedCustomizations w' = available
    ∧ getNewCustomizations available w' = []
    ∧ selectedCustomization (globalState w') = selectedCustomization (globalState w)
    ∧ notifications (trace w')
      = notifications (trace w)
        ++ (if bool_decide (new = []) then []
            else [InformationMessage (newCustomizationMessage env) [select; learnMore]])
    ∧ (new ≠ [] →
       getNewCustomizationsAvailable w' = length new ∧ isFreeTierLimitReached w' = false)
    ∧ (new = [] →
       newCustomizations (globalState w') = newCustomizations (globalState w)
       ∧ isFreeTierLimitReached w' = isFreeTierLimitReached w).
Proof.
  intros Hfetch Hconn Hvalid Havailable new.
  destruct (notifyNewCustomizations_fetched env fuel w w1 available Hfetch)
    as (lines & Hlines & ->).
  set (wE := with_trace (trace w ++ lines) _).
  assert (getSelectedCustomization wE
          = getSelectedCustomization (snd (set_isCustomizationFeatureEnabled true w)))
    as Hselected by done.
  assert (getNewCustomizations available wE = new) as Hnew by done.
  unfold bind at 1, gets at 1. rewrite Hselected, Havailable. simpl.
  unfold bind at 1. unfold ret at 1.
  unfold bind at 1, gets at 1. rewrite Hnew.
  unfold bind at 1.
  rewrite (setPersistedCustomizations_run _ _ connLabel) by done.
  assert (∀ tr g' f', getPersistedCustomizations
            (mkWorld (auth wE)
               (mkGlobals (selectedCustomization (globalState w))
                  (<[connLabel := available]> (persistedCustomizations (globalState w)))
                  (overrideV2 (globalState w)) g') f' tr
               (warningReplies w) (pickReplies w)) = available) as Hread.
  { intros tr g' f'. unfold getPersistedCustomizations. simpl.
    by rewrite Hconn, Hvalid, lookup_insert_eq. }
  assert (∀ w', getPersistedCustomizations w' = available →
                getNewCustomizations available w' = []) as Hnone.
  { intros w' Hw'. apply getNewCustomizations_nil_iff. rewrite Hw'.
    intros c Hc. by apply list_elem_of_fmap_2. }
  destruct new as [|c rest] eqn:Hnew_eq.
  - simpl. eexists. split; [reflexivity|]. simpl.
    split; [done|]. split; [apply Hread|]. split; [apply Hnone, Hread|].
    split; [done|]. split; [|done].
    rewrite notifications_app, (notifications_logs lines) by done.
    by rewrite !app_nil_r.
  - rewrite bool_decide_eq_false_2 by done.
    eexists. split; [reflexivity|]. simpl.
    split; [done|]. split; [apply Hread|]. split; [apply Hnone, Hread|].
    split; [done|]. split; [|done].
    rewrite !notifications_app, (notifications_logs lines) by done.
    by rewrite app_nil_r.
Qed.

(** Foo is selected and alone in the snapshot; the fetch finds Foo, Foo of
    the second profile and Bar. *)
Lemma notifyNewCustomizations_snapshot_witness :
  let w := Examples.world Examples.fooA [Examples.fooA] in
  ∃ w',
    notifyNewCustomizations Examples.env_ok 0 w = (Returned tt, w')
    ∧ getPersistedCustomizations w' = Examples.available_ok
    ∧ getNewCustomizations Examples.available_ok w' = []
    ∧ notifications (trace w')
      = [InformationMessage (newCustomizationMessage Examples.env_ok) [select; learnMore]]
    ∧ getNewCustomizationsAvailable w' = 2.
Proof.
  destruct (notifyNewCustomizations_snapshot Examples.env_ok 0
              (Examples.world Examples.fooA [Examples.fooA])
              (Examples.world Examples.fooA [Examples.fooA])
              Examples.available_ok Examples.connLabel eq_refl eq_refl eq_refl eq_refl)
    as (w' & Hrun & _ & Hread & Hnone & _ & Hshown & Hcount & _).
  exists w'. split; [exact Hrun|]. split; [exact Hread|]. split; [exact Hnone|].
  split; [exact Hshown|]. exact (proj1 (Hcount ltac:(done))).
Defined.

Lemma bind_warnings {A B} (m : M A) (k : A → M B) (w : World) (n : nat) :
  fst (m w) ≠ Exhausted →
  warnings (trace (snd (m w))) = n →
  (∀ a, runs same_warnings (k a)) →
  fst (bind m k w) ≠ Exhausted ∧ warnings (trace (snd (bind m k w))) = n.
Proof.
  intros Hne Hn Hk. unfold bind.
  destruct (m w) as [[a|e|] w1]; simpl in *; [|done..].
  destruct (Hk a w1) as [Hne' Hsame]. split; [done|].
  unfold same_warnings in Hsame. congruence.
Qed.

(** X14. When the fetch succeeds and the selection is not among the fetched
    customizations, [notifyNewCustomizations] shows exactly one warning,
    whatever the user answers to it and chooses in the picker, and is not
    cut short by a positive recursion bound; when the user does not ask for
    the picker from the warning, it returns and the base customization is
    the selected one. *)
Theorem notifyNewCustomizations_reverts_once (env : Env) (fuel : nat) (w w1 : World)
    (available : list Customization) :
  getAvailableCustomizationsList env w = (Returned available, w1) →
  isSelectedCustomizationAvailable available
    (getSelectedCustomization (snd (set_isCustomizationFeatureEnabled true w))) = false →
  fst (notifyNewCustomizations env (S fuel) w) ≠ Exhausted
  ∧ warnings (trace (snd (notifyNewCustomizations env (S fuel) w)))
    = S (warnings (trace w))
  ∧ (default None (head (warningReplies w)) ≠ Some selectCustomizationLabel →
     fst (notifyNewCustomizations env (S fuel) w) = Returned tt
     ∧ getSelectedCustomization (snd (notifyNewCustomizations env (S fuel) w))
       = baseCustomization).
Proof.
  intros Hfetch Hunavailable.
  destruct (notifyNewCustomizations_fetched env (S fuel) w w1 available Hfetch)
    as (lines & Hlines & Hrun).
  set (wE := with_trace (trace w ++ lines) _) in Hrun.
  set (rest := λ _ : unit,
         newCustomizations <- gets (getNewCustomizations available);;
         setPersistedCustomizations available;;
         if bool_decide (length newCustomizations = 0) then ret tt
         else
           setNewCustomizationsAvailable (length newCustomizations);;
           emit (InformationMessage (newCustomizationMessage env) [select; learnMore])).
  assert (getSelectedCustomization wE
          = getSelectedCustomization (snd (set_isCustomizationFeatureEnabled true w)))
    as Hselected by done.
  assert (notifyNewCustomizations env (S fuel) w
          = bind (switchToBaseCustomizationAndNotify env (S fuel)) rest wE) as ->.
  { rewrite Hrun. unfold bind at 1, gets at 1. by rewrite Hselected, Hunavailable. }
  assert (warnings (trace wE) = warnings (trace w)) as HwarnE.
  { unfold wE. simpl. rewrite warnings_app, (warnings_log_lines lines) by done. lia. }
  set (w2 := snd (setSelectedCustomization baseCustomization false wE)).
  assert (getSelectedCustomization w2 = baseCustomization) as Hbase
    by apply setSelectedCustomization_base_selected.
  assert (warnings (trace w2) = warnings (trace w)) as Hwarn2.
  { unfold w2. rewrite (proj2 (setSelectedCustomization_quiet _ _)). done. }
  assert (warningReplies w2 = warningReplies w) as Hreplies.
  { unfold w2. destruct (connection_cases wE) as [(l & Hc & Hv) | Hno].
    - by rewrite (setSelectedCustomization_run _ _ l).
    - by rewrite setSelectedCustomization_skip. }
  destruct (warning_shown_once env (switchToBaseCustomizationAndNotify env fuel)
              w2 Hbase) as (Hne & Honce & Hdismiss).
  assert (∀ a, runs calm (rest a)) as Hrest.
  { intros a. unfold rest. runs_steps. }
  assert (switchToBaseCustomizationAndNotify env (S fuel) wE
          = (selection <- showWarningMessage selectedCustomizationNotAvailable
                                             [selectCustomizationLabel];;
             if bool_decide (selection = Some selectCustomizationLabel)
             then showCustomizationPrompt_over env
                    (switchToBaseCustomizationAndNotify env fuel)
             else ret tt) w2) as Hswitch
    by apply switchToBaseCustomizationAndNotify_unfold.
  destruct (bind_warnings (switchToBaseCustomizationAndNotify env (S fuel)) rest wE
              (S (warnings (trace w)))) as [Hne' Hcount].
  { by rewrite Hswitch. }
  { rewrite Hswitch, Honce. by rewrite Hwarn2. }
  { intros a. apply runs_calm_warnings, Hrest. }
  split; [done|]. split; [done|].
  intros Hreply. rewrite <- Hreplies in Hreply. specialize (Hdismiss Hreply).
  assert (bind (switchToBaseCustomizationAndNotify env (S fuel)) rest wE
          = rest tt (with_warningReplies (tail (warningReplies w2))
                       (with_trace
                          (trace w2
                           ++ [WarningMessage selectedCustomizationNotAvailable
                                              [selectCustomizationLabel]]) w2))) as ->.
  { unfold bind at 1. by rewrite Hswitch, Hdismiss. }
  set (w3 := with_warningReplies _ _).
  destruct (Hrest tt w3) as [Hne3 [_ Hsel3]].
  assert (getSelectedCustomization w3 = baseCustomization) as Hbase3 by done.
  split.
  - unfold rest. unfold bind at 1, gets at 1. unfold bind at 1.
    destruct (connection_cases w3) as [(l & Hc & Hv) | Hno].
    + rewrite (setPersistedCustomizations_run _ _ l) by done.
      by case_bool_decide.
    + rewrite setPersistedCustomizations_skip by done. by case_bool_decide.
  - rewrite (same_selection_selected _ _ Hsel3). done.
Qed.

(** The selected customization is not fetched any more; the user asks for
    the picker from the warning and chooses Foo there. *)
Lemma notifyNewCustomizations_reverts_once_witness :
  let gone := Examples.custom "arn:aws:codewhisperer:us-east-1:111111111111:customization/GONE" "Gone" in
  let w := with_warningReplies [Some selectCustomizationLabel]
             (with_pickReplies [Some 1] (Examples.world gone [])) in
  warnings (trace (snd (notifyNewCustomizations Examples.env3 1 w))) = 1
  ∧ fst (notifyNewCustomizations Examples.env3 1 w) ≠ Exhausted
  ∧ getSelectedCustomization (snd (notifyNewCustomizations Examples.env3 1 w))
    = withProfile Examples.profileA Examples.fooA.
Proof.
  cbv zeta.
  destruct (notifyNewCustomizations_reverts_once Examples.env3 0
              (with_warningReplies [Some selectCustomizationLabel]
                 (with_pickReplies [Some 1]
                    (Examples.world
                       (Examples.custom
                          "arn:aws:codewhisperer:us-east-1:111111111111:customization/GONE"
                          "Gone") [])))
              _ _ eq_refl eq_refl) as (Hne & Honce & _).
  split; [exact Honce|]. split; [exact Hne|]. by vm_compute.
Defined.

(** ** The picker opened with a selection that is gone *)

(** X15. When the selection is not among the fetched customizations and the user
    does not ask for another picker from the warning,
    [createCustomizationItems] shows that one warning and returns the items
    all the same: the base customization is the selected one by then, so the
    base item is the one marked as in use and no item of a customization
    with an arn is; the items are marked new against the snapshot read
    before the call. *)
Theorem createCustomizationItems_stale_selection (env : Env) (fuel : nat) (w w1 : World)
    (available : list Customization) :
  getAvailableCustomizationsList env w = (Returned available, w1) →
  isSelectedCustomizationAvailable available (getSelectedCustomization w) = false →
  default None (head (warningReplies w)) ≠ Some selectCustomizationLabel →
  (∀ c, c ∈ available → ∃ parsed, parse env (Customization.arn c) = Resolves parsed) →
  ∃ base items w',
    createCustomizationItems env (S fuel) w = (Returned (base :: items), w')
    ∧ getSelectedCustomization w' = baseCustomization
    ∧ warnings (trace w') = S (warnings (trace w))
    ∧ onClick base = ClickBase
    ∧ recentlyUsed base = true
    ∧ Forall2
        (λ c item,
           data item = Some (Customization.arn c)
           ∧ onClick item = ClickCustomization c
           ∧ item_description item
             = (if bool_decide (Customization.arn c
                                ∈ (Customization.arn <$> getPersistedCustomizations w))
                then "" else "   New")
           ∧ recentlyUsed item = bool_decide (Customization.arn c = ""))
        available items.
Proof.
  intros Hfetch Hgone Hreply Hparse.
  destruct (getAvailableCustomizationsList_logs_only env w) as (lines & Hw1 & Hlines).
  rewrite Hfetch in Hw1. simpl in Hw1.
  set (w2 := snd (setPersistedCustomizations available w1)).
  assert (setPersistedCustomizations available w1 = (Returned tt, w2)
          ∧ warningReplies w2 = warningReplies w
          ∧ trace w2 = trace w ++ lines) as (Hset & Hreplies2 & Htrace2).
  { unfold w2. destruct (connection_cases w1) as [(l & Hc & Hv) | Hno].
    - rewrite (setPersistedCustomizations_run _ _ l) by done. by rewrite Hw1.
    - rewrite setPersistedCustomizations_skip by done. by rewrite Hw1. }
  assert (getSelectedCustomization w2 = getSelectedCustomization w) as Hselected2.
  { pose proof (runs_setPersistedCustomizations available w1) as [_ [_ Hsel]].
    rewrite (same_selection_selected w1 w2 Hsel). by rewrite Hw1. }
  set (w3 := snd (setSelectedCustomization baseCustomization false w2)).
  assert (getSelectedCustomization w3 = baseCustomization) as Hbase3
    by apply setSelectedCustomization_base_selected.
  assert (warnings (trace w3) = warnings (trace w)) as Hwarn3.
  { unfold w3. rewrite (proj2 (setSelectedCustomization_quiet _ _)), Htrace2.
    rewrite warnings_app, (warnings_log_lines lines) by done. lia. }
  assert (warningReplies w3 = warningReplies w) as Hreplies3.
  { unfold w3. destruct (connection_cases w2) as [(l & Hc & Hv) | Hno].
    - by rewrite (setSelectedCustomization_run _ _ l).
    - by rewrite setSelectedCustomization_skip. }
  set (w4 := with_warningReplies (tail (warningReplies w3))
               (with_trace
                  (trace w3 ++ [WarningMessage selectedCustomizationNotAvailable
                                               [selectCustomizationLabel]]) w3)).
  assert (switchToBaseCustomizationAndNotify env (S fuel) w2 = (Returned tt, w4))
    as Hswitch.
  { destruct (warning_shown_once env (switchToBaseCustomizationAndNotify env fuel)
                w3 Hbase3) as (_ & _ & Hdismiss).
    rewrite switchToBaseCustomizationAndNotify_unfold. apply Hdismiss.
    by rewrite Hreplies3. }
  assert (getSelectedCustomization w4 = baseCustomization) as Hbase4 by done.
  assert (warnings (trace w4) = S (warnings (trace w))) as Hwarn4.
  { unfold w4. simpl. rewrite warnings_snoc. simpl. lia. }
  assert (createCustomizationItems env (S fuel) w
          = (if bool_decide (length available = 0) then
               base <- gets (createBaseCustomizationItem env);;
               emit (MessageWithUrl
                       "You dont have access to any Amazon Q customization. Contact your admin for access."
                       (customLearnMoreUri env) "Learn More");;
               ret [base]
             else
               base <- gets (createBaseCustomizationItem env);;
               rest <- mapM (λ c, createCustomizationItem env c
                                    (Customization.arn <$> getPersistedCustomizations w)
                                    (shouldPrefixAccountId
                                       (customizationNameToCount available) c))
                            available;;
               ret (base :: rest)) w4) as ->.
  { unfold createCustomizationItems, createCustomizationItems_over.
    unfold bind at 1. rewrite Hfetch.
    unfold bind at 1, gets at 1.
    assert (getPersistedCustomizations w1 = getPersistedCustomizations w) as ->
      by (by rewrite Hw1).
    unfold bind at 1. rewrite Hset.
    unfold bind at 1, gets at 1. rewrite Hselected2, Hgone.
    unfold when, negb. unfold bind at 1. by rewrite Hswitch. }
  assert (recentlyUsed (createBaseCustomizationItem env w4) = true) as Hused.
  { unfold createBaseCustomizationItem. simpl. by rewrite Hbase4. }
  destruct available as [|c0 rest].
  - eexists (createBaseCustomizationItem env w4), [], _.
    split; [reflexivity|]. split; [done|]. split.
    { clearbody w4. simpl. rewrite warnings_snoc, Hwarn4. simpl. lia. }
    split; [done|]. split; [done|]. constructor.
  - rewrite bool_decide_eq_false_2 by done.
    unfold bind at 1, gets at 1.
    destruct (createCustomizationItems_rest env (c0 :: rest) (c0 :: rest)
                (Customization.arn <$> getPersistedCustomizations w) w4 Hparse
                (getAvailableCustomizationsList_profiles env (c0 :: rest) w w1 Hfetch))
      as (items & Hitems & Hall).
    assert (Forall2
              (λ c item,
                 data item = Some (Customization.arn c)
                 ∧ onClick item = ClickCustomization c
                 ∧ item_description item
                   = (if bool_decide (Customization.arn c
                                      ∈ (Customization.arn
                                           <$> getPersistedCustomizations w))
                      then "" else "   New")
                 ∧ recentlyUsed item = bool_decide (Customization.arn c = ""))
              (c0 :: rest) items) as Hfields.
    { eapply Forall2_impl; [exact Hall|].
      intros c item (Hdata & Hclick & Hnew & Hrecent & _).
      rewrite Hbase4 in Hrecent.
      split; [done|]. split; [done|]. split; [done|].
      rewrite Hrecent. apply bool_decide_ext. simpl. split; congruence. }
    exists (createBaseCustomizationItem env w4), items, w4.
    split; [unfold bind at 1; by rewrite Hitems|]. done.
Qed.

(** The selected customization is not fetched any more; the user opens the
    picker and closes the warning. *)
Lemma createCustomizationItems_stale_selection_witness :
  let gone := Examples.custom "arn:aws:codewhisperer:us-east-1:111111111111:customization/GONE" "Gone" in
  let w := Examples.world gone [] in
  getSelectedCustomization w = gone
  ∧ ∃ base items w',
      createCustomizationItems Examples.env_ok 1 w = (Returned (base :: items), w')
      ∧ getSelectedCustomization w' = baseCustomization
      ∧ warnings (trace w') = 1
      ∧ recentlyUsed base = true
      ∧ length items = 3.
Proof.
  cbv zeta. split; [reflexivity|].
  destruct (createCustomizationItems_stale_selection Examples.env_ok 0
              (Examples.world
                 (Examples.custom
                    "arn:aws:codewhisperer:us-east-1:111111111111:customization/GONE"
                    "Gone") [])
              _ Examples.available_ok eq_refl eq_refl)
    as (base & items & w' & Hrun & Hbase & Hwarn & _ & Hused & Hall).
  { by vm_compute. }
  { intros c Hc. unfold Examples.available_ok in Hc. rewrite !elem_of_cons in Hc.
    destruct Hc as [-> | [-> | [-> | Hc]]]; [by eexists..|by apply elem_of_nil in Hc]. }
  exists base, items, w'. split; [exact Hrun|]. split; [exact Hbase|].
  split; [exact Hwarn|]. split; [exact Hused|].
  by rewrite <- (Forall2_length _ _ _ Hall).
Defined.

(** ** Choosing in the picker *)

Lemma selectCustomization_auth (customization : Customization) (w : World) :
  auth (snd (selectCustomization customization w)) = auth w.
Proof.
  unfold selectCustomization, bind, gets. case_bool_decide; [done|].
  pose proof (setSelectedCustomization_keeps_marker customization w) as [_ Hauth].
  pose proof (setSelectedCustomization_returns customization w) as Hret.
  destruct (setSelectedCustomization customization false w) as [r w1].
  simpl in *. by rewrite Hret.
Qed.

(** X16. With a valid connection and the feature enabled, a customization with a
    name that is selected is the one read back, and selecting it again
    changes nothing: the confirmation is shown once. *)
Theorem selectCustomization_twice (customization : Customization) (w : World)
    (connLabel : string) :
  conn (auth w) = Some connLabel →
  isValidEnterpriseSsoInUse (auth w) = true →
  isCustomizationFeatureEnabled (auth w) = true →
  Customization.name customization ≠ Some "" →
  let w1 := snd (selectCustomization customization w) in
  Customization.arn (getSelectedCustomization w1) = Customization.arn customization
  ∧ (Customization.arn (getSelectedCustomization w) ≠ Customization.arn customization →
     getSelectedCustomization w1 = customization)
  ∧ selectCustomization customization w1 = (Returned tt, w1).
Proof.
  intros Hconn Hvalid Hfeature Hname w1.
  assert (selectCustomization customization w1 = (Returned tt, w1)
          ↔ Customization.arn (getSelectedCustomization w1)
            = Customization.arn customization) as Hagain.
  { unfold selectCustomization at 1. unfold bind at 1, gets at 1. split.
    - case_bool_decide; [done|]. intros Hrun. exfalso.
      unfold bind at 1 in Hrun.
      assert (conn (auth w1) = Some connLabel
              ∧ isValidEnterpriseSsoInUse (auth w1) = true) as [Hc Hv]
        by (unfold w1; by rewrite selectCustomization_auth).
      rewrite (setSelectedCustomization_run _ _ connLabel) in Hrun by done.
      rewrite emit_run in Hrun. injection Hrun as Hrun.
      apply (f_equal trace) in Hrun. simpl in Hrun.
      apply (f_equal length) in Hrun. rewrite !length_app in Hrun. simpl in Hrun. lia.
    - intros Harn. by rewrite bool_decide_eq_true_2. }
  destruct (decide (Customization.arn (getSelectedCustomization w)
                    = Customization.arn customization)) as [Hsame | Hother].
  - assert (w1 = w) as Hw1.
    { unfold w1, selectCustomization, bind, gets. by rewrite bool_decide_eq_true_2. }
    split; [by rewrite Hw1|]. split; [done|]. apply Hagain. by rewrite Hw1.
  - assert (getSelectedCustomization w1 = customization) as Hread.
    { unfold w1, selectCustomization, bind at 1, gets at 1.
      rewrite bool_decide_eq_false_2 by done.
      unfold bind at 1. rewrite (setSelectedCustomization_run _ _ connLabel) by done.
      rewrite emit_run. unfold getSelectedCustomization. simpl.
      rewrite Hconn, Hvalid, Hfeature, lookup_insert_eq. simpl.
      by rewrite bool_decide_eq_true_2. }
    split; [by rewrite Hread|]. split; [done|]. apply Hagain. by rewrite Hread.
Qed.

Lemma selectCustomization_twice_witness :
  let w := Examples.world Examples.barC [] in
  let w1 := snd (selectCustomization Examples.fooA w) in
  getSelectedCustomization w1 = Examples.fooA
  ∧ selectCustomization Examples.fooA w1 = (Returned tt, w1)
  ∧ notifications (trace w1)
    = [InformationMessage
         "Amazon Q suggestions are now coming from the Foo customization." []].
Proof.
  destruct (selectCustomization_twice Examples.fooA (Examples.world Examples.barC [])
              Examples.connLabel eq_refl eq_refl eq_refl ltac:(done))
    as (_ & Hread & Hagain).
  split; [by apply Hread|]. split; [exact Hagain|]. by vm_compute.
Defined.

(** X17. Clicking the item of a customization while a profile is active: when
    the profile of the customization has another arn than the active one,
    the profile is switched first, with the intent [customization], and the
    customization is selected then; otherwise it is selected with no switch.
    Either way the active profile afterwards has the arn of the profile of
    the customization.  Clicking the base item never switches. *)
Theorem runOnClick_switches_profile (customization : Customization)
    (active target : RegionProfile) (w : World) :
  activeRegionProfile (auth w) = Some active →
  Customization.profile customization = Some target →
  let switched :=
    with_auth (mkAuth (isCustomizationFeatureEnabled (auth w))
                      (isValidEnterpriseSsoInUse (auth w)) (conn (auth w)) (Some target))
              (with_trace (trace w ++ [SwitchRegionProfile target "customization"]) w) in
  runOnClick (ClickCustomization customization) w
  = selectCustomization customization
      (if bool_decide (RegionProfile.arn target ≠ RegionProfile.arn active)
       then switched else w)
  ∧ (∃ p, activeRegionProfile
            (auth (snd (runOnClick (ClickCustomization customization) w))) = Some p
          ∧ RegionProfile.arn p = RegionProfile.arn target)
  ∧ runOnClick ClickBase w = selectCustomization baseCustomization w
  ∧ activeRegionProfile (auth (snd (runOnClick ClickBase w))) = Some active.
Proof.
  intros Hactive Htarget switched.
  assert (runOnClick (ClickCustomization customization) w
          = selectCustomization customization
              (if bool_decide (RegionProfile.arn target ≠ RegionProfile.arn active)
               then switched else w)) as Hrun.
  { unfold runOnClick. unfold bind at 1, gets at 1. rewrite Hactive, Htarget.
    unfold bind at 1. by case_bool_decide. }
  split; [done|]. split; [|split; [done|]].
  - rewrite Hrun, selectCustomization_auth. case_bool_decide as Harn.
    + by exists target.
    + exists active. split; [done|].
      by destruct (decide (RegionProfile.arn target = RegionProfile.arn active)).
  - simpl. by rewrite selectCustomization_auth.
Qed.

Lemma runOnClick_switches_profile_witness :
  let w := Examples.world Examples.fooA [] in
  let w' := snd (runOnClick (ClickCustomization
                               (withProfile Examples.profileC Examples.barC)) w) in
  activeRegionProfile (auth w) = Some Examples.profileA
  ∧ (∃ p, activeRegionProfile (auth w') = Some p
          ∧ RegionProfile.arn p = RegionProfile.arn Examples.profileC)
  ∧ head (trace w') = Some (SwitchRegionProfile Examples.profileC "customization").
Proof.
  split; [reflexivity|]. split; [|by vm_compute].
  exact (proj1 (proj2 (runOnClick_switches_profile
                         (withProfile Examples.profileC Examples.barC)
                         Examples.profileA Examples.profileC
                         (Examples.world Examples.fooA []) eq_refl eq_refl))).
Defined.

(** X18. The callback of the message about new customizations returns normally
    whatever the user answered, for any positive recursion bound: an error
    of [showCustomizationPrompt] is caught and logged; the answer "Learn
    More" opens the page and nothing else; any other answer than the two
    buttons changes nothing. *)
Theorem onNewCustomizationsResponse_returns (env : Env) (fuel : nat)
    (resp : option string) (w : World) :
  fst (onNewCustomizationsResponse env (S fuel) resp w) = Returned tt
  ∧ (resp = Some learnMore →
     onNewCustomizationsResponse env (S fuel) resp w
     = (Returned tt, with_trace (trace w ++ [OpenUrl (customLearnMoreUri env)]) w))
  ∧ (resp ≠ Some select → resp ≠ Some learnMore →
     onNewCustomizationsResponse env (S fuel) resp w = (Returned tt, w))
  ∧ (∀ e w',
       resp = Some select →
       showCustomizationPrompt env (S fuel) w = (Thrown e, w') →
       onNewCustomizationsResponse env (S fuel) resp w
       = (Returned tt,
          with_trace (trace w' ++ [LogError "showCustomizationPrompt failed: %s"
                                            [ArgString (error_message e)]]) w')).
Proof.
  unfold onNewCustomizationsResponse.
  split; [|split; [|split]].
  - case_bool_decide; [|by case_bool_decide].
    unfold try_catch.
    pose proof (showCustomizationPrompt_total env fuel w) as [Hne _].
    destruct (showCustomizationPrompt env (S fuel) w) as [[[]|e|] w1]; done.
  - intros ->. done.
  - intros Hselect Hlearn. by rewrite !bool_decide_eq_false_2.
  - intros e w' -> Hthrown. rewrite bool_decide_eq_true_2 by done.
    unfold try_catch. by rewrite Hthrown.
Qed.

Lemma onNewCustomizationsResponse_returns_witness :
  let w := Examples.world Examples.fooA [] in
  showCustomizationPrompt Examples.env_malformed 1 w
  = (Thrown (PlainError "Malformed ARN"),
     snd (showCustomizationPrompt Examples.env_malformed 1 w))
  ∧ fst (onNewCustomizationsResponse Examples.env_malformed 1 (Some select) w)
    = Returned tt
  ∧ last (trace (snd (onNewCustomizationsResponse Examples.env_malformed 1
                        (Some select) w)))
    = Some (LogError "showCustomizationPrompt failed: %s" [ArgString "Malformed ARN"]).
Proof.
  split; [by vm_compute|]. split.
  - exact (proj1 (onNewCustomizationsResponse_returns Examples.env_malformed 0
                    (Some select) (Examples.world Examples.fooA []))).
  - by vm_compute.
Defined.

(** ** The order of the picker *)

Lemma less_irrefl (s : list N) : QuickPickOptions.less s s = false.
Proof.
  induction s as [|x s IH]; [done|]. simpl. by rewrite N.ltb_irrefl.
Qed.

Lemma less_distinct (s1 s2 : list N) :
  s1 ≠ s2 → QuickPickOptions.less s1 s2 = negb (QuickPickOptions.less s2 s1).
Proof.
  revert s2. induction s1 as [|x s1 IH]; intros [|y s2] Hne; try done. simpl.
  destruct (N.ltb_spec x y) as [Hxy | Hxy], (N.ltb_spec y x) as [Hyx | Hyx];
    try done; [lia|].
  apply IH. intros ->. apply Hne. f_equal. lia.
Qed.

(** X19. The [compare] given to the picker never answers that two items are
    equal.  An item marked as an invalid selection sorts before any other;
    two items that are not, with different labels, are ordered by their
    labels as [<] orders two strings, code unit by code unit, the one way
    when asked the other way round; two with the same label are each sorted
    after the other, and two invalid selections each before the other.  The
    items this module builds carry no such mark, and are ordered by their
    labels alone. *)
Theorem compare_never_equal (a b : QuickPickOptions.Shown) :
  (QuickPickOptions.compare a b = (-1)%Z ∨ QuickPickOptions.compare a b = 1%Z)
  ∧ (QuickPickOptions.invalidSelection a = true →
     QuickPickOptions.compare a b = (-1)%Z)
  ∧ (QuickPickOptions.invalidSelection a = false →
     QuickPickOptions.invalidSelection b = true →
     QuickPickOptions.compare a b = 1%Z)
  ∧ (QuickPickOptions.invalidSelection a = false →
     QuickPickOptions.invalidSelection b = false →
     (QuickPickOptions.shown_label a ≠ QuickPickOptions.shown_label b →
      QuickPickOptions.compare a b = (- QuickPickOptions.compare b a)%Z
      ∧ (QuickPickOptions.compare a b = (-1)%Z
         ↔ QuickPickOptions.less (QuickPickOptions.shown_label a)
                                 (QuickPickOptions.shown_label b) = true))
     ∧ (QuickPickOptions.shown_label a = QuickPickOptions.shown_label b →
        QuickPickOptions.compare a b = 1%Z ∧ QuickPickOptions.compare b a = 1%Z))
  ∧ (∀ utf16 item item',
       QuickPickOptions.compare (QuickPickOptions.shown utf16 item)
                                (QuickPickOptions.shown utf16 item')
       = if QuickPickOptions.less (utf16 (label item)) (utf16 (label item'))
         then (-1)%Z else 1%Z).
Proof.
  split; [|split; [|split; [|split; [|done]]]].
  - unfold QuickPickOptions.compare.
    destruct (QuickPickOptions.invalidSelection a); [by left|].
    destruct (QuickPickOptions.invalidSelection b); [by right|].
    destruct (QuickPickOptions.less _ _); [by left|by right].
  - unfold QuickPickOptions.compare. by intros ->.
  - unfold QuickPickOptions.compare. by intros -> ->.
  - unfold QuickPickOptions.compare. intros -> ->. split.
    + intros Hne. rewrite (less_distinct _ _ Hne).
      destruct (QuickPickOptions.less _ _); simpl; split; done.
    + intros ->. by rewrite less_irrefl.
Qed.

(** The fullwidth letter A (U+FF21, one code unit) and a character
    outside the basic plane (U+1F600, the surrogates D83D and DE00): the
    first code units decide, and the letter sorts after. *)
Lemma compare_never_equal_witness :
  let letter := QuickPickOptions.mkShown [65313%N] false in
  let astral := QuickPickOptions.mkShown [55357%N; 56832%N] false in
  QuickPickOptions.compare letter astral = 1%Z
  ∧ QuickPickOptions.compare astral letter = (-1)%Z.
Proof.
  cbv zeta.
  destruct (compare_never_equal (QuickPickOptions.mkShown [55357%N; 56832%N] false)
              (QuickPickOptions.mkShown [65313%N] false))
    as (_ & _ & _ & Hlabels & _).
  destruct (Hlabels eq_refl eq_refl) as [Hdistinct _].
  destruct (Hdistinct ltac:(done)) as [Hflip Hless].
  assert (QuickPickOptions.compare (QuickPickOptions.mkShown [55357%N; 56832%N] false)
            (QuickPickOptions.mkShown [65313%N] false) = (-1)%Z) as Hfirst
    by (by apply Hless).
  split; [|exact Hfirst].
  apply (f_equal Z.opp) in Hflip. rewrite Z.opp_involutive, Hfirst in Hflip.
  by rewrite <- Hflip.
Defined.

(** ** From the picker to the selection *)

(** What the listing across profiles returns and logs does not depend on
    the state it starts from. *)
Lemma collectCustomizations_outcome (env : Env) (profiles : list RegionProfile)
    (items : list Customization) :
  ∃ outcome lines, ∀ w,
    collectCustomizations env profiles items w
    = (outcome, with_trace (trace w ++ lines) w).
Proof.
  revert items. induction profiles as [|p ps IH]; intros items.
  - exists (Returned items), []. intros w. simpl. unfold ret.
    by rewrite app_nil_r, with_trace_same.
  - destruct (createQClient env p) as [[]|e] eqn:Hclient.
    + destruct (IH (items ++ (withProfile p <$> listed env p))) as (outcome & lines & Hrun).
      exists outcome, (listing_failure env p ++ lines). intros w. simpl.
      unfold bind at 1. rewrite init_run, Hclient.
      unfold bind at 1. rewrite listAvailableCustomizations_run.
      cbn [CustomizationProvider.profile]. rewrite Hrun.
      rewrite with_trace_twice. cbn [trace with_trace]. by rewrite <- app_assoc.
    + exists (Thrown e), []. intros w. simpl. unfold bind at 1.
      rewrite init_run, Hclient. by rewrite app_nil_r, with_trace_same.
Qed.

Lemma getAvailableCustomizationsList_outcome (env : Env) :
  ∃ outcome lines, ∀ w,
    getAvailableCustomizationsList env w = (outcome, with_trace (trace w ++ lines) w).
Proof.
  unfold getAvailableCustomizationsList.
  destruct (listRegionProfile env) as [profiles|e].
  - apply collectCustomizations_outcome.
  - by eexists _, [_].
Qed.

Lemma selectCustomization_selected_arn (customization : Customization) (w : World)
    (connLabel : string) :
  conn (auth w) = Some connLabel →
  isValidEnterpriseSsoInUse (auth w) = true →
  isCustomizationFeatureEnabled (auth w) = true →
  Customization.name customization ≠ Some "" →
  Customization.arn (getSelectedCustomization (snd (selectCustomization customization w)))
  = Customization.arn customization.
Proof.
  intros Hconn Hvalid Hfeature Hname.
  destruct (decide (Customization.arn (getSelectedCustomization w)
                    = Customization.arn customization)) as [Hsame | Hother].
  - unfold selectCustomization, bind, gets. by rewrite bool_decide_eq_true_2.
  - unfold selectCustomization, bind at 1, gets at 1.
    rewrite bool_decide_eq_false_2 by done.
    unfold bind at 1. rewrite (setSelectedCustomization_run _ _ connLabel) by done.
    rewrite emit_run. unfold getSelectedCustomization. simpl.
    rewrite Hconn, Hvalid, Hfeature, lookup_insert_eq. simpl.
    by rewrite bool_decide_eq_true_2.
Qed.

Lemma runOnClick_selects (customization : Customization) (w : World) :
  is_Some (Customization.profile customization) →
  ∃ w0,
    runOnClick (ClickCustomization customization) w = selectCustomization customization w0
    ∧ conn (auth w0) = conn (auth w)
    ∧ isValidEnterpriseSsoInUse (auth w0) = isValidEnterpriseSsoInUse (auth w)
    ∧ isCustomizationFeatureEnabled (auth w0) = isCustomizationFeatureEnabled (auth w).
Proof.
  intros [target Htarget]. unfold runOnClick. unfold bind at 1, gets at 1.
  rewrite Htarget. destruct (activeRegionProfile (auth w)) as [active|].
  - unfold bind at 1. case_bool_decide; simpl; eexists; (split; [reflexivity|done]).
  - by exists w.
Qed.

(** X20. The picker, end to end.  With a valid connection and the feature
    enabled, customizations available, every arn an ARN and the selection
    among them: when the user chooses in the picker the item of an available
    customization with a name, the arn of the selected customization is its
    arn when [showCustomizationPrompt] ends; when the user chooses the base
    item, the base customization is the selected one; and when the user
    cancels, the selected customization is the one selected before. *)
Theorem showCustomizationPrompt_selects (env : Env) (fuel : nat) (w w1 : World)
    (available : list Customization) (connLabel : string) :
  conn (auth w) = Some connLabel →
  isValidEnterpriseSsoInUse (auth w) = true →
  isCustomizationFeatureEnabled (auth w) = true →
  getAvailableCustomizationsList env w = (Returned available, w1) →
  available ≠ [] →
  isSelectedCustomizationAvailable available (getSelectedCustomization w) = true →
  (∀ c, c ∈ available → ∃ parsed, parse env (Customization.arn c) = Resolves parsed) →
  let selected := getSelectedCustomization (snd (showCustomizationPrompt env fuel w)) in
  (∀ i c,
     head (pickReplies w) = Some (Some (S i)) →
     available !! i = Some c →
     Customization.name c ≠ Some "" →
     Customization.arn selected = Customization.arn c)
  ∧ (head (pickReplies w) = Some (Some 0) → Customization.arn selected = "")
  ∧ (head (pickReplies w) = None ∨ head (pickReplies w) = Some None →
     selected = getSelectedCustomization w).
Proof.
  intros Hconn Hvalid Hfeature Hfetch Hsome Havailable Hparse.
  set (w0 := snd (setNewCustomizationsAvailable 0 w)).
  destruct (getAvailableCustomizationsList_outcome env) as (outcome & lines & Houtcome).
  assert (outcome = Returned available) as ->.
  { specialize (Houtcome w). rewrite Hfetch in Houtcome. by injection Houtcome. }
  pose proof (Houtcome w0) as Hfetch0.
  set (w10 := with_trace (trace w0 ++ lines) w0) in Hfetch0.
  destruct (createCustomizationItems_built env fuel w0 w10 available Hfetch0 Hsome
              Havailable Hparse) as (items & Hitems & Hall).
  set (w' := snd (setPersistedCustomizations available w10)) in Hitems.
  assert (w' = with_globalState
                 (mkGlobals (selectedCustomization (globalState w))
                    (<[connLabel := available]> (persistedCustomizations (globalState w)))
                    (overrideV2 (globalState w)) (Some 0)) w10) as Hw'.
  { unfold w'. by rewrite (setPersistedCustomizations_run _ _ connLabel). }
  assert (showCustomizationPrompt env fuel w
          = showQuickPick (createBaseCustomizationItem env w' :: items) w') as Hprompt.
  { unfold showCustomizationPrompt, showCustomizationPrompt_over.
    unfold bind at 1. change (setNewCustomizationsAvailable 0 w) with (Returned tt, w0).
    cbv beta iota. unfold bind at 1.
    change (createCustomizationItems_over env
              (switchToBaseCustomizationAndNotify env fuel) w0)
      with (createCustomizationItems env fuel w0).
    by rewrite Hitems. }
  set (wq := with_trace
               (trace w' ++ [QuickPick (createBaseCustomizationItem env w' :: items)]) w').
  assert (showQuickPick (createBaseCustomizationItem env w' :: items) w'
          = match pickReplies w with
            | [] => (Returned tt, wq)
            | r :: rest =>
                match r ≫= (λ i, (createBaseCustomizationItem env w' :: items) !! i) with
                | Some item => runOnClick (onClick item) (with_pickReplies rest wq)
                | None => (Returned tt, with_pickReplies rest wq)
                end
            end) as Hpicker.
  { unfold showQuickPick. unfold bind at 1. rewrite emit_run. fold wq.
    unfold bind at 1, gets at 1.
    assert (pickReplies wq = pickReplies w) as -> by (unfold wq; by rewrite Hw').
    destruct (pickReplies w) as [|r rest]; [done|].
    unfold bind at 1, modify at 1. by destruct (r ≫= _). }
  assert (∀ r, auth (with_pickReplies r wq) = auth w
               ∧ selectedCustomization (globalState (with_pickReplies r wq))
                 = selectedCustomization (globalState w)
               ∧ auth wq = auth w
               ∧ selectedCustomization (globalState wq)
                 = selectedCustomization (globalState w)) as Hframe.
  { intros r. unfold wq. by rewrite Hw'. }
  assert (∀ wx : World,
            auth wx = auth w →
            selectedCustomization (globalState wx) = selectedCustomization (globalState w) →
            getSelectedCustomization wx = getSelectedCustomization w) as Hsame.
  { intros wx Hauth Hsel. unfold getSelectedCustomization. by rewrite Hauth, Hsel. }
  intros selected. unfold selected. rewrite Hprompt, Hpicker.
  split; [|split].
  - intros i c Hpick Hi Hname.
    destruct (pickReplies w) as [|r rest]; [done|]. simpl in Hpick.
    injection Hpick as ->. simpl.
    destruct (Forall2_lookup_l _ _ _ _ _ Hall Hi) as (item & -> & Hclick).
    rewrite Hclick.
    destruct (runOnClick_selects c (with_pickReplies rest wq))
      as (wx & -> & Hc & Hv & Hf).
    { apply (getAvailableCustomizationsList_profiles env available w w1 Hfetch).
      by apply list_elem_of_lookup_2 in Hi. }
    destruct (Hframe rest) as (Hauth & _).
    apply (selectCustomization_selected_arn c wx connLabel); [| | |done].
    + by rewrite Hc, Hauth.
    + by rewrite Hv, Hauth.
    + by rewrite Hf, Hauth.
  - intros Hpick. destruct (pickReplies w) as [|r rest]; [done|]. simpl in Hpick.
    injection Hpick as ->. simpl.
    destruct (Hframe rest) as (Hauth & _).
    apply (selectCustomization_selected_arn baseCustomization _ connLabel);
      rewrite ?Hauth; done.
  - intros Hpick. destruct (pickReplies w) as [|[i|] rest].
    + simpl. apply Hsame; apply (Hframe []).
    + by destruct Hpick.
    + simpl. apply Hsame; apply (Hframe rest).
Qed.

(** Foo is selected; the user opens the picker and chooses Bar, its fourth
    item. *)
Lemma showCustomizationPrompt_selects_witness :
  let w := with_pickReplies [Some 3] (Examples.world Examples.fooA []) in
  getSelectedCustomization w = Examples.fooA
  ∧ Customization.arn
      (getSelectedCustomization (snd (showCustomizationPrompt Examples.env_ok 0 w)))
    = Customization.arn Examples.barC.
Proof.
  split; [by vm_compute|].
  apply (proj1 (showCustomizationPrompt_selects Examples.env_ok 0
                  (with_pickReplies [Some 3] (Examples.world Examples.fooA []))
                  (with_pickReplies [Some 3] (Examples.world Examples.fooA []))
                  Examples.available_ok Examples.connLabel
                  eq_refl eq_refl eq_refl eq_refl ltac:(done) eq_refl
                  ltac:(intros c Hc;
                        repeat (apply elem_of_cons in Hc as [-> | Hc]; [by eexists|]);
                        by apply elem_of_nil in Hc))
               2 (withProfile Examples.profileC Examples.barC));
    [reflexivity|reflexivity|done].
Defined.

(** ** Refreshing with no valid connection *)

(** One run of [notifyNewCustomizations] with no valid connection, the fetch
    answering with customizations. *)
Lemma notifyNewCustomizations_unsaved (env : Env) (fuel : nat) (w w1 : World)
    (available : list Customization) :
  getAvailableCustomizationsList env w = (Returned available, w1) →
  isValidEnterpriseSsoInUse (auth w) = false ∨ conn (auth w) = None →
  available ≠ [] →
  ∃ w',
    notifyNewCustomizations env fuel w = (Returned tt, w')
    ∧ isValidEnterpriseSsoInUse (auth w') = isValidEnterpriseSsoInUse (auth w)
    ∧ conn (auth w') = conn (auth w)
    ∧ persistedCustomizations (globalState w') = persistedCustomizations (globalState w)
    ∧ selectedCustomization (globalState w') = selectedCustomization (globalState w)
    ∧ getNewCustomizationsAvailable w' = length available
    ∧ notifications (trace w')
      = notifications (trace w)
        ++ [InformationMessage (newCustomizationMessage env) [select; learnMore]].
Proof.
  intros Hfetch Hno Hsome.
  destruct (notifyNewCustomizations_fetched env fuel w w1 available Hfetch)
    as (lines & Hlines & ->).
  set (wE := with_trace (trace w ++ lines) _).
  assert (isValidEnterpriseSsoInUse (auth wE) = false ∨ conn (auth wE) = None) as HnoE
    by done.
  assert (getSelectedCustomization wE = baseCustomization) as Hbase.
  { apply getSelectedCustomization_gated. by right. }
  assert (getNewCustomizations available wE = available) as Hnew.
  { unfold getNewCustomizations.
    assert (getPersistedCustomizations wE = []) as ->.
    { unfold getPersistedCustomizations.
      destruct HnoE as [-> | ->]; [by destruct (conn (auth wE))|done]. }
    assert (∀ l : list Customization,
              filter (λ c, Customization.arn c
                           ∉ (Customization.arn <$> ([] : list Customization))) l = l)
      as Hall; [|apply Hall].
    induction l as [|c l IH]; [done|].
    rewrite filter_cons_True; [by rewrite IH|]. simpl. apply not_elem_of_nil. }
  unfold bind at 1, gets at 1. rewrite Hbase.
  unfold when, isSelectedCustomizationAvailable.
  simpl negb. cbv iota.
  unfold bind at 1, ret at 1.
  unfold bind at 1, gets at 1. rewrite Hnew.
  unfold bind at 1. rewrite setPersistedCustomizations_skip by done.
  rewrite bool_decide_eq_false_2 by (by destruct available).
  eexists. split; [reflexivity|]. simpl.
  split; [done|]. split; [done|]. split; [done|]. split; [done|]. split; [done|].
  rewrite !notifications_app, (notifications_logs lines) by done.
  by rewrite app_nil_r.
Qed.

(** X21. With no valid enterprise SSO connection in use the snapshot cannot
    be written, so every customization fetched is new every time: when the
    fetch answers with customizations, [notifyNewCustomizations] shows the
    message about new customizations and records their number as the number
    of all the fetched ones, the stored snapshots as they were; and run
    again from the state it leaves, it shows the message again. *)
Theorem notifyNewCustomizations_notifies_again (env : Env) (fuel : nat) (w w1 : World)
    (available : list Customization) :
  getAvailableCustomizationsList env w = (Returned available, w1) →
  isValidEnterpriseSsoInUse (auth w) = false ∨ conn (auth w) = None →
  available ≠ [] →
  let message := InformationMessage (newCustomizationMessage env) [select; learnMore] in
  ∃ w' w'',
    notifyNewCustomizations env fuel w = (Returned tt, w')
    ∧ notifications (trace w') = notifications (trace w) ++ [message]
    ∧ getNewCustomizationsAvailable w' = length available
    ∧ persistedCustomizations (globalState w') = persistedCustomizations (globalState w)
    ∧ notifyNewCustomizations env fuel w' = (Returned tt, w'')
    ∧ notifications (trace w'') = notifications (trace w) ++ [message; message].
Proof.
  intros Hfetch Hno Hsome message.
  destruct (notifyNewCustomizations_unsaved env fuel w w1 available Hfetch Hno Hsome)
    as (w' & Hrun & Hvalid & Hconn & Hpersisted & _ & Hcount & Hshown).
  destruct (getAvailableCustomizationsList_outcome env) as (outcome & lines & Houtcome).
  assert (outcome = Returned available) as ->.
  { specialize (Houtcome w). rewrite Hfetch in Houtcome. congruence. }
  destruct (notifyNewCustomizations_unsaved env fuel w' _ available (Houtcome w'))
    as (w'' & Hrun' & _ & _ & _ & _ & _ & Hshown'); [by rewrite Hvalid, Hconn|done|].
  exists w', w''. split; [done|]. split; [done|]. split; [done|]. split; [done|].
  split; [done|]. rewrite Hshown', Hshown. by rewrite <- app_assoc.
Qed.

(** A connection whose enterprise SSO is not valid; the three profiles of
    the examples answer. *)
Lemma notifyNewCustomizations_notifies_again_witness :
  let w := Examples.world_invalid_sso Examples.fooA in
  let message :=
    InformationMessage (newCustomizationMessage Examples.env_ok) [select; learnMore] in
  ∃ w' w'',
    notifyNewCustomizations Examples.env_ok 0 w = (Returned tt, w')
    ∧ getNewCustomizationsAvailable w' = 3
    ∧ notifyNewCustomizations Examples.env_ok 0 w' = (Returned tt, w'')
    ∧ notifications (trace w'') = [message; message].
Proof.
  cbv zeta.
  destruct (notifyNewCustomizations_notifies_again Examples.env_ok 0
              (Examples.world_invalid_sso Examples.fooA) _ Examples.available_ok
              eq_refl (or_introl eq_refl) ltac:(done))
    as (w' & w'' & Hrun & _ & Hcount & _ & Hrun' & Hshown).
  exists w', w''. split; [exact Hrun|]. split; [exact Hcount|].
  split; [exact Hrun'|]. exact Hshown.
Defined.
